(** * chrome-llm-starter: the page summarisation pipeline of [src/background.ts]

    A shallow embedding of the background script: the content extractor
    ([extractPageContent]), the prompt builder, provider dispatcher and
    response normaliser ([generateSummaryViaFetch]) and the message
    handler ([handleSummarizePage]), followed by the properties the
    specification states about them. *)

From Stdlib Require Import List NArith ZArith Lia Bool Ascii String DecimalString.
From Stdlib Require Import Permutation Sorted.
Import ListNotations.

Set Implicit Arguments.
Set Warnings "-register-all".

(** ** JavaScript strings

    A JavaScript string is a sequence of UTF-16 code units; a code unit
    is kept as a number.  String literals of the source are ASCII and are
    written with [lit]. *)

Module JsString.

Definition char := N.
Definition jsstring := list char.

Definition lit (s : string) : jsstring :=
  map N_of_ascii (list_ascii_of_string s).

(** [dq s] is [lit s] with every apostrophe turned into a double quote,
    for the literals of the source that hold double quotes. *)
Definition dq (s : string) : jsstring :=
  map (fun c => if N.eqb c 39 then 34%N else c) (lit s).

Definition SP : char := 32%N.
Definition LF : char := 10%N.

(** The character class [\s] of a regular expression, which is also what
    [String.prototype.trim] strips: WhiteSpace and LineTerminator. *)
Definition is_space (c : char) : bool :=
  (N.leb 9 c && N.leb c 13)          (* TAB LF VT FF CR *)
  || N.eqb c 32                       (* SPACE *)
  || N.eqb c 160                      (* NO-BREAK SPACE *)
  || N.eqb c 5760                     (* U+1680 *)
  || (N.leb 8192 c && N.leb c 8202)   (* U+2000 .. U+200A *)
  || N.eqb c 8232 || N.eqb c 8233     (* U+2028, U+2029 *)
  || N.eqb c 8239                     (* U+202F *)
  || N.eqb c 8287                     (* U+205F *)
  || N.eqb c 12288                    (* U+3000 *)
  || N.eqb c 65279.                   (* U+FEFF *)

Fixpoint eqb (a b : jsstring) : bool :=
  match a, b with
  | [], [] => true
  | x :: a', y :: b' => N.eqb x y && eqb a' b'
  | _, _ => false
  end.

(** [s.trimStart()], [s.trimEnd()], [s.trim()] *)
Fixpoint trimStart (s : jsstring) : jsstring :=
  match s with
  | [] => []
  | c :: s' => if is_space c then trimStart s' else s
  end.

Definition trimEnd (s : jsstring) : jsstring := rev' (trimStart (rev' s)).

Definition trim (s : jsstring) : jsstring := trimEnd (trimStart s).

(** [s.replace(/\s+/g, ' ')]: every maximal run of white space becomes
    one space.  [in_run] says that the character before was white space,
    so that the run has already been replaced. *)
Fixpoint replace_spaces_from (in_run : bool) (s : jsstring) : jsstring :=
  match s with
  | [] => []
  | c :: s' =>
      if is_space c then
        if in_run then replace_spaces_from true s'
        else SP :: replace_spaces_from true s'
      else c :: replace_spaces_from false s'
  end.

Definition replace_spaces : jsstring -> jsstring := replace_spaces_from false.

(** [s.replace(/\n{3,}/g, '\n\n')]: a run of three or more line feeds
    becomes two.  [run] counts the line feeds kept in the current run. *)
Fixpoint limit_newlines_from (run : nat) (s : jsstring) : jsstring :=
  match s with
  | [] => []
  | c :: s' =>
      if N.eqb c LF then
        if Nat.leb 2 run then limit_newlines_from run s'
        else c :: limit_newlines_from (S run) s'
      else c :: limit_newlines_from 0 s'
  end.

Definition limit_newlines : jsstring -> jsstring := limit_newlines_from 0.

(** [s.split(/\s+/)]: the pieces of [s] between the maximal runs of white
    space.  The result always has a piece: the empty string gives [['']],
    and a string that starts (ends) with white space gives an empty first
    (last) piece.  [in_sep] says that the character before was white
    space. *)
Fixpoint split_from (in_sep : bool) (s : jsstring) : list jsstring :=
  match s with
  | [] => [[]]
  | c :: s' =>
      if is_space c then
        if in_sep then split_from true s' else [] :: split_from true s'
      else
        match split_from false s' with
        | w :: ws => (c :: w) :: ws
        | [] => [[c]]
        end
  end.

Definition split_spaces : jsstring -> list jsstring := split_from false.

(** [a.slice(0, n)] *)
Definition slice0 {A : Type} (n : nat) (a : list A) : list A := firstn n a.

(** [a.join(sep)] *)
Fixpoint join (sep : jsstring) (a : list jsstring) : jsstring :=
  match a with
  | [] => []
  | [w] => w
  | w :: ws => w ++ sep ++ join sep ws
  end.

(** Decimal digits of a non-negative integer, as a template literal
    prints it. *)
Definition decimal (n : N) : jsstring :=
  lit (DecimalString.NilZero.string_of_uint (N.to_uint n)).

(** [s.includes(t)] *)
Fixpoint starts_with (t s : jsstring) : bool :=
  match t, s with
  | [], _ => true
  | x :: t', y :: s' => N.eqb x y && starts_with t' s'
  | _ :: _, [] => false
  end.

Fixpoint includes (s t : jsstring) : bool :=
  starts_with t s ||
  match s with
  | [] => false
  | _ :: s' => includes s' t
  end.

End JsString.

Import JsString.


(** ** JavaScript values

    The values that JSON text and object literals denote.  A number is
    kept as the decimal [m * 10^e] that its literal denotes (the engine's
    rounding to a double is not modelled; the code only tests numbers for
    truthiness and copies them).  An object is its own enumerable
    properties, in insertion order. *)

Module Js.

Inductive JsValue : Type :=
  | JUndefined
  | JNull
  | JBool (b : bool)
  | JNum (m : Z) (e : Z)
  | JStr (s : jsstring)
  | JArr (items : list JsValue)
  | JObj (props : list (jsstring * JsValue)).

Definition JInt (n : Z) : JsValue := JNum n 0.

(** Exceptions: every value the code throws or receives is an [Error]
    object; its [message] is what the handler reports. *)
Inductive Exn : Type :=
  | Error (message : jsstring)
  | TypeError (message : jsstring)
  | SyntaxError (message : jsstring).

Definition message (e : Exn) : jsstring :=
  match e with Error m | TypeError m | SyntaxError m => m end.

Inductive Result (A : Type) : Type :=
  | Ok (a : A)
  | Throw (e : Exn).
Arguments Ok {A} a.
Arguments Throw {A} e.

(** ToBoolean: the falsy values are [undefined], [null], [false], zero
    and the empty string. *)
Definition truthy (v : JsValue) : bool :=
  match v with
  | JUndefined | JNull => false
  | JBool b => b
  | JNum m _ => negb (Z.eqb m 0)
  | JStr s => match s with [] => false | _ => true end
  | JArr _ | JObj _ => true
  end.

(** [a || b] *)
Definition or_else (a b : JsValue) : JsValue := if truthy a then a else b.

(** Property lists: [lookup] finds an own property, [obj_set] defines
    one (in place when the key is already there). *)
Fixpoint lookup (k : jsstring) (props : list (jsstring * JsValue)) : option JsValue :=
  match props with
  | [] => None
  | (k', v) :: rest => if JsString.eqb k k' then Some v else lookup k rest
  end.

Fixpoint obj_set (k : jsstring) (v : JsValue) (props : list (jsstring * JsValue))
  : list (jsstring * JsValue) :=
  match props with
  | [] => [(k, v)]
  | (k', v') :: rest =>
      if JsString.eqb k k' then (k, v) :: rest else (k', v') :: obj_set k v rest
  end.

(** The own enumerable properties that [{...v}] copies: the properties of
    an object, the indexed elements of an array, the indexed characters
    of a string, and nothing for the other primitives. *)
Fixpoint indexed {A : Type} (f : A -> JsValue) (i : N) (l : list A)
  : list (jsstring * JsValue) :=
  match l with
  | [] => []
  | x :: l' => (decimal i, f x) :: indexed f (N.succ i) l'
  end.

Definition spread (v : JsValue) : list (jsstring * JsValue) :=
  match v with
  | JObj props => props
  | JArr items => indexed (fun x => x) 0 items
  | JStr s => indexed (fun c => JStr [c]) 0 s
  | _ => []
  end.

(** [v[k]] and [v.k] for the keys the code reads ([content], [choices],
    [candidates], [message], [parts], [text], [0], [summary],
    [sentiment], [keyThemes], [wordCount], and [providers],
    [currentProvider], [apiKey] of the stored settings): none of them is
    inherited from a prototype, so the read finds an own property or
    [undefined]; reading from [undefined] or [null] throws. *)
Definition get (v : JsValue) (k : jsstring) : Result JsValue :=
  match v with
  | JUndefined =>
      Throw (TypeError (lit "Cannot read properties of undefined (reading '" ++ k ++ lit "')"))
  | JNull =>
      Throw (TypeError (lit "Cannot read properties of null (reading '" ++ k ++ lit "')"))
  | _ =>
      Ok match lookup k (spread v) with
         | Some x => x
         | None => JUndefined
         end
  end.

(** ToString.  A number [m * 10^e] prints as Number::toString prints
    the decimal with the digits of [m] (trailing zeros dropped); an array
    prints its elements separated by commas, [null] and [undefined] as
    nothing. *)
Fixpoint drop_trailing_zeros (fuel : nat) (m : N) (e : Z) : N * Z :=
  match fuel with
  | O => (m, e)
  | S fuel' =>
      if N.eqb (N.modulo m 10) 0 && N.ltb 0 m
      then drop_trailing_zeros fuel' (N.div m 10) (e + 1)
      else (m, e)
  end.

Definition Number_toString (m e : Z) : jsstring :=
  if Z.eqb m 0 then lit "0"
  else
    let sign := if Z.ltb m 0 then lit "-" else [] in
    let '(d, e') := drop_trailing_zeros (S (N.to_nat (N.log2 (Z.abs_N m)))) (Z.abs_N m) e in
    let digits := decimal d in
    let k := Z.of_nat (List.length digits) in
    let n := (k + e')%Z in
    sign ++
    if Z.leb k n && Z.leb n 21 then digits ++ repeat 48%N (Z.to_nat (n - k))
    else if Z.ltb 0 n && Z.leb n 21 then
      firstn (Z.to_nat n) digits ++ lit "." ++ skipn (Z.to_nat n) digits
    else if Z.ltb (-6) n && Z.leb n 0 then
      lit "0." ++ repeat 48%N (Z.to_nat (- n)) ++ digits
    else
      let x := (n - 1)%Z in
      let exponent := lit "e" ++ (if Z.ltb x 0 then lit "-" else lit "+") ++ decimal (Z.abs_N x) in
      match digits with
      | [] => []
      | [d1] => d1 :: exponent
      | d1 :: rest => d1 :: lit "." ++ rest ++ exponent
      end.

Fixpoint ToString (v : JsValue) : jsstring :=
  match v with
  | JUndefined => lit "undefined"
  | JNull => lit "null"
  | JBool true => lit "true"
  | JBool false => lit "false"
  | JNum m e => Number_toString m e
  | JStr s => s
  | JArr items =>
      (fix elements (l : list JsValue) : jsstring :=
         let element (x : JsValue) :=
           match x with
           | JUndefined | JNull => []
           | _ => ToString x
           end in
         match l with
         | [] => []
         | [x] => element x
         | x :: l' => element x ++ lit "," ++ elements l'
         end) items
  | JObj _ => lit "[object Object]"
  end.

End Js.

Import Js.

(** ** A reader for JSON text

    [JSON.parse] belongs to the engine; the pipeline below takes it from
    its environment.  [JsonText.parse] is a reader for the JSON grammar
    of ECMA-404, by recursive descent, which the closed examples use as
    that [JSON.parse].  [None] stands for the [SyntaxError]. *)

Module JsonText.

Fixpoint skip_ws (s : jsstring) : jsstring :=
  match s with
  | c :: s' =>
      if N.eqb c 32 || N.eqb c 9 || N.eqb c 10 || N.eqb c 13 then skip_ws s' else s
  | [] => []
  end.

Definition is_digit (c : char) : bool := N.leb 48 c && N.leb c 57.

(** Digits at the head of [s]: their value after [acc], how many there
    are, and what follows them. *)
Fixpoint read_digits (s : jsstring) (acc : Z) (n : nat) : Z * nat * jsstring :=
  match s with
  | c :: s' =>
      if is_digit c then read_digits s' (10 * acc + Z.of_N (c - 48)) (S n)
      else (acc, n, s)
  | [] => (acc, n, [])
  end.

Definition hex_digit (c : char) : option N :=
  if is_digit c then Some (c - 48)%N
  else if N.leb 97 c && N.leb c 102 then Some (c - 87)%N
  else if N.leb 65 c && N.leb c 70 then Some (c - 55)%N
  else None.

Definition hex4 (a b c d : char) : option char :=
  match hex_digit a, hex_digit b, hex_digit c, hex_digit d with
  | Some x, Some y, Some z, Some w => Some (((x * 16 + y) * 16 + z) * 16 + w)%N
  | _, _, _, _ => None
  end.

(** The characters of a string literal after its opening quote. *)
Fixpoint read_string (s : jsstring) : option (jsstring * jsstring) :=
  match s with
  | [] => None
  | 34%N :: r => Some ([], r)
  | 92%N :: 117%N :: a :: b :: c :: d :: r =>
      match hex4 a b c d, read_string r with
      | Some u, Some (str, r') => Some (u :: str, r')
      | _, _ => None
      end
  | 92%N :: e :: r =>
      let unescaped :=
        match e with
        | 34 => Some 34 | 92 => Some 92 | 47 => Some 47
        | 98 => Some 8 | 102 => Some 12 | 110 => Some 10
        | 114 => Some 13 | 116 => Some 9
        | _ => None
        end%N in
      match unescaped, read_string r with
      | Some u, Some (str, r') => Some (u :: str, r')
      | _, _ => None
      end
  | [92%N] => None
  | c :: r =>
      if N.ltb c 32 then None
      else match read_string r with
           | Some (str, r') => Some (c :: str, r')
           | None => None
           end
  end.

(** A number literal: [-]? int frac? exp?, read to [m * 10^e]. *)
Definition read_number (s : jsstring) : option (JsValue * jsstring) :=
  let '(neg, s1) := match s with 45%N :: r => (true, r) | _ => (false, s) end in
  let int_part :=
    match s1 with
    | 48%N :: r => Some (0%Z, r)
    | c :: _ => if is_digit c then let '(v, _, r) := read_digits s1 0 0 in Some (v, r)
                else None
    | [] => None
    end in
  match int_part with
  | None => None
  | Some (i, s2) =>
      let frac :=
        match s2 with
        | 46%N :: r =>
            match read_digits r i 0 with
            | (_, O, _) => None
            | (v, n, r') => Some (v, Z.of_nat n, r')
            end
        | _ => Some (i, 0%Z, s2)
        end in
      match frac with
      | None => None
      | Some (m, fl, s3) =>
          let m' := if neg then (- m)%Z else m in
          let expo (r : jsstring) (sgn : Z) :=
            match read_digits r 0 0 with
            | (_, O, _) => None
            | (x, _, r') => Some (JNum m' (sgn * x - fl), r')
            end in
          match s3 with
          | 101%N :: 45%N :: r | 69%N :: 45%N :: r => expo r (-1)%Z
          | 101%N :: 43%N :: r | 69%N :: 43%N :: r => expo r 1%Z
          | 101%N :: r | 69%N :: r => expo r 1%Z
          | _ => Some (JNum m' (- fl), s3)
          end
      end
  end.

Definition read_literal (word : string) (v : JsValue) (s : jsstring)
  : option (JsValue * jsstring) :=
  if starts_with (lit word) s then Some (v, skipn (String.length word) s) else None.

Fixpoint read_value (fuel : nat) (s : jsstring) : option (JsValue * jsstring) :=
  match fuel with
  | O => None
  | S f =>
      match skip_ws s with
      | 123%N :: r =>
          match skip_ws r with
          | 125%N :: r' => Some (JObj [], r')
          | r' => read_members f r' []
          end
      | 91%N :: r =>
          match skip_ws r with
          | 93%N :: r' => Some (JArr [], r')
          | r' => read_items f r' []
          end
      | 34%N :: r =>
          match read_string r with
          | Some (str, r') => Some (JStr str, r')
          | None => None
          end
      | (110%N :: _) as r => read_literal "null" JNull r
      | (116%N :: _) as r => read_literal "true" (JBool true) r
      | (102%N :: _) as r => read_literal "false" (JBool false) r
      | r => read_number r
      end
  end

with read_items (fuel : nat) (s : jsstring) (acc : list JsValue)
  : option (JsValue * jsstring) :=
  match fuel with
  | O => None
  | S f =>
      match read_value f s with
      | Some (v, r) =>
          match skip_ws r with
          | 44%N :: r' => read_items f r' (acc ++ [v])
          | 93%N :: r' => Some (JArr (acc ++ [v]), r')
          | _ => None
          end
      | None => None
      end
  end

with read_members (fuel : nat) (s : jsstring) (acc : list (jsstring * JsValue))
  : option (JsValue * jsstring) :=
  match fuel with
  | O => None
  | S f =>
      match skip_ws s with
      | 34%N :: r =>
          match read_string r with
          | Some (k, r1) =>
              match skip_ws r1 with
              | 58%N :: r2 =>
                  match read_value f r2 with
                  | Some (v, r3) =>
                      match skip_ws r3 with
                      | 44%N :: r4 => read_members f r4 (obj_set k v acc)
                      | 125%N :: r4 => Some (JObj (obj_set k v acc), r4)
                      | _ => None
                      end
                  | None => None
                  end
              | _ => None
              end
          | None => None
          end
      | _ => None
      end
  end.

Definition parse (s : jsstring) : option JsValue :=
  match read_value (2 * List.length s + 2) s with
  | Some (v, r) => match skip_ws r with [] => Some v | _ => None end
  | None => None
  end.

End JsonText.

(** ** Exceptions as results *)

Definition bind {A B : Type} (m : Result A) (k : A -> Result B) : Result B :=
  match m with
  | Ok a => k a
  | Throw e => Throw e
  end.

(** [try { body } catch (e) { handler e }] *)
Definition try_catch {A : Type} (body : Result A) (handler : Exn -> Result A) : Result A :=
  match body with
  | Ok a => Ok a
  | Throw e => handler e
  end.

Declare Scope js_scope.
Delimit Scope js_scope with js.
Notation "'let*' x ':=' m 'in' k" := (bind m (fun x => k))
  (at level 10, x name, m at level 100, k at level 200) : js_scope.
Open Scope js_scope.

(** ** The document

    What [extractPageContent] asks of the page: selector queries, deep
    cloning, removal of nodes and [textContent].  Any of them may throw;
    [DomApi] is that interface, and [Tree] below is the document as a
    tree of nodes. *)

Module Dom.

(** The selectors the code uses, already parsed: a type selector
    ([main]), [.class], [#id], [[attr="value"]] and [[attr*="part"]].
    A selector list ([a, b, c]) matches what one of its members does. *)
Inductive Simple : Type :=
  | SelTag (name : jsstring)
  | SelClass (name : jsstring)
  | SelId (name : jsstring)
  | SelAttrEq (attr value : jsstring)
  | SelAttrHas (attr part : jsstring).

Definition Selector := list Simple.

Record DomApi (E : Type) : Type := {
  (* document.querySelector(selector) *)
  querySelector : Selector -> Result (option E);
  (* element.cloneNode(true) *)
  cloneNode : E -> Result E;
  (* clone.querySelectorAll(selector).forEach(el => el.remove()); the
     clone afterwards *)
  removeAll : Selector -> E -> Result E;
  (* node.textContent, [None] for null *)
  textContent : E -> Result (option jsstring);
  (* document.body, [None] for null *)
  body : Result (option E)
}.

End Dom.

Import Dom.

Module Tree.

Inductive Node : Type :=
  | Text (data : jsstring)
  | Comment (data : jsstring)
  | Element (tag : jsstring) (attrs : list (jsstring * jsstring)) (children : list Node).

Fixpoint attr (name : jsstring) (attrs : list (jsstring * jsstring)) : option jsstring :=
  match attrs with
  | [] => None
  | (k, v) :: rest => if JsString.eqb name k then Some v else attr name rest
  end.

(** The tokens of a [class] attribute are separated by ASCII white
    space. *)
Definition is_ascii_space (c : char) : bool :=
  N.eqb c 9 || N.eqb c 10 || N.eqb c 12 || N.eqb c 13 || N.eqb c 32.

Fixpoint class_tokens (cur : jsstring) (s : jsstring) : list jsstring :=
  match s with
  | [] => [rev cur]
  | c :: s' =>
      if is_ascii_space c then rev cur :: class_tokens [] s'
      else class_tokens (c :: cur) s'
  end.

Definition has_class (name : jsstring) (attrs : list (jsstring * jsstring)) : bool :=
  match attr (lit "class") attrs with
  | Some v => existsb (JsString.eqb name) (class_tokens [] v)
  | None => false
  end.

(** Element names are kept in lower case, as an HTML document reports
    [localName]. *)
Definition matches_simple (s : Simple) (tag : jsstring) (attrs : list (jsstring * jsstring)) : bool :=
  match s with
  | SelTag name => JsString.eqb name tag
  | SelClass name => has_class name attrs
  | SelId name => match attr (lit "id") attrs with
                  | Some v => JsString.eqb name v
                  | None => false
                  end
  | SelAttrEq a value => match attr a attrs with
                         | Some v => JsString.eqb value v
                         | None => false
                         end
  | SelAttrHas a part => match attr a attrs with
                         | Some v => includes v part
                         | None => false
                         end
  end.

Definition matches (sel : Selector) (n : Node) : bool :=
  match n with
  | Element tag attrs _ => existsb (fun s => matches_simple s tag attrs) sel
  | _ => false
  end.

(** The first element in document order, the node itself included, that
    matches. *)
Fixpoint find_first (sel : Selector) (n : Node) : option Node :=
  match n with
  | Element _ _ children =>
      if matches sel n then Some n
      else (fix among (l : list Node) : option Node :=
              match l with
              | [] => None
              | c :: l' => match find_first sel c with
                           | Some x => Some x
                           | None => among l'
                           end
              end) children
  | _ => None
  end.

(** The node after each descendant that matches has been detached from
    its parent.  [querySelectorAll] returns a static list of the
    descendants (not the node itself) and [remove] detaches one; a
    match below another match leaves with it. *)
Fixpoint remove_matching (sel : Selector) (n : Node) : Node :=
  match n with
  | Element tag attrs children =>
      Element tag attrs
        ((fix among (l : list Node) : list Node :=
            match l with
            | [] => []
            | c :: l' => if matches sel c then among l'
                         else remove_matching sel c :: among l'
            end) children)
  | _ => n
  end.

(** [textContent]: the data of a text or comment node; for an element,
    the text of its descendants, comments left out. *)
Fixpoint text_of (n : Node) : jsstring :=
  match n with
  | Text data => data
  | Comment data => data
  | Element _ _ children =>
      (fix among (l : list Node) : jsstring :=
         match l with
         | [] => []
         | Comment _ :: l' => among l'
         | c :: l' => text_of c ++ among l'
         end) children
  end.

(** The same on a list of children. *)
Fixpoint remove_among (sel : Selector) (l : list Node) : list Node :=
  match l with
  | [] => []
  | c :: l' => if matches sel c then remove_among sel l'
               else remove_matching sel c :: remove_among sel l'
  end.

Fixpoint text_among (l : list Node) : jsstring :=
  match l with
  | [] => []
  | Comment _ :: l' => text_among l'
  | c :: l' => text_of c ++ text_among l'
  end.

(** [document.body]: the first [body] or [frameset] child of the root
    [html] element. *)
Definition body_of (root : Node) : option Node :=
  match root with
  | Element tag _ children =>
      if JsString.eqb tag (lit "html") then
        find (fun c => matches [SelTag (lit "body"); SelTag (lit "frameset")] c) children
      else None
  | _ => None
  end.

(** A document is its root element; none of the operations throws. *)
Definition api (root : Node) : DomApi Node := {|
  querySelector := fun sel => Ok (find_first sel root);
  cloneNode := fun element => Ok element;
  removeAll := fun sel clone => Ok (remove_matching sel clone);
  textContent := fun n => Ok (Some (text_of n));
  body := Ok (body_of root)
|}.

End Tree.

(** ** The content extractor: [extractPageContent] *)

Module Extractor.

Definition contentSources : list Selector := [
  [SelTag (lit "main")];
  [SelAttrEq (lit "role") (lit "main")];
  [SelTag (lit "article")];
  [SelClass (lit "content")];
  [SelId (lit "content")];
  [SelClass (lit "post-content")];
  [SelClass (lit "entry-content")];
  [SelClass (lit "article-content")];
  [SelTag (lit "body")]
].

Definition noiseSelector : Selector := [
  SelTag (lit "script"); SelTag (lit "style"); SelTag (lit "nav");
  SelTag (lit "header"); SelTag (lit "footer"); SelTag (lit "aside");
  SelClass (lit "advertisement"); SelClass (lit "ads"); SelClass (lit "sidebar");
  SelClass (lit "menu"); SelClass (lit "navigation");
  SelAttrHas (lit "class") (lit "comment"); SelAttrHas (lit "id") (lit "comment")
].

Section WithDocument.

Context {E : Type} (document : DomApi E).

(** The body of the inner [try] for one selector: the new [bestContent]
    and whether the loop breaks.  Whatever throws does so before
    [bestContent] is assigned. *)
Definition try_selector (selector : Selector) (bestContent : jsstring)
  : Result (jsstring * bool) :=
  let* element := querySelector document selector in
  match element with
  | Some element =>
      let* clone := cloneNode document element in
      let* clone := removeAll document noiseSelector clone in
      let* text := textContent document clone in
      let textContent := match text with Some t => t | None => [] end in
      let bestContent :=
        if Nat.ltb (List.length bestContent) (List.length (trim textContent))
        then trim textContent else bestContent in
      Ok (bestContent, Nat.ltb 500 (List.length bestContent))
  | None => Ok (bestContent, false)
  end.

(** The [for ... of contentSources] loop, from the selectors still to
    try; a selector whose [try] throws is skipped. *)
Fixpoint scan (sources : list Selector) (bestContent : jsstring) : jsstring :=
  match sources with
  | [] => bestContent
  | selector :: rest =>
      match try_selector selector bestContent with
      | Ok (bestContent', true) => bestContent'
      | Ok (bestContent', false) => scan rest bestContent'
      | Throw _ => scan rest bestContent
      end
  end.

Definition clean (bestContent : jsstring) : jsstring :=
  trim (limit_newlines (replace_spaces bestContent)).

Definition extractPageContent : Result jsstring :=
  try_catch
    (let bestContent := scan contentSources [] in
     let cleanContent := clean bestContent in
     Ok cleanContent)
    (fun _ =>
       (* document.body?.textContent?.replace(/\s+/g, ' ').trim() || '' *)
       let* b := body document in
       match b with
       | None => Ok []
       | Some b =>
           let* text := textContent document b in
           match text with
           | None => Ok []
           | Some t => Ok (trim (replace_spaces t))
           end
       end).

End WithDocument.

End Extractor.

Import Extractor.

(** ** The background script *)

Module Background.

(** *** Settings ([lib/types.ts]) *)

Inductive LLMProvider : Type := anthropic | openai | google | xai.

Record ProviderSettings : Type := {
  apiKey : jsstring;
  model : jsstring
}.

Record Providers : Type := {
  of_anthropic : ProviderSettings;
  of_openai : ProviderSettings;
  of_google : ProviderSettings;
  of_xai : ProviderSettings
}.

(** The settings of [lib/types.ts], as the settings page stores them.
    [currentProvider] is one of the four identifiers or [''], which is
    [None] here.  (What the handler does with a stored value of another
    shape is in [AnyValue] below.) *)
Record LLMSettings : Type := {
  currentProvider : option LLMProvider;
  providers : Providers
}.

(** [settings.providers[settings.currentProvider]], [None] for
    [undefined]. *)
Definition provider_entry (settings : LLMSettings) : option ProviderSettings :=
  match currentProvider settings with
  | Some anthropic => Some (of_anthropic (providers settings))
  | Some openai => Some (of_openai (providers settings))
  | Some google => Some (of_google (providers settings))
  | Some xai => Some (of_xai (providers settings))
  | None => None
  end.

(** *** Messages, requests and replies *)

(** The [summarizePage] request of the popup. *)
Record Message : Type := {
  msg_url : jsstring;
  msg_title : jsstring;
  msg_tabId : N
}.

(** The arguments of a [fetch] call; [req_body] is the value handed to
    [JSON.stringify]. *)
Record Request : Type := {
  req_url : jsstring;
  req_method : jsstring;
  req_headers : list (jsstring * jsstring);
  req_body : JsValue
}.

(** What [fetch] resolves to: [status], [statusText], and the outcome of
    [json()]. *)
Record Response : Type := {
  status : N;
  statusText : jsstring;
  json : Result JsValue
}.

(** [response.ok]: the status is in the range 200..299. *)
Definition ok (r : Response) : bool := N.leb 200 (status r) && N.leb (status r) 299.

(** The summary object the handler sends back. *)
Record Summary : Type := {
  id : jsstring;
  url : jsstring;
  title : jsstring;
  summary : JsValue;
  sentiment : JsValue;
  keyThemes : JsValue;
  commentCount : JsValue;
  createdAt : jsstring;
  processingTime : Z
}.

(** [sendResponse] receives the summary object (with [success: true]) or
    [{ success: false, error }]. *)
Inductive Reply : Type :=
  | Success (s : Summary)
  | Failure (error : jsstring).

(** *** The environment and the effects *)

(** What the script gets from the browser: [JSON.parse] ([None] when it
    throws), the document of a tab where a script can be injected,
    the stored [llmSettings], what a [fetch] resolves to or rejects with,
    the clock and the UUID generator. *)
Record Env : Type := {
  JSON_parse : jsstring -> option JsValue;
  tab_document : N -> option Tree.Node;
  stored_llmSettings : option LLMSettings;
  fetch_outcome : Request -> Result Response;
  startTime : Z;
  endTime : Z;
  randomUUID : jsstring;
  isoNow : jsstring
}.

Inductive Event : Type :=
  | ExecuteScript (tabId : N)
  | StorageGet (key : jsstring)
  | Fetch (request : Request)
  | SendResponse (reply : Reply).

(** A computation leaves the events it performed, in order, whether it
    returns or throws. *)
Definition M (A : Type) : Type := list Event -> Result A * list Event.

Definition ret {A : Type} (a : A) : M A := fun t => (Ok a, t).

Definition throw {A : Type} (e : Exn) : M A := fun t => (Throw e, t).

Definition bindM {A B : Type} (m : M A) (k : A -> M B) : M B :=
  fun t => match m t with
           | (Ok a, t') => k a t'
           | (Throw e, t') => (Throw e, t')
           end.

Definition emit (ev : Event) : M unit := fun t => (Ok tt, t ++ [ev]).

Definition lift {A : Type} (r : Result A) : M A := fun t => (r, t).

Definition try_catchM {A : Type} (body : M A) (handler : Exn -> M A) : M A :=
  fun t => match body t with
           | (Ok a, t') => (Ok a, t')
           | (Throw e, t') => handler e t'
           end.

Notation "x <- m ;; k" := (bindM m (fun x => k))
  (at level 61, m at next level, right associativity).
Notation "m ;; k" := (bindM m (fun _ => k))
  (at level 61, right associativity).

Section WithEnv.

Variable env : Env.

(** [await fetch(url, init)] *)
Definition fetch (request : Request) : M Response :=
  emit (Fetch request) ;; lift (fetch_outcome env request).

(** *** [generateSummaryViaFetch] *)

Definition prompt_before_title : jsstring :=
  join [LF] [
    lit "Please analyze the following web page content and provide a comprehensive summary.";
    [];
    lit "Title: " ].

Definition prompt_before_content : jsstring :=
  join [LF] [ []; []; lit "Content:"; [] ].

Definition prompt_after_content : jsstring :=
  join [LF] [
    []; [];
    lit "Please provide your response in the following JSON format:";
    lit "{";
    dq "  'summary': 'A clear, concise summary of the main points and key information from this page (2-3 sentences)',";
    dq "  'sentiment': 'overall sentiment of the content (positive, negative, neutral, or mixed)',";
    dq "  'keyThemes': ['array', 'of', 'key', 'themes', 'or', 'topics']";
    lit "}";
    [];
    lit "Focus on the main ideas, key facts, and important takeaways. Keep the summary informative but brief." ].

Definition build_prompt (title truncatedContent : jsstring) : jsstring :=
  prompt_before_title ++ title ++ prompt_before_content
  ++ truncatedContent ++ prompt_after_content.

(** The [try { JSON.parse(text) ... } catch { ... }] block, which each
    provider branch repeats.  [JSON.parse] reads the string conversion of
    [text]. *)
Definition parse_model_text (text : JsValue) (wordCount : JsValue) : JsValue :=
  match JSON_parse env (ToString text) with
  | Some parsed =>
      (* { ...parsed, wordCount } *)
      JObj (obj_set (lit "wordCount") wordCount (spread parsed))
  | None =>
      JObj [ (lit "summary", text);
             (lit "sentiment", JStr (lit "neutral"));
             (lit "keyThemes", JArr []);
             (lit "wordCount", wordCount) ]
  end.

Definition user_message (prompt : jsstring) : JsValue :=
  JObj [ (lit "role", JStr (lit "user")); (lit "content", JStr prompt) ].

(** [data.a[0].b ...]: a chain of property reads. *)
Fixpoint get_path (v : JsValue) (path : list jsstring) : Result JsValue :=
  match path with
  | [] => Ok v
  | k :: path' => let* x := get v k in get_path x path'
  end.

Definition api_error (label : string) (apiResponse : Response) : Exn :=
  Error (lit label ++ lit " API error: " ++ decimal (status apiResponse)
         ++ lit " " ++ statusText apiResponse).

Definition generateSummaryViaFetch (content title : jsstring) (settings : LLMSettings)
  : M JsValue :=
  let words := split_spaces content in
  let truncatedContent := join (lit " ") (slice0 3000 words) in
  let wordCount := JInt (Z.of_nat (List.length words)) in
  let prompt := build_prompt title truncatedContent in
  try_catchM
    match currentProvider settings with
    | Some anthropic =>
        let currentProvider := of_anthropic (providers settings) in
        apiResponse <- fetch {|
          req_url := lit "https://api.anthropic.com/v1/messages";
          req_method := lit "POST";
          req_headers := [
            (lit "Content-Type", lit "application/json");
            (lit "X-API-Key", apiKey currentProvider);
            (lit "anthropic-version", lit "2023-06-01");
            (lit "anthropic-dangerous-direct-browser-access", lit "true") ];
          req_body := JObj [
            (lit "model", JStr (model currentProvider));
            (lit "max_tokens", JInt 500);
            (lit "temperature", JNum 7 (-1));
            (lit "messages", JArr [user_message prompt]) ] |} ;;
        if negb (ok apiResponse) then throw (api_error "Anthropic" apiResponse)
        else
          data <- lift (json apiResponse) ;;
          text <- lift (get_path data [lit "content"; lit "0"; lit "text"]) ;;
          ret (parse_model_text text wordCount)
    | Some openai =>
        let currentProvider := of_openai (providers settings) in
        apiResponse <- fetch {|
          req_url := lit "https://api.openai.com/v1/chat/completions";
          req_method := lit "POST";
          req_headers := [
            (lit "Content-Type", lit "application/json");
            (lit "Authorization", lit "Bearer " ++ apiKey currentProvider) ];
          req_body := JObj [
            (lit "model", JStr (model currentProvider));
            (lit "messages", JArr [user_message prompt]);
            (lit "max_tokens", JInt 500);
            (lit "temperature", JNum 7 (-1)) ] |} ;;
        if negb (ok apiResponse) then throw (api_error "OpenAI" apiResponse)
        else
          data <- lift (json apiResponse) ;;
          text <- lift (get_path data [lit "choices"; lit "0"; lit "message"; lit "content"]) ;;
          ret (parse_model_text text wordCount)
    | Some google =>
        let currentProvider := of_google (providers settings) in
        apiResponse <- fetch {|
          req_url := lit "https://generativelanguage.googleapis.com/v1beta/models/"
                     ++ model currentProvider ++ lit ":generateContent?key="
                     ++ apiKey currentProvider;
          req_method := lit "POST";
          req_headers := [ (lit "Content-Type", lit "application/json") ];
          req_body := JObj [
            (lit "contents",
             JArr [ JObj [ (lit "parts", JArr [ JObj [ (lit "text", JStr prompt) ] ]) ] ]);
            (lit "generationConfig",
             JObj [ (lit "temperature", JNum 7 (-1));
                    (lit "maxOutputTokens", JInt 500) ]) ] |} ;;
        if negb (ok apiResponse) then throw (api_error "Google" apiResponse)
        else
          data <- lift (json apiResponse) ;;
          text <- lift (get_path data [lit "candidates"; lit "0"; lit "content";
                                       lit "parts"; lit "0"; lit "text"]) ;;
          ret (parse_model_text text wordCount)
    | Some xai =>
        let currentProvider := of_xai (providers settings) in
        apiResponse <- fetch {|
          req_url := lit "https://api.x.ai/v1/chat/completions";
          req_method := lit "POST";
          req_headers := [
            (lit "Content-Type", lit "application/json");
            (lit "Authorization", lit "Bearer " ++ apiKey currentProvider) ];
          req_body := JObj [
            (lit "model", JStr (model currentProvider));
            (lit "messages", JArr [user_message prompt]);
            (lit "max_tokens", JInt 500);
            (lit "temperature", JNum 7 (-1)) ] |} ;;
        if negb (ok apiResponse) then throw (api_error "xAI" apiResponse)
        else
          data <- lift (json apiResponse) ;;
          text <- lift (get_path data [lit "choices"; lit "0"; lit "message"; lit "content"]) ;;
          ret (parse_model_text text wordCount)
    | None => throw (Error (lit "Unsupported provider"))
    end
    (fun error => throw error).

(** *** [getPageContent]

    [executeScript] runs [extractPageContent] in the page of the tab and
    resolves to its result, or rejects when no script can be injected;
    [None] is [null]. *)
Definition getPageContent (tabId : N) : M (option jsstring) :=
  emit (ExecuteScript tabId) ;;
  match tab_document env tabId with
  | Some root =>
      match extractPageContent (Tree.api root) with
      | Ok result => if truthy (JStr result) then ret (Some result) else ret None
      | Throw _ => ret None
      end
  | None => ret None
  end.

(** *** [handleSummarizePage] *)

Definition sendResponse (reply : Reply) : M unit := emit (SendResponse reply).

Definition handleSummarizePage (request : Message) : M unit :=
  try_catchM
    (pageContent <- getPageContent (msg_tabId request) ;;
     (* !pageContent *)
     if negb match pageContent with
             | Some content => truthy (JStr content)
             | None => false
             end
     then sendResponse (Failure (lit "Could not extract page content"))
     else
       let pageContent := match pageContent with Some content => content | None => [] end in
       emit (StorageGet (lit "llmSettings")) ;;
       match stored_llmSettings env with
       | None => sendResponse (Failure (lit "LLM settings not configured"))
       | Some settings =>
           let currentProvider := provider_entry settings in
           (* !currentProvider?.apiKey *)
           if negb match currentProvider with
                   | Some p => truthy (JStr (apiKey p))
                   | None => false
                   end
           then sendResponse (Failure (lit "API key not configured"))
           else
             summaryResult <-
               generateSummaryViaFetch pageContent (msg_title request) settings ;;
             let processingTime := (endTime env - startTime env)%Z in
             summary_ <- lift (get summaryResult (lit "summary")) ;;
             sentiment_ <- lift (get summaryResult (lit "sentiment")) ;;
             keyThemes_ <- lift (get summaryResult (lit "keyThemes")) ;;
             wordCount_ <- lift (get summaryResult (lit "wordCount")) ;;
             sendResponse (Success {|
               id := randomUUID env;
               url := msg_url request;
               title := msg_title request;
               summary := summary_;
               sentiment := or_else sentiment_ (JStr (lit "neutral"));
               keyThemes := or_else keyThemes_ (JArr []);
               commentCount := or_else wordCount_ (JInt 0);
               createdAt := isoNow env;
               processingTime := processingTime |})
       end)
    (fun error => sendResponse (Failure (message error))).

(** The reply a run of the handler sends, and the requests it issues. *)
Definition run (request : Message) : list Event := snd (handleSummarizePage request []).

End WithEnv.

End Background.

Import Background.


(** ** The specification's vocabulary *)

Module Spec.

(** The whitespace-separated words of a string: split at every white
    space character, empty pieces dropped. *)
Fixpoint split_each (s : jsstring) : list jsstring :=
  match s with
  | [] => [[]]
  | c :: s' =>
      if is_space c then [] :: split_each s'
      else match split_each s' with
           | w :: ws => (c :: w) :: ws
           | [] => [[c]]
           end
  end.

Definition nonempty (w : jsstring) : bool :=
  match w with [] => false | _ => true end.

Definition words (s : jsstring) : list jsstring := filter nonempty (split_each s).

Definition space_free (w : jsstring) : Prop := Forall (fun c => is_space c = false) w.

Definition starts_with_space (s : jsstring) : bool :=
  match s with c :: _ => is_space c | [] => false end.

Definition ends_with_space (s : jsstring) : bool := starts_with_space (rev s).

(** The shape of a split: pieces with characters, then empty pieces. *)
Definition settled (l : list jsstring) : Prop :=
  exists full extra, l = full ++ extra
    /\ Forall (fun w => nonempty w = true) full
    /\ Forall (fun w => nonempty w = false) extra.

(** *** Extraction *)

(** What a selector contributes: the trimmed text of the element it
    finds, once the noise is removed from a clone; nothing when no
    element is found or an operation throws. *)
Definition found_text {E : Type} (document : DomApi E) (selector : Selector)
  : option jsstring :=
  match querySelector document selector with
  | Ok (Some element) =>
      match (let* clone := cloneNode document element in
             let* clone := removeAll document noiseSelector clone in
             textContent document clone) with
      | Ok (Some t) => Some (trim t)
      | Ok None => Some []
      | Throw _ => None
      end
  | _ => None
  end.

(** The text kept when [t] comes after [best]. *)
Definition longer (best t : jsstring) : jsstring :=
  if Nat.ltb (List.length best) (List.length t) then t else best.




(** A document of the tree model: the noise-stripped, trimmed text of
    the element a selector finds. *)
Definition stripped_text (element : Tree.Node) : jsstring :=
  trim (Tree.text_of (Tree.remove_matching noiseSelector element)).

Definition tree_candidates (root : Tree.Node) : list jsstring :=
  flat_map (fun selector => match Tree.find_first selector root with
                            | Some element => [stripped_text element]
                            | None => []
                            end) contentSources.

(** The selectors for main content: all of [contentSources] but the
    last, [body]. *)
Definition mainSelectors : list Selector := removelast contentSources.

Definition no_main_content (root : Tree.Node) : Prop :=
  Forall (fun selector => Tree.find_first selector root = None) mainSelectors.

Definition blank (s : jsstring) : Prop := Forall (fun c => is_space c = true) s.

(** A child of a body that holds only navigation and a footer: a [nav]
    or [footer] element, or the white space and comments between
    them. *)
Definition nav_or_footer (child : Tree.Node) : Prop :=
  match child with
  | Tree.Element tag _ _ => tag = lit "nav" \/ tag = lit "footer"
  | Tree.Text data => blank data
  | Tree.Comment _ => True
  end.

(** *** The pipeline *)

(** Where each provider's response holds the model's text, and the name
    its errors carry. *)
Definition response_path (p : LLMProvider) : list jsstring :=
  match p with
  | anthropic => [lit "content"; lit "0"; lit "text"]
  | openai | xai => [lit "choices"; lit "0"; lit "message"; lit "content"]
  | google => [lit "candidates"; lit "0"; lit "content"; lit "parts"; lit "0"; lit "text"]
  end.

Definition error_label (p : LLMProvider) : string :=
  match p with
  | anthropic => "Anthropic"
  | openai => "OpenAI"
  | google => "Google"
  | xai => "xAI"
  end.

(** Where each provider's request body holds the prompt. *)
Definition prompt_path (p : LLMProvider) : list jsstring :=
  match p with
  | anthropic | openai | xai => [lit "messages"; lit "0"; lit "content"]
  | google => [lit "contents"; lit "0"; lit "parts"; lit "0"; lit "text"]
  end.

(** A property of a value, [undefined] when it has none of that name. *)
Definition field (v : JsValue) (k : string) : JsValue :=
  match lookup (lit k) (spread v) with
  | Some x => x
  | None => JUndefined
  end.

(** The page of the request's tab yields [content], which is not
    empty. *)
Definition extracted (env : Env) (request : Message) (content : jsstring) : Prop :=
  exists root,
    tab_document env (msg_tabId request) = Some root
    /\ extractPageContent (Tree.api root) = Ok content
    /\ content <> [].

(** What [getPageContent] hands to the handler. *)
Definition page_text (env : Env) (request : Message) : option jsstring :=
  match tab_document env (msg_tabId request) with
  | Some root =>
      match extractPageContent (Tree.api root) with
      | Ok (c :: content) => Some (c :: content)
      | _ => None
      end
  | None => None
  end.

(** The stored settings name provider [p] and hold a key for it. *)
Definition configured (env : Env) (settings : LLMSettings) (p : LLMProvider) : Prop :=
  stored_llmSettings env = Some settings
  /\ currentProvider settings = Some p
  /\ exists entry, provider_entry settings = Some entry /\ apiKey entry <> [].

(** No API key is configured for the current provider: there are no
    settings, no provider is chosen, or its key is empty. *)
Definition api_key_missing (env : Env) : Prop :=
  match stored_llmSettings env with
  | None => True
  | Some settings =>
      match provider_entry settings with
      | None => True
      | Some entry => apiKey entry = []
      end
  end.

(** Whatever is requested, the provider answers with a success whose
    body holds [text] where provider [p] puts the model's text. *)
Definition provider_replies (env : Env) (p : LLMProvider) (text : JsValue) : Prop :=
  forall request, exists response data,
    fetch_outcome env request = Ok response
    /\ ok response = true
    /\ json response = Ok data
    /\ get_path data (response_path p) = Ok text.

(** What the dispatcher makes of the outcome of its [fetch]. *)
Definition dispatch_outcome (env : Env) (p : LLMProvider) (wordCount : JsValue)
    (outcome : Result Response) : Result JsValue :=
  let* apiResponse := outcome in
  if ok apiResponse then
    let* data := json apiResponse in
    let* text := get_path data (response_path p) in
    Ok (parse_model_text env text wordCount)
  else Throw (api_error (error_label p) apiResponse).

(** The reply at the end of a run, if it is a summary. *)
Definition summary_sent (trace : list Event) : option Summary :=
  match rev trace with
  | SendResponse (Success s) :: _ => Some s
  | _ => None
  end.


(** *** The claims that the code does not meet, as they are stated *)

(** C1 as stated: when the model's text is JSON with the three fields,
    the summary object holds the three values unmodified. *)
Definition summary_keeps_all_fields : Prop :=
  forall env request content settings p s parsed vs vt vk,
    extracted env request content ->
    configured env settings p ->
    provider_replies env p (JStr s) ->
    JSON_parse env s = Some parsed ->
    lookup (lit "summary") (spread parsed) = Some vs ->
    lookup (lit "sentiment") (spread parsed) = Some vt ->
    lookup (lit "keyThemes") (spread parsed) = Some vk ->
    exists so,
      summary_sent (run env request) = Some so
      /\ summary so = vs /\ sentiment so = vt /\ keyThemes so = vk.


End Spec.

Import Spec.

(** ** Sample pages, settings and provider answers *)

Module Examples.

Definition el (tag : string) (children : list Tree.Node) : Tree.Node :=
  Tree.Element (lit tag) [] children.

Definition txt (s : string) : Tree.Node := Tree.Text (lit s).

(** A page with navigation and a footer, and nothing else. *)
Definition nav_footer_page : Tree.Node :=
  el "html" [
    el "head" [ el "title" [ txt "Site" ] ];
    el "body" [
      Tree.Text [LF];
      el "nav" [ Tree.Element (lit "a") [(lit "href", lit "/")] [ txt "Home" ] ];
      Tree.Text [LF];
      el "footer" [ txt "(c) 2024 Example" ];
      Tree.Text [LF] ] ].

(** The same page with text of its own in the body, beside the
    navigation and the footer. *)
Definition loose_text_page : Tree.Node :=
  el "html" [
    el "head" [ el "title" [ txt "Site" ] ];
    el "body" [
      Tree.Text [LF];
      el "nav" [ Tree.Element (lit "a") [(lit "href", lit "/")] [ txt "Home" ] ];
      Tree.Text (LF :: lit "Opening hours:  9 to 5." ++ [LF]);
      el "footer" [ txt "(c) 2024 Example" ];
      Tree.Text [LF] ] ].

(** A page with an article in [main], among noise. *)
Definition article_page : Tree.Node :=
  el "html" [
    el "head" [ el "title" [ txt "News" ] ];
    el "body" [
      el "nav" [ txt "Home" ];
      el "main" [
        el "h1" [ txt "Release notes" ];
        Tree.Text [LF; SP; SP];
        el "p" [ txt "The new   release brings"; Tree.Text [LF]; txt "faster proofs." ];
        el "script" [ txt "track()" ];
        Tree.Element (lit "div") [(lit "class", lit "user-comments")] [ txt "First!" ] ];
      el "footer" [ txt "(c) 2024 Example" ] ] ].

(** A page whose article has [n] words. *)
Definition wordy_page (n : nat) : Tree.Node :=
  el "html" [ el "body" [ el "article" [ Tree.Text (List.concat (repeat (lit "word ") n)) ] ] ].

(** An article of 150 words, after an introduction that is outside
    it. *)
Definition long_article_page : Tree.Node :=
  el "html" [
    el "body" [
      el "p" [ txt "An introduction outside. " ];
      el "article" [ Tree.Text (List.concat (repeat (lit "word ") 150)) ] ] ].

Definition settings_with_key (key : jsstring) : LLMSettings := {|
  currentProvider := Some anthropic;
  providers := {|
    of_anthropic := {| apiKey := key; model := lit "claude-3-5-sonnet-20241022" |};
    of_openai := {| apiKey := []; model := lit "gpt-4o" |};
    of_google := {| apiKey := []; model := lit "gemini-2.5-flash" |};
    of_xai := {| apiKey := []; model := lit "grok-2-1212" |} |} |}.

Definition settings : LLMSettings := settings_with_key (lit "sk-ant-test").

(** The body of an Anthropic Messages answer that holds [text]. *)
Definition anthropic_body (text : jsstring) : JsValue :=
  JObj [ (lit "content",
          JArr [ JObj [ (lit "type", JStr (lit "text")); (lit "text", JStr text) ] ]) ].

Definition answer (text : jsstring) : Response :=
  {| status := 200; statusText := lit "OK"; json := Ok (anthropic_body text) |}.

Definition not_found : Response :=
  {| status := 404; statusText := lit "Not Found";
     json := Ok (JObj [ (lit "type", JStr (lit "error")) ]) |}.

(** A browser that shows [page] in every tab, has [stored] in its
    storage and gets [response] to every request. *)
Definition browser (page : option Tree.Node) (stored : option LLMSettings)
    (response : Response) : Env := {|
  JSON_parse := JsonText.parse;
  tab_document := fun _ => page;
  stored_llmSettings := stored;
  fetch_outcome := fun _ => Ok response;
  startTime := 1000;
  endTime := 1850;
  randomUUID := lit "3b241101-e2bb-4255-8caf-4136c566a962";
  isoNow := lit "2024-05-01T12:00:00.000Z" |}.

Definition request : Message :=
  {| msg_url := lit "https://example.org/news"; msg_title := lit "News"; msg_tabId := 7 |}.

Definition article_text : jsstring :=
  lit "Release notes The new release brings faster proofs.".

Definition full_reply : jsstring :=
  dq "{'summary': 'A release note.', 'sentiment': 'positive', 'keyThemes': ['release', 'proofs']}".

Definition empty_sentiment_reply : jsstring :=
  dq "{'summary': 'A release note.', 'sentiment': '', 'keyThemes': ['release']}".

Definition partial_reply : jsstring := dq "{'summary': 'A release note.', 'keyThemes': null}".

Definition plain_reply : jsstring := lit "The page announces a release.".

(** The article page, a key for Anthropic, and a model that answers
    with each of the sample replies. *)
Definition full_browser : Env :=
  browser (Some article_page) (Some settings) (answer full_reply).

Definition empty_sentiment_browser : Env :=
  browser (Some article_page) (Some settings) (answer empty_sentiment_reply).

Definition partial_browser : Env :=
  browser (Some article_page) (Some settings) (answer partial_reply).

Definition plain_browser : Env :=
  browser (Some article_page) (Some settings) (answer plain_reply).

(** The provider answers 404. *)
Definition failing_browser : Env :=
  browser (Some article_page) (Some settings) not_found.

(** No key is stored; the page is the article, or has no content. *)
Definition keyless_browser : Env :=
  browser (Some article_page) (Some (settings_with_key [])) not_found.


(** A page of 3001 words. *)
Definition wordy_browser : Env :=
  browser (Some (wordy_page 3001)) (Some settings) (answer full_reply).

End Examples.

(** ** More vocabulary: the handler's runs, normalised text, subtrees *)

Module More.

Definition is_reply (ev : Event) : bool :=
  match ev with SendResponse _ => true | _ => false end.

(** The reply the handler makes of what the dispatcher returns or
    throws. *)
Definition reply_of (env : Env) (request : Message) (outcome : Result JsValue) : Reply :=
  match outcome with
  | Ok result =>
      Success {|
        id := randomUUID env;
        url := msg_url request;
        title := msg_title request;
        summary := field result "summary";
        sentiment := or_else (field result "sentiment") (JStr (lit "neutral"));
        keyThemes := or_else (field result "keyThemes") (JArr []);
        commentCount := or_else (field result "wordCount") (JInt 0);
        createdAt := isoNow env;
        processingTime := (endTime env - startTime env)%Z |}
  | Throw e => Failure (message e)
  end.

(** The handler can go as far as the provider: the page gave content and
    a key is stored for the current provider. *)
Definition ready (env : Env) (request : Message) : Prop :=
  exists content settings p,
    extracted env request content /\ configured env settings p.

(** Every white space character of [s] is a single space between two
    other characters: [after_space] says that the character before [s]
    was a space. *)
Fixpoint single_spaced (after_space : bool) (s : jsstring) : bool :=
  match s with
  | [] => true
  | c :: s' =>
      if is_space c then N.eqb c SP && negb after_space && single_spaced true s'
      else single_spaced false s'
  end.

(** The nodes below a node, at any depth. *)
Fixpoint descendants (n : Tree.Node) : list Tree.Node :=
  match n with
  | Tree.Element _ _ children =>
      (fix among (l : list Tree.Node) : list Tree.Node :=
         match l with
         | [] => []
         | c :: l' => c :: descendants c ++ among l'
         end) children
  | _ => []
  end.

Fixpoint descendants_among (l : list Tree.Node) : list Tree.Node :=
  match l with
  | [] => []
  | c :: l' => c :: descendants c ++ descendants_among l'
  end.

(** No element below [n] matches the selector. *)
Definition noise_free (sel : Selector) (n : Tree.Node) : Prop :=
  forall d, In d (descendants n) -> Tree.matches sel d = false.

(** [ms] is [ns] with some of its nodes left out, the others kept in
    their order and related by [R]. *)
Inductive pruned_list (R : Tree.Node -> Tree.Node -> Prop)
  : list Tree.Node -> list Tree.Node -> Prop :=
  | pruned_nil : pruned_list R [] []
  | pruned_keep (m n : Tree.Node) (ms ns : list Tree.Node) :
      R m n -> pruned_list R ms ns -> pruned_list R (m :: ms) (n :: ns)
  | pruned_drop (n : Tree.Node) (ms ns : list Tree.Node) :
      pruned_list R ms ns -> pruned_list R ms (n :: ns).

(** [m] is [n] with some of the nodes below it detached, each with all
    that it holds: the same node, with the same name and attributes, and
    of its children some are left out and the others pruned. *)
Inductive pruning : Tree.Node -> Tree.Node -> Prop :=
  | pruning_text (data : jsstring) : pruning (Tree.Text data) (Tree.Text data)
  | pruning_comment (data : jsstring) : pruning (Tree.Comment data) (Tree.Comment data)
  | pruning_element (tag : jsstring) (attrs : list (jsstring * jsstring))
      (ms ns : list Tree.Node) :
      pruned_list pruning ms ns ->
      pruning (Tree.Element tag attrs ms) (Tree.Element tag attrs ns).

(** Sample browsers: one that is offline, one whose provider answers
    with a body that has no text, one whose text is missing. *)
Definition offline_browser : Env := {|
  JSON_parse := JsonText.parse;
  tab_document := fun _ => Some Examples.article_page;
  stored_llmSettings := Some Examples.settings;
  fetch_outcome := fun _ => Throw (TypeError (lit "Failed to fetch"));
  startTime := 1000;
  endTime := 1850;
  randomUUID := lit "3b241101-e2bb-4255-8caf-4136c566a962";
  isoNow := lit "2024-05-01T12:00:00.000Z" |}.

Definition empty_body_browser : Env :=
  Examples.browser (Some Examples.article_page) (Some Examples.settings)
    {| status := 200; statusText := lit "OK"; json := Ok (JObj []) |}.

Definition no_text_browser : Env :=
  Examples.browser (Some Examples.article_page) (Some Examples.settings)
    {| status := 200; statusText := lit "OK";
       json := Ok (JObj [ (lit "content", JArr [ JObj [ (lit "type", JStr (lit "text")) ] ]) ]) |}.

End More.

Import More.

(** ** [lib/utils.ts] *)

Module Utils.

(** An integer in a template literal. *)
Definition integer (n : Z) : jsstring :=
  if Z.ltb n 0 then lit "-" ++ decimal (Z.to_N (- n)) else decimal (Z.to_N n).

(** [formatTimeAgo(date)].  [now] and [then_] are the times in
    milliseconds of [new Date()] and [new Date(date)]; [then_] is [None]
    for an invalid date, whose time is NaN, so that every comparison
    below is false.  [toLocaleDateString] is the engine's, for the locale
    and time zone of the browser. *)
Definition formatTimeAgo (toLocaleDateString : option Z -> jsstring)
    (now : Z) (then_ : option Z) : jsstring :=
  match then_ with
  | None => toLocaleDateString None
  | Some t =>
      let diffInSeconds := ((now - t) / 1000)%Z in
      if Z.ltb diffInSeconds 60 then lit "just now"
      else
        let diffInMinutes := (diffInSeconds / 60)%Z in
        if Z.ltb diffInMinutes 60 then integer diffInMinutes ++ lit "m ago"
        else
          let diffInHours := (diffInMinutes / 60)%Z in
          if Z.ltb diffInHours 24 then integer diffInHours ++ lit "h ago"
          else
            let diffInDays := (diffInHours / 24)%Z in
            if Z.ltb diffInDays 7 then integer diffInDays ++ lit "d ago"
            else toLocaleDateString (Some t)
  end.

End Utils.

(** ** [lib/storage.ts]: summaries and settings in the key-value database

    The database ([idb-keyval]) is a map from keys to values; it is
    taken to work, so that its operations do not reject.  A stored value
    is of one of the four kinds the code writes. *)

Module Storage.

(** *** The records of [lib/types.ts] *)

Inductive Sentiment : Type := positive | negative | neutral | mixed.

Record SummaryResult : Type := {
  id : jsstring;
  url : jsstring;
  title : jsstring;
  summary : jsstring;
  sentiment : Sentiment;
  keyThemes : list jsstring;
  commentCount : Z;
  createdAt : jsstring;
  processingTime : Z
}.

(** [Omit<SummaryResult, 'id' | 'createdAt'>] *)
Record SummaryData : Type := {
  data_url : jsstring;
  data_title : jsstring;
  data_summary : jsstring;
  data_sentiment : Sentiment;
  data_keyThemes : list jsstring;
  data_commentCount : Z;
  data_processingTime : Z
}.

Record Stats : Type := {
  totalSummaries : Z;
  totalComments : Z;
  lastUpdated : jsstring;
  domains : list jsstring
}.

(** [ProviderSettings], with the optional validity cache: [apiKeyValid]
    is absent, [null] or a boolean. *)
Record ProviderSettings : Type := {
  apiKey : jsstring;
  model : jsstring;
  apiKeyValid : option (option bool);
  lastValidated : option jsstring
}.

Record Providers : Type := {
  of_anthropic : ProviderSettings;
  of_openai : ProviderSettings;
  of_google : ProviderSettings;
  of_xai : ProviderSettings
}.

(** A number with a fraction, as [m * 10^e]. *)
Definition Decimal : Type := (Z * Z)%type.

Record LLMSettings : Type := {
  currentProvider : option LLMProvider;
  providers : Providers;
  temperature : option Decimal;
  maxTokens : option Z
}.

Record SiteConfig : Type := {
  domain : jsstring;
  selectors : list jsstring;
  name : jsstring;
  enabled : bool
}.

Inductive SummaryLength : Type := brief | detailed.

Record AppSettings : Type := {
  llm : LLMSettings;
  autoSummarize : bool;
  summaryLength : SummaryLength;
  minComments : Z;
  enabledSites : list SiteConfig;
  customSelectors : list jsstring
}.

(** [Partial<LLMSettings>] and [Partial<AppSettings>]: [None] for a
    property that the update does not have. *)
Record LLMUpdates : Type := {
  new_currentProvider : option (option LLMProvider);
  new_providers : option Providers;
  new_temperature : option Decimal;
  new_maxTokens : option Z
}.

Record AppUpdates : Type := {
  new_llm : option LLMSettings;
  new_autoSummarize : option bool;
  new_summaryLength : option SummaryLength;
  new_minComments : option Z;
  new_enabledSites : option (list SiteConfig);
  new_customSelectors : option (list jsstring)
}.

Definition or_keep {A : Type} (update : option A) (current : A) : A :=
  match update with Some x => x | None => current end.

(** [{ ...currentSettings, ...updates }] *)
Definition merge_llm (current : LLMSettings) (updates : LLMUpdates) : LLMSettings := {|
  currentProvider := or_keep (new_currentProvider updates) (currentProvider current);
  providers := or_keep (new_providers updates) (providers current);
  temperature := match new_temperature updates with
                 | Some t => Some t
                 | None => temperature current
                 end;
  maxTokens := match new_maxTokens updates with
               | Some n => Some n
               | None => maxTokens current
               end |}.

Definition merge_app (current : AppSettings) (updates : AppUpdates) : AppSettings := {|
  llm := or_keep (new_llm updates) (llm current);
  autoSummarize := or_keep (new_autoSummarize updates) (autoSummarize current);
  summaryLength := or_keep (new_summaryLength updates) (summaryLength current);
  minComments := or_keep (new_minComments updates) (minComments current);
  enabledSites := or_keep (new_enabledSites updates) (enabledSites current);
  customSelectors := or_keep (new_customSelectors updates) (customSelectors current) |}.

(** *** The database *)

Inductive Stored : Type :=
  | VSummary (s : SummaryResult)
  | VStats (s : Stats)
  | VSettings (s : AppSettings)
  | VLLM (s : LLMSettings).

Definition Store : Type := list (jsstring * Stored).

(** [get(key)], [set(key, value)], [del(key)] *)
Fixpoint get (key : jsstring) (db : Store) : option Stored :=
  match db with
  | [] => None
  | (k, v) :: rest => if JsString.eqb key k then Some v else get key rest
  end.

Fixpoint set (key : jsstring) (value : Stored) (db : Store) : Store :=
  match db with
  | [] => [(key, value)]
  | (k, v) :: rest =>
      if JsString.eqb key k then (key, value) :: rest else (k, v) :: set key value rest
  end.

Fixpoint del (key : jsstring) (db : Store) : Store :=
  match db with
  | [] => []
  | (k, v) :: rest =>
      if JsString.eqb key k then del key rest else (k, v) :: del key rest
  end.

(** A stable sort: [insert] puts [x] before the first element that it
    does not come after, as [Array.prototype.sort] does with a
    comparator that is not positive there. *)
Section Sort.

Context {A : Type} (before_or_equal : A -> A -> bool).

Fixpoint insert (x : A) (l : list A) : list A :=
  match l with
  | [] => [x]
  | y :: l' => if before_or_equal x y then x :: y :: l' else y :: insert x l'
  end.

Fixpoint sort_by (l : list A) : list A :=
  match l with
  | [] => []
  | x :: l' => insert x (sort_by l')
  end.

End Sort.

(** The order of keys in the database: strings by their code units. *)
Fixpoint key_leb (a b : jsstring) : bool :=
  match a, b with
  | [], _ => true
  | _ :: _, [] => false
  | x :: a', y :: b' => N.ltb x y || (N.eqb x y && key_leb a' b')
  end.

(** [keys()]: the keys, in their order. *)
Definition keys (db : Store) : list jsstring := sort_by key_leb (map fst db).

(** [[...new Set(l)]]: the elements of [l], each once, in the order of
    their first occurrence. *)
Fixpoint distinct_from (seen l : list jsstring) : list jsstring :=
  match l with
  | [] => []
  | x :: l' =>
      if existsb (JsString.eqb x) seen then distinct_from seen l'
      else x :: distinct_from (x :: seen) l'
  end.

Definition distinct (l : list jsstring) : list jsstring := distinct_from [] l.

Definition SUMMARIES_PREFIX : jsstring := lit "summary:".
Definition SETTINGS_KEY : jsstring := lit "settings".
Definition LLM_SETTINGS_KEY : jsstring := lit "llm_settings".
Definition STATS_KEY : jsstring := lit "stats".

Definition default_providers : Providers := {|
  of_anthropic := {| apiKey := []; model := lit "claude-3-5-sonnet-20241022";
                     apiKeyValid := None; lastValidated := None |};
  of_openai := {| apiKey := []; model := lit "gpt-4o";
                  apiKeyValid := None; lastValidated := None |};
  of_google := {| apiKey := []; model := lit "gemini-2.5-flash";
                  apiKeyValid := None; lastValidated := None |};
  of_xai := {| apiKey := []; model := lit "grok-2-1212";
               apiKeyValid := None; lastValidated := None |} |}.

Definition default_settings : AppSettings := {|
  llm := {| currentProvider := Some anthropic;
            providers := default_providers;
            temperature := Some (7, -1)%Z;
            maxTokens := None |};
  autoSummarize := true;
  summaryLength := brief;
  minComments := 5;
  enabledSites := [];
  customSelectors := [] |}.

Definition default_llm_settings : LLMSettings := {|
  currentProvider := Some anthropic;
  providers := default_providers;
  temperature := Some (7, -1)%Z;
  maxTokens := Some 1000%Z |}.

Section WithEngine.

(** [new Date(s).getTime()] and [new URL(s).hostname] ([None] when the
    URL does not parse and [new URL] throws) are the engine's.  The times
    are those of the strings that [createSummary] writes with
    [toISOString], which all have one: a date without a time, for which
    the comparator of the sort is not a number, is outside the model. *)
Variable getTime : jsstring -> Z.
Variable hostname : jsstring -> option jsstring.

(** *** [SummaryStorage] *)

(** The comparator [(a, b) => time(b) - time(a)]: [a] stays before [b]
    when it is not older. *)
Definition newer_first (a b : SummaryResult) : bool :=
  Z.leb (getTime (createdAt b) - getTime (createdAt a)) 0.

(** [getAllSummaries()].  The values pushed are those under the summary
    keys; in a database that these operations keep ([well_kept] below)
    they are summaries. *)
Definition getAllSummaries (db : Store) : list SummaryResult :=
  let allKeys := keys db in
  let summaryKeys := filter (starts_with SUMMARIES_PREFIX) allKeys in
  let summaries :=
    flat_map (fun key => match get key db with
                         | Some (VSummary summary) => [summary]
                         | _ => []
                         end) summaryKeys in
  sort_by newer_first summaries.

Fixpoint hostnames (urls : list jsstring) : option (list jsstring) :=
  match urls with
  | [] => Some []
  | u :: rest =>
      match hostname u with
      | None => None
      | Some h => match hostnames rest with
                  | None => None
                  | Some hs => Some (h :: hs)
                  end
      end
  end.

(** [updateStats()]; [now] is [new Date().toISOString()].  When a URL
    does not parse, the [catch] leaves the database as it is.  The counts
    are added as integers: that is the sum of the engine's numbers as
    long as the counts are not negative and their sum is a safe integer
    ([safe_counts] below); beyond, the engine rounds. *)
Definition updateStats (now : jsstring) (db : Store) : Store :=
  let summaries := getAllSummaries db in
  match hostnames (map url summaries) with
  | Some hosts =>
      let stats := {|
        totalSummaries := Z.of_nat (List.length summaries);
        totalComments := fold_left (fun sum s => (sum + commentCount s)%Z) summaries 0%Z;
        lastUpdated := now;
        domains := distinct hosts |} in
      set STATS_KEY (VStats stats) db
  | None => db
  end.

(** [createSummary(summaryData)]; [uuid] is [crypto.randomUUID()],
    [now] the [new Date().toISOString()] of the call and [later] that of
    the statistics. *)
Definition createSummary (uuid now later : jsstring) (summaryData : SummaryData)
    (db : Store) : SummaryResult * Store :=
  let summary := {|
    id := uuid;
    createdAt := now;
    url := data_url summaryData;
    title := data_title summaryData;
    summary := data_summary summaryData;
    sentiment := data_sentiment summaryData;
    keyThemes := data_keyThemes summaryData;
    commentCount := data_commentCount summaryData;
    processingTime := data_processingTime summaryData |} in
  let db := set (SUMMARIES_PREFIX ++ uuid) (VSummary summary) db in
  let db := updateStats later db in
  (summary, db).

(** [getSummary(id)], [None] for [null] *)
Definition getSummary (id : jsstring) (db : Store) : option SummaryResult :=
  match get (SUMMARIES_PREFIX ++ id) db with
  | Some (VSummary summary) => Some summary
  | _ => None
  end.

Definition getSummaryByUrl (u : jsstring) (db : Store) : option SummaryResult :=
  let allSummaries := getAllSummaries db in
  find (fun summary => JsString.eqb (url summary) u) allSummaries.

Definition deleteSummary (id later : jsstring) (db : Store) : bool * Store :=
  let db := del (SUMMARIES_PREFIX ++ id) db in
  let db := updateStats later db in
  (true, db).

Definition getStats (now : jsstring) (db : Store) : Stats :=
  match get STATS_KEY db with
  | Some (VStats stats) => stats
  | _ => {| totalSummaries := 0; totalComments := 0; lastUpdated := now; domains := [] |}
  end.

(** *** [SettingsStorage] *)

Definition getSettings (db : Store) : AppSettings :=
  match get SETTINGS_KEY db with
  | Some (VSettings settings) => settings
  | _ => default_settings
  end.

Definition updateSettings (updates : AppUpdates) (db : Store) : AppSettings * Store :=
  let currentSettings := getSettings db in
  let newSettings := merge_app currentSettings updates in
  (newSettings, set SETTINGS_KEY (VSettings newSettings) db).

Definition getLLMSettings (db : Store) : LLMSettings :=
  match get LLM_SETTINGS_KEY db with
  | Some (VLLM settings) => settings
  | _ => default_llm_settings
  end.

Definition updateLLMSettings (updates : LLMUpdates) (db : Store) : LLMSettings * Store :=
  let currentSettings := getLLMSettings db in
  let newSettings := merge_llm currentSettings updates in
  let db := set LLM_SETTINGS_KEY (VLLM newSettings) db in
  let appSettings := getSettings db in
  let '(_, db) :=
    updateSettings {| new_llm := Some newSettings; new_autoSummarize := None;
                      new_summaryLength := None; new_minComments := None;
                      new_enabledSites := None; new_customSelectors := None |} db in
  (newSettings, db).

End WithEngine.

(** *** What the database holds *)

(** Each key holds the kind of value that is written under it, and a
    summary is under the key made of its own id. *)
Definition well_kept (db : Store) : Prop :=
  forall key value, get key db = Some value ->
    match value with
    | VSummary s => key = SUMMARIES_PREFIX ++ id s
    | VStats _ => key = STATS_KEY
    | VSettings _ => key = SETTINGS_KEY
    | VLLM _ => key = LLM_SETTINGS_KEY
    end.

(** The summaries in the database. *)
Definition stored (db : Store) (s : SummaryResult) : Prop :=
  exists i, getSummary i db = Some s.

(** The comments that a list of summaries counts. *)
Definition comments (l : list SummaryResult) : Z :=
  fold_right (fun s total => (commentCount s + total)%Z) 0%Z l.

(** [Number.MAX_SAFE_INTEGER] *)
Definition MAX_SAFE_INTEGER : Z := 2 ^ 53 - 1.

(** The counts are integers that are not negative, and their sum is a
    safe integer: then so is the sum of any of them, and the numbers add
    up without rounding. *)
Definition safe_counts (l : list SummaryResult) : Prop :=
  Forall (fun s => (0 <= commentCount s)%Z) l /\ (comments l <= MAX_SAFE_INTEGER)%Z.

(** [a] is not older than [b]. *)
Definition not_older (getTime : jsstring -> Z) (a b : SummaryResult) : Prop :=
  (getTime (createdAt b) <= getTime (createdAt a))%Z.

(** The summaries of the database before they are sorted, key by key in
    the order of the list. *)
Definition unsorted (db : Store) : list SummaryResult :=
  flat_map (fun key => match get key db with
                       | Some (VSummary summary) => [summary]
                       | _ => []
                       end)
           (filter (starts_with SUMMARIES_PREFIX) (map fst db)).

(** The summaries under the keys of a list, key by key. *)
Definition summaries_at (db : Store) (l : list jsstring) : list SummaryResult :=
  flat_map (fun key => match get key db with
                       | Some (VSummary summary) => [summary]
                       | _ => []
                       end) l.

End Storage.

(** ** A sample engine and database for the storage *)

Module StorageExamples.

(** The digits of an ISO time read as one number: it orders the times
    [YYYY-MM-DDTHH:mm:ss.sssZ] as their milliseconds do. *)
Definition digits_time (s : jsstring) : Z :=
  fold_left (fun total c => if JsonText.is_digit c
                            then (10 * total + Z.of_N (c - 48))%Z else total) s 0%Z.

(** The host of [scheme://host/path]; no host without [://]. *)
Fixpoint after_scheme (s : jsstring) : option jsstring :=
  match s with
  | 58%N :: 47%N :: 47%N :: rest => Some rest
  | _ :: s' => after_scheme s'
  | [] => None
  end.

Fixpoint until_slash (s : jsstring) : jsstring :=
  match s with
  | [] => []
  | c :: s' => if N.eqb c 47 then [] else c :: until_slash s'
  end.

Definition host_of (u : jsstring) : option jsstring :=
  match after_scheme u with
  | Some rest => Some (until_slash rest)
  | None => None
  end.

Definition news : Storage.SummaryData := {|
  Storage.data_url := lit "https://example.org/news";
  Storage.data_title := lit "News";
  Storage.data_summary := lit "A release note.";
  Storage.data_sentiment := Storage.positive;
  Storage.data_keyThemes := [lit "release"];
  Storage.data_commentCount := 8;
  Storage.data_processingTime := 850 |}.

Definition blog : Storage.SummaryData := {|
  Storage.data_url := lit "https://blog.example.org/post/1";
  Storage.data_title := lit "A post";
  Storage.data_summary := lit "A post about proofs.";
  Storage.data_sentiment := Storage.neutral;
  Storage.data_keyThemes := [];
  Storage.data_commentCount := 120;
  Storage.data_processingTime := 400 |}.

Definition local_file : Storage.SummaryData := {|
  Storage.data_url := lit "not a url";
  Storage.data_title := lit "Untitled";
  Storage.data_summary := lit "Nothing.";
  Storage.data_sentiment := Storage.neutral;
  Storage.data_keyThemes := [];
  Storage.data_commentCount := 3;
  Storage.data_processingTime := 10 |}.

(** A database with the news summary, made on the first of May. *)
Definition one_summary : Storage.Store :=
  snd (Storage.createSummary digits_time host_of (lit "id-1")
         (lit "2024-05-01T12:00:00.000Z") (lit "2024-05-01T12:00:00.100Z") news []).

(** The same, with the blog summary made a day later. *)
Definition two_summaries : Storage.Store :=
  snd (Storage.createSummary digits_time host_of (lit "id-2")
         (lit "2024-05-02T09:30:00.000Z") (lit "2024-05-02T09:30:00.100Z") blog
         one_summary).

End StorageExamples.

(** ** [lib/store.ts]: the state of the application beside the database

    The store holds a copy of what the database has: the list of
    summaries, the statistics and the settings.  Its actions are run one
    at a time, each to its end; [set] replaces the properties it is given
    and [get()] reads the state at that point. *)

Module AppStore.

Record AppState : Type := {
  summaries : list Storage.SummaryResult;
  currentSummary : option Storage.SummaryResult;
  isLoading : bool;
  isGenerating : bool;
  apiKeyValid : option bool;
  isValidating : bool;
  settings : Storage.AppSettings;
  stats : Storage.Stats
}.

(** [set({ summaries })], [set({ isLoading })], [set({ settings })],
    [set({ stats })] *)
Definition set_summaries (value : list Storage.SummaryResult) (st : AppState) : AppState := {|
  summaries := value;
  currentSummary := currentSummary st;
  isLoading := isLoading st;
  isGenerating := isGenerating st;
  apiKeyValid := apiKeyValid st;
  isValidating := isValidating st;
  settings := settings st;
  stats := stats st |}.

Definition set_isLoading (value : bool) (st : AppState) : AppState := {|
  summaries := summaries st;
  currentSummary := currentSummary st;
  isLoading := value;
  isGenerating := isGenerating st;
  apiKeyValid := apiKeyValid st;
  isValidating := isValidating st;
  settings := settings st;
  stats := stats st |}.

Definition set_settings (value : Storage.AppSettings) (st : AppState) : AppState := {|
  summaries := summaries st;
  currentSummary := currentSummary st;
  isLoading := isLoading st;
  isGenerating := isGenerating st;
  apiKeyValid := apiKeyValid st;
  isValidating := isValidating st;
  settings := value;
  stats := stats st |}.

Definition set_stats (value : Storage.Stats) (st : AppState) : AppState := {|
  summaries := summaries st;
  currentSummary := currentSummary st;
  isLoading := isLoading st;
  isGenerating := isGenerating st;
  apiKeyValid := apiKeyValid st;
  isValidating := isValidating st;
  settings := settings st;
  stats := value |}.

(** The state the store is created with; [today] is the
    [new Date().toISOString()] of that moment. *)
Definition initial (today : jsstring) : AppState := {|
  summaries := [];
  currentSummary := None;
  isLoading := false;
  isGenerating := false;
  apiKeyValid := None;
  isValidating := false;
  settings := {|
    Storage.llm := Storage.default_llm_settings;
    Storage.autoSummarize := true;
    Storage.summaryLength := Storage.brief;
    Storage.minComments := 5;
    Storage.enabledSites := [];
    Storage.customSelectors := [] |};
  stats := {| Storage.totalSummaries := 0; Storage.totalComments := 0;
              Storage.lastUpdated := today; Storage.domains := [] |} |}.

Section WithEngine.

Variable getTime : jsstring -> Z.
Variable hostname : jsstring -> option jsstring.

(** [loadStats()]; [today] is the time [getStats] takes for statistics
    that were never written. *)
Definition loadStats (today : jsstring) (st : AppState) (db : Storage.Store) : AppState :=
  let stats := Storage.getStats today db in
  set_stats stats st.

Definition loadSummaries (st : AppState) (db : Storage.Store) : AppState :=
  let st := set_isLoading true st in
  let summaries := Storage.getAllSummaries getTime db in
  set_isLoading false (set_summaries summaries st).

(** [addSummary(summaryData)]: the new summary is put at the head of the
    list that the state has. *)
Definition addSummary (uuid now later today : jsstring) (summaryData : Storage.SummaryData)
    (st : AppState) (db : Storage.Store)
    : option Storage.SummaryResult * AppState * Storage.Store :=
  let '(newSummary, db) :=
    Storage.createSummary getTime hostname uuid now later summaryData db in
  let currentSummaries := summaries st in
  let st := set_summaries (newSummary :: currentSummaries) st in
  let st := loadStats today st db in
  (Some newSummary, st, db).

(** [deleteSummary(id)]: the summaries of that id are taken out of the
    list that the state has. *)
Definition deleteSummary (id later today : jsstring) (st : AppState) (db : Storage.Store)
    : AppState * Storage.Store :=
  let '(_, db) := Storage.deleteSummary getTime hostname id later db in
  let currentSummaries := summaries st in
  let st :=
    set_summaries
      (filter (fun summary => negb (JsString.eqb (Storage.id summary) id)) currentSummaries)
      st in
  let st := loadStats today st db in
  (st, db).

Definition getSummaryByUrl (url : jsstring) (db : Storage.Store)
    : option Storage.SummaryResult :=
  Storage.getSummaryByUrl getTime url db.

End WithEngine.

Definition loadSettings (st : AppState) (db : Storage.Store) : AppState :=
  let settings := Storage.getSettings db in
  set_settings settings st.

Definition updateSettings (updates : Storage.AppUpdates) (st : AppState) (db : Storage.Store)
    : AppState * Storage.Store :=
  let '(newSettings, db) := Storage.updateSettings updates db in
  (set_settings newSettings st, db).

(** [updateLLMSettings(updates)]:
    [set({ settings: { ...currentSettings, llm: newLLMSettings } })] *)
Definition updateLLMSettings (updates : Storage.LLMUpdates) (st : AppState)
    (db : Storage.Store) : AppState * Storage.Store :=
  let '(newLLMSettings, db) := Storage.updateLLMSettings updates db in
  let currentSettings := settings st in
  (set_settings
     {| Storage.llm := newLLMSettings;
        Storage.autoSummarize := Storage.autoSummarize currentSettings;
        Storage.summaryLength := Storage.summaryLength currentSettings;
        Storage.minComments := Storage.minComments currentSettings;
        Storage.enabledSites := Storage.enabledSites currentSettings;
        Storage.customSelectors := Storage.customSelectors currentSettings |} st,
   db).

(** The state shows what the database has: the list is the one that
    [loadSummaries] would load, and the settings those that
    [loadSettings] would. *)
Definition current (getTime : jsstring -> Z) (st : AppState) (db : Storage.Store) : Prop :=
  summaries st = Storage.getAllSummaries getTime db
  /\ settings st = Storage.getSettings db.

(** The id is not in use, and the clock is past the time of every
    stored summary. *)
Definition fresh (getTime : jsstring -> Z) (uuid now : jsstring) (db : Storage.Store) : Prop :=
  Storage.get (Storage.SUMMARIES_PREFIX ++ uuid) db = None
  /\ forall x, Storage.stored db x ->
       (getTime (Storage.createdAt x) < getTime now)%Z.

End AppStore.

(** ** The handler on any stored value

    [chrome.storage] gives back what was stored under [llmSettings]: the
    settings of [lib/types.ts], which [Background.handleSummarizePage]
    reads, or any other value, such as the settings of an earlier
    version of the extension, which have no [providers].  Here the
    handler is read on any value.  The value is given beside the
    environment (whose [stored_llmSettings] is not read), and so is the
    dispatcher that the handler calls. *)

Module AnyValue.

(** [v?.k] *)
Definition optional_get (v : JsValue) (k : jsstring) : Result JsValue :=
  match v with
  | JUndefined | JNull => Ok JUndefined
  | _ => get v k
  end.

Section WithEnv.

Variable env : Env.

(** [result.llmSettings]; [undefined] when nothing is stored. *)
Variable llmSettings : JsValue.

(** [generateSummaryViaFetch] *)
Variable dispatcher : jsstring -> jsstring -> JsValue -> M JsValue.

(** [handleSummarizePage].  The entry is read at the key that
    [settings.currentProvider] converts to.  Where the engine finds an
    inherited property at that key ([length], [constructor]) it finds a
    number, a function or a prototype, in which [apiKey] is [undefined]
    as it is in [undefined] itself: the handler goes the same way. *)
Definition handleSummarizePage (request : Message) : M unit :=
  try_catchM
    (pageContent <- getPageContent env (msg_tabId request) ;;
     (* !pageContent *)
     if negb match pageContent with
             | Some content => truthy (JStr content)
             | None => false
             end
     then sendResponse (Failure (lit "Could not extract page content"))
     else
       let pageContent := match pageContent with Some content => content | None => [] end in
       emit (StorageGet (lit "llmSettings")) ;;
       (* !result.llmSettings *)
       if negb (truthy llmSettings)
       then sendResponse (Failure (lit "LLM settings not configured"))
       else
         let settings := llmSettings in
         (* settings.providers[settings.currentProvider] *)
         providers_ <- lift (get settings (lit "providers")) ;;
         name <- lift (get settings (lit "currentProvider")) ;;
         entry <- lift (get providers_ (ToString name)) ;;
         (* !currentProvider?.apiKey *)
         key <- lift (optional_get entry (lit "apiKey")) ;;
         if negb (truthy key)
         then sendResponse (Failure (lit "API key not configured"))
         else
           summaryResult <- dispatcher pageContent (msg_title request) settings ;;
           let processingTime := (endTime env - startTime env)%Z in
           summary_ <- lift (get summaryResult (lit "summary")) ;;
           sentiment_ <- lift (get summaryResult (lit "sentiment")) ;;
           keyThemes_ <- lift (get summaryResult (lit "keyThemes")) ;;
           wordCount_ <- lift (get summaryResult (lit "wordCount")) ;;
           sendResponse (Success {|
             id := randomUUID env;
             url := msg_url request;
             title := msg_title request;
             summary := summary_;
             sentiment := or_else sentiment_ (JStr (lit "neutral"));
             keyThemes := or_else keyThemes_ (JArr []);
             commentCount := or_else wordCount_ (JInt 0);
             createdAt := isoNow env;
             processingTime := processingTime |}))
    (fun error => sendResponse (Failure (message error))).

Definition run (request : Message) : list Event := snd (handleSummarizePage request []).

End WithEnv.

(** The value that holds settings of the [LLMSettings] shape, as the
    settings page stores them. *)
Definition provider_name (p : option LLMProvider) : jsstring :=
  match p with
  | Some anthropic => lit "anthropic"
  | Some openai => lit "openai"
  | Some google => lit "google"
  | Some xai => lit "xai"
  | None => []
  end.

Definition entry_value (entry : ProviderSettings) : JsValue :=
  JObj [ (lit "apiKey", JStr (apiKey entry)); (lit "model", JStr (model entry)) ].

Definition settings_value (settings : LLMSettings) : JsValue :=
  JObj [ (lit "currentProvider", JStr (provider_name (currentProvider settings)));
         (lit "providers",
          JObj [ (lit "anthropic", entry_value (of_anthropic (providers settings)));
                 (lit "openai", entry_value (of_openai (providers settings)));
                 (lit "google", entry_value (of_google (providers settings)));
                 (lit "xai", entry_value (of_xai (providers settings))) ]) ].

(** What storage gives for the environment's typed settings. *)
Definition stored_value (env : Env) : JsValue :=
  match stored_llmSettings env with
  | Some settings => settings_value settings
  | None => JUndefined
  end.

(** The dispatcher of the background script, which reads the settings
    of the [LLMSettings] shape. *)
Definition typed_dispatcher (env : Env) (content title : jsstring) (_ : JsValue)
  : M JsValue :=
  match stored_llmSettings env with
  | Some settings => generateSummaryViaFetch env content title settings
  | None => throw (Error (lit "Unsupported provider"))
  end.

(** *** The stored values in which no API key is found *)

(** Nothing is stored, or a value that counts as nothing. *)
Definition nothing_stored (v : JsValue) : Prop := truthy v = false.

Definition absent (v : JsValue) : Prop := v = JUndefined \/ v = JNull.

(** A value is stored and has no [providers]. *)
Definition without_providers (v : JsValue) : Prop :=
  truthy v = true
  /\ exists ps, get v (lit "providers") = Ok ps /\ absent ps.

(** A value is stored and has [providers], in which the current
    provider has no entry, or an entry with no key. *)
Definition without_key (v : JsValue) : Prop :=
  truthy v = true
  /\ exists ps name entry key,
       get v (lit "providers") = Ok ps /\ ~ absent ps
       /\ get v (lit "currentProvider") = Ok name
       /\ get ps (ToString name) = Ok entry
       /\ optional_get entry (lit "apiKey") = Ok key
       /\ truthy key = false.

Definition key_missing (v : JsValue) : Prop :=
  nothing_stored v \/ without_providers v \/ without_key v.

(** A key is found for the current provider. *)
Definition with_key (v : JsValue) : Prop :=
  truthy v = true
  /\ exists ps name entry key,
       get v (lit "providers") = Ok ps
       /\ get v (lit "currentProvider") = Ok name
       /\ get ps (ToString name) = Ok entry
       /\ optional_get entry (lit "apiKey") = Ok key
       /\ truthy key = true.


(** Settings with an empty list of providers. *)
Definition empty_providers : JsValue :=
  JObj [ (lit "currentProvider", JStr (lit "anthropic")); (lit "providers", JObj []) ].

End AnyValue.

(** ** Proof steps *)

(** Runs the handler's monad down to the environment's answers. *)
Ltac run_handler :=
  cbv beta iota zeta delta
    [run handleSummarizePage getPageContent try_catchM bindM emit lift throw ret
     sendResponse snd fst negb truthy].

(** The hypotheses of the pipeline theorems at the sample browsers. *)
Ltac sample_extracted page :=
  exists page; split; [reflexivity | split; [vm_compute; reflexivity | discriminate]].

Ltac sample_configured :=
  split; [reflexivity | split; [reflexivity |
    eexists; split; [reflexivity | discriminate]]].

Ltac sample_replies :=
  let fetched := fresh "fetched" in
  intros fetched; eexists _, _; repeat split.

(** * Properties *)

(** ** Strings *)

Example split_examples :
  split_spaces (lit "a  b") = [lit "a"; lit "b"] /\
  split_spaces (lit " a") = [[]; lit "a"] /\
  split_spaces (lit "a ") = [lit "a"; []] /\
  split_spaces (lit " ") = [[]; []] /\
  split_spaces [] = [[]] /\
  decimal 404 = lit "404" /\ decimal 0 = lit "0" /\ decimal 1000 = lit "1000" /\
  trim (lit "  a b  ") = lit "a b" /\
  replace_spaces (lit "a 	  b  c ") = lit "a b c ".
Proof. repeat split; reflexivity. Qed.

Section StringFacts.

Lemma eqb_eq (a b : jsstring) : JsString.eqb a b = true <-> a = b.
Proof.
  revert b; induction a as [|x a IH]; intros [|y b]; simpl; split;
    try congruence; try reflexivity.
  - intros H. apply andb_prop in H as [Hx Hr].
    apply N.eqb_eq in Hx. apply IH in Hr. congruence.
  - intros H. injection H as -> ->. rewrite N.eqb_refl. simpl. now apply IH.
Qed.

Lemma eqb_refl (a : jsstring) : JsString.eqb a a = true.
Proof. now apply eqb_eq. Qed.

Lemma eqb_neq (a b : jsstring) : JsString.eqb a b = false <-> a <> b.
Proof.
  split.
  - intros H E. apply eqb_eq in E. congruence.
  - intros H. destruct (JsString.eqb a b) eqn:E; [|reflexivity].
    apply eqb_eq in E. contradiction.
Qed.

Lemma split_from_cons (b : bool) (s : jsstring) :
  exists w ws, split_from b s = w :: ws.
Proof.
  revert b; induction s as [|c s IH]; intros b; simpl.
  - now eexists _, _.
  - destruct (is_space c).
    + destruct b; [apply IH | now eexists _, _].
    + destruct (IH false) as (w & ws & ->). now eexists _, _.
Qed.

Lemma split_each_cons (s : jsstring) : exists w ws, split_each s = w :: ws.
Proof.
  induction s as [|c s (w & ws & IH)]; simpl.
  - now eexists _, _.
  - destruct (is_space c); [now eexists _, _|]. rewrite IH. now eexists _, _.
Qed.

(** The first piece is the run of non-space characters at the head. *)
Lemma split_from_head (s : jsstring) :
  hd [] (split_from false s) = hd [] (split_each s).
Proof.
  induction s as [|c s IH]; simpl; [reflexivity|].
  destruct (is_space c); [reflexivity|].
  destruct (split_from_cons false s) as (w & ws & E).
  destruct (split_each_cons s) as (w' & ws' & E').
  rewrite E, E' in *. simpl in *. now subst.
Qed.

(** Dropping the empty pieces of [split(/\s+/)] leaves the words. *)
Lemma words_of_split (b : bool) (s : jsstring) :
  filter nonempty (split_from b s) = words s.
Proof.
  unfold words. revert b; induction s as [|c s IH]; intros b; simpl; [reflexivity|].
  destruct (is_space c).
  - destruct b; simpl; apply IH.
  - specialize (IH false). pose proof (split_from_head s) as Hh.
    destruct (split_from_cons false s) as (w & ws & E).
    destruct (split_each_cons s) as (w' & ws' & E').
    rewrite E, E' in *. simpl in *. subst w'.
    destruct w; simpl in IH; [now rewrite IH|]. now injection IH as ->.
Qed.

Lemma split_from_space_free (b : bool) (s : jsstring) :
  Forall space_free (split_from b s).
Proof.
  revert b; induction s as [|c s IH]; intros b; simpl.
  - repeat constructor.
  - destruct (is_space c) eqn:Hc.
    + destruct b; [apply IH|]. constructor; [constructor | apply IH].
    + specialize (IH false).
      destruct (split_from_cons false s) as (w & ws & E). rewrite E in *.
      inversion IH; subst. constructor; [constructor|]; assumption.
Qed.

Lemma firstn_Forall {A : Type} (P : A -> Prop) (n : nat) (l : list A) :
  Forall P l -> Forall P (firstn n l).
Proof.
  intros H. revert n; induction H; intros [|n]; simpl; constructor; auto.
Qed.

Lemma split_each_space_free (w : jsstring) : space_free w -> split_each w = [w].
Proof.
  induction 1 as [|c w Hc _ IH]; simpl; [reflexivity|]. now rewrite Hc, IH.
Qed.

Lemma split_each_app_space (w rest : jsstring) (c : char) :
  space_free w -> is_space c = true ->
  split_each (w ++ c :: rest) = w :: split_each rest.
Proof.
  intros Hw Hc. induction Hw as [|x w Hx _ IH]; simpl.
  - now rewrite Hc.
  - now rewrite Hx, IH.
Qed.

Lemma is_space_SP : is_space SP = true.
Proof. reflexivity. Qed.

(** Joining space-free pieces with one space and splitting again gives
    the pieces back. *)
Lemma split_each_join (ws : list jsstring) :
  ws <> [] -> Forall space_free ws -> split_each (join (lit " ") ws) = ws.
Proof.
  intros Hne H. induction H as [|w ws Hw Hws IH]; [contradiction|].
  destruct ws as [|w' ws'].
  - simpl. now apply split_each_space_free.
  - change (join (lit " ") (w :: w' :: ws'))
      with (w ++ SP :: join (lit " ") (w' :: ws')).
    rewrite split_each_app_space by (auto using is_space_SP).
    f_equal. apply IH. discriminate.
Qed.

Lemma words_join (ws : list jsstring) :
  Forall space_free ws -> words (join (lit " ") ws) = filter nonempty ws.
Proof.
  intros H. destruct ws as [|w ws]; [reflexivity|].
  unfold words. rewrite split_each_join; [reflexivity | discriminate | assumption].
Qed.

Lemma filter_length_le {A : Type} (f : A -> bool) (l : list A) :
  List.length (filter f l) <= List.length l.
Proof.
  induction l as [|x l IH]; simpl; [lia|]. destruct (f x); simpl; lia.
Qed.

Lemma words_nonempty (s : jsstring) : Forall (fun w => nonempty w = true) (words s).
Proof.
  unfold words. apply Forall_forall. intros w Hw. now apply filter_In in Hw.
Qed.

Lemma filter_all {A : Type} (f : A -> bool) (l : list A) :
  Forall (fun x => f x = true) l -> filter f l = l.
Proof.
  induction 1 as [|x l Hx _ IH]; simpl; [reflexivity|]. now rewrite Hx, IH.
Qed.

Lemma filter_none {A : Type} (f : A -> bool) (l : list A) :
  Forall (fun x => f x = false) l -> filter f l = [].
Proof.
  induction 1 as [|x l Hx _ IH]; simpl; [reflexivity|]. now rewrite Hx.
Qed.

Lemma settled_cons (c : char) (w : jsstring) (ws : list jsstring) :
  settled ws -> settled ((c :: w) :: ws).
Proof.
  intros (full & extra & -> & Hf & He).
  exists ((c :: w) :: full), extra. repeat split; auto.
Qed.

Lemma split_from_settled (s : jsstring) :
  settled (split_from true s) /\ settled (tl (split_from false s)).
Proof.
  induction s as [|c s [IH1 IH2]]; simpl.
  - split; [exists [], [[]] | exists [], []]; repeat split; repeat constructor.
  - destruct (is_space c); [now split|].
    destruct (split_from_cons false s) as (w & ws & E). rewrite E in *.
    simpl in *. split; [now apply settled_cons | assumption].
Qed.

Lemma settled_words (l : list jsstring) (n : nat) :
  settled l -> filter nonempty (firstn n l) = firstn n (filter nonempty l).
Proof.
  intros (full & extra & -> & Hf & He).
  rewrite firstn_app, !filter_app.
  rewrite (filter_none nonempty (firstn_Forall _ He)), (filter_none nonempty He).
  rewrite !app_nil_r.
  now rewrite (filter_all nonempty (firstn_Forall _ Hf)), (filter_all nonempty Hf).
Qed.

(** The words among the first [n] pieces of [split(/\s+/)]: the first
    [n] words, or one fewer when the string starts with white space
    (its first piece is empty). *)
Lemma words_of_slice (n : nat) (s : jsstring) :
  filter nonempty (slice0 n (split_spaces s))
  = firstn (if starts_with_space s then n - 1 else n) (words s).
Proof.
  unfold slice0, split_spaces.
  destruct s as [|c s]; [destruct n as [|[|n]]; reflexivity|].
  destruct (split_from_settled (c :: s)) as [_ H2].
  rewrite <- (words_of_split false (c :: s)).
  simpl in *. destruct (is_space c) eqn:Hc.
  - simpl in H2. destruct n; simpl; [reflexivity|].
    rewrite Nat.sub_0_r. now apply settled_words.
  - destruct (split_from_cons false s) as (w & ws & E). rewrite E in *. simpl in H2.
    apply settled_words. now apply settled_cons.
Qed.

Lemma ends_with_space_cons (c : char) (s : jsstring) :
  s <> [] -> ends_with_space (c :: s) = ends_with_space s.
Proof.
  unfold ends_with_space. simpl. intros H.
  destruct (rev s) eqn:E; [|reflexivity].
  apply (f_equal (@rev _)) in E. rewrite rev_involutive in E. contradiction.
Qed.

Lemma split_from_all_nonempty (s : jsstring) :
  s <> [] -> ends_with_space s = false ->
  Forall (fun w => nonempty w = true) (split_from true s)
  /\ Forall (fun w => nonempty w = true) (tl (split_from false s)).
Proof.
  induction s as [|c s IH]; [contradiction|]. intros _ He.
  destruct s as [|c' s'].
  - unfold ends_with_space in He. simpl in *. rewrite He. repeat constructor.
  - rewrite ends_with_space_cons in He by discriminate.
    destruct (IH ltac:(discriminate) He) as [IH1 IH2].
    change (split_from true (c :: c' :: s'))
      with (if is_space c then split_from true (c' :: s')
            else match split_from false (c' :: s') with
                 | w :: ws => (c :: w) :: ws | [] => [[c]] end).
    change (split_from false (c :: c' :: s'))
      with (if is_space c then [] :: split_from true (c' :: s')
            else match split_from false (c' :: s') with
                 | w :: ws => (c :: w) :: ws | [] => [[c]] end).
    destruct (is_space c); [now split|].
    destruct (split_from_cons false (c' :: s')) as (w & ws & E). rewrite E in *.
    simpl in *. split; [constructor|]; auto.
Qed.

(** A string with no white space at either end splits into its words. *)
Lemma split_trimmed (s : jsstring) :
  s <> [] -> starts_with_space s = false -> ends_with_space s = false ->
  split_spaces s = words s.
Proof.
  intros Hne Hs He. rewrite <- (words_of_split false s). symmetry.
  apply filter_all. unfold split_spaces.
  destruct (split_from_all_nonempty Hne He) as [_ H2].
  destruct s as [|c s]; [contradiction|]. simpl in *. rewrite Hs in *.
  destruct (split_from_cons false s) as (w & ws & E). rewrite E in *.
  constructor; auto.
Qed.

Lemma trimStart_suffix (s : jsstring) : exists z, s = z ++ trimStart s.
Proof.
  induction s as [|c s [z IH]]; simpl; [now exists []|].
  destruct (is_space c); [|now exists []].
  exists (c :: z). simpl. now f_equal.
Qed.

Lemma trimStart_starts (s : jsstring) : starts_with_space (trimStart s) = false.
Proof.
  induction s as [|c s IH]; simpl; [reflexivity|].
  destruct (is_space c) eqn:Hc; [assumption | simpl; assumption].
Qed.

Lemma trimEnd_prefix (s : jsstring) : exists z, s = trimEnd s ++ z.
Proof.
  unfold trimEnd, rev'. rewrite <- !rev_alt.
  destruct (trimStart_suffix (rev s)) as [z Hz].
  exists (rev z). rewrite <- rev_app_distr, <- Hz. now rewrite rev_involutive.
Qed.

Lemma trimEnd_ends (s : jsstring) : ends_with_space (trimEnd s) = false.
Proof.
  unfold ends_with_space, trimEnd, rev'. rewrite <- !rev_alt, rev_involutive.
  apply trimStart_starts.
Qed.

Lemma trimEnd_starts (s : jsstring) :
  starts_with_space s = false -> starts_with_space (trimEnd s) = false.
Proof.
  intros H. destruct (trimEnd_prefix s) as [z Hz].
  destruct (trimEnd s) as [|c t]; [reflexivity|].
  rewrite Hz in H. exact H.
Qed.

Lemma trim_starts (s : jsstring) : starts_with_space (trim s) = false.
Proof. apply trimEnd_starts, trimStart_starts. Qed.

Lemma trim_ends (s : jsstring) : ends_with_space (trim s) = false.
Proof. apply trimEnd_ends. Qed.

Lemma starts_with_app (t rest : jsstring) : starts_with t (t ++ rest) = true.
Proof. induction t as [|c t IH]; simpl; [reflexivity|]. now rewrite N.eqb_refl. Qed.

Lemma includes_here (s t : jsstring) : starts_with t s = true -> includes s t = true.
Proof. intros H. destruct s; simpl; now rewrite H. Qed.

Lemma includes_app_left (a s t : jsstring) :
  includes s t = true -> includes (a ++ s) t = true.
Proof.
  intros H. induction a as [|c a IH]; [assumption|].
  simpl. rewrite IH. apply orb_true_r.
Qed.

Lemma includes_middle (a t b : jsstring) : includes (a ++ t ++ b) t = true.
Proof. apply includes_app_left, includes_here, starts_with_app. Qed.

Lemma replace_spaces_no_LF (b : bool) (s : jsstring) :
  Forall (fun c => N.eqb c LF = false) (replace_spaces_from b s).
Proof.
  revert b; induction s as [|c s IH]; intros b; simpl; [constructor|].
  destruct (is_space c) eqn:Hc.
  - destruct b; [apply IH | constructor; [reflexivity | apply IH]].
  - constructor; [|apply IH].
    destruct (N.eqb_spec c LF) as [-> | _]; [discriminate Hc | reflexivity].
Qed.

Lemma limit_newlines_same (run : nat) (s : jsstring) :
  Forall (fun c => N.eqb c LF = false) s -> limit_newlines_from run s = s.
Proof.
  intros H. revert run; induction H as [|c s Hc _ IH]; intros run; simpl;
    [reflexivity|]. now rewrite Hc, IH.
Qed.

(** Once the white space is collapsed no line feed is left, so the
    second replacement of the clean-up changes nothing. *)
Lemma clean_eq (bestContent : jsstring) :
  clean bestContent = trim (replace_spaces bestContent).
Proof.
  unfold clean, limit_newlines. now rewrite limit_newlines_same by apply replace_spaces_no_LF.
Qed.

Lemma includes_end (a t : jsstring) : includes (a ++ t) t = true.
Proof. pose proof (includes_middle a t []) as H. now rewrite app_nil_r in H. Qed.

End StringFacts.

(** ** The content extractor *)

Section ExtractorFacts.

Context {E : Type} (document : DomApi E).

(** The outer [catch] is never entered: the loop absorbs what throws. *)
Lemma extractPageContent_eq :
  extractPageContent document = Ok (clean (scan document contentSources [])).
Proof. reflexivity. Qed.

Lemma scan_step (selector : Selector) (rest : list Selector) (best : jsstring) :
  scan document (selector :: rest) best =
  match found_text document selector with
  | Some t =>
      if Nat.ltb 500 (List.length (longer best t)) then longer best t
      else scan document rest (longer best t)
  | None => scan document rest best
  end.
Proof.
  unfold found_text, longer. simpl. unfold try_selector.
  destruct (querySelector document selector) as [[element|]|]; simpl; try reflexivity.
  destruct (cloneNode document element) as [clone|]; simpl; try reflexivity.
  destruct (removeAll document noiseSelector clone) as [clone'|]; simpl; try reflexivity.
  destruct (textContent document clone') as [[t|]|]; reflexivity.
Qed.

Lemma scan_no_text (sources : list Selector) :
  (forall selector, In selector sources ->
     found_text document selector = None \/ found_text document selector = Some []) ->
  scan document sources [] = [].
Proof.
  induction sources as [|selector rest IH]; intros H; [reflexivity|].
  rewrite scan_step.
  destruct (H selector (or_introl eq_refl)) as [-> | ->]; simpl;
    apply IH; intros; apply H; now right.
Qed.



End ExtractorFacts.

Section TreeFacts.

Lemma remove_matching_element sel tag attrs children :
  Tree.remove_matching sel (Tree.Element tag attrs children)
  = Tree.Element tag attrs (Tree.remove_among sel children).
Proof.
  simpl. f_equal. induction children as [|c l IH]; simpl; [reflexivity|].
  now rewrite IH.
Qed.

Lemma text_of_element tag attrs children :
  Tree.text_of (Tree.Element tag attrs children) = Tree.text_among children.
Proof.
  simpl. induction children as [|c l IH]; simpl; [reflexivity|]. now rewrite IH.
Qed.

Lemma found_text_tree (root : Tree.Node) (selector : Selector) :
  found_text (Tree.api root) selector
  = option_map stripped_text (Tree.find_first selector root).
Proof.
  unfold found_text. simpl. now destruct (Tree.find_first selector root).
Qed.


Lemma blank_app (a b : jsstring) : blank a -> blank b -> blank (a ++ b).
Proof. intros Ha Hb. apply Forall_app. now split. Qed.

Lemma trim_blank (s : jsstring) : blank s -> trim s = [].
Proof.
  intros H. unfold trim. replace (trimStart s) with (@nil char); [reflexivity|].
  induction H as [|c s Hc _ IH]; simpl; [reflexivity|]. now rewrite Hc.
Qed.

Lemma noise_nav attrs children :
  Tree.matches noiseSelector (Tree.Element (lit "nav") attrs children) = true.
Proof. reflexivity. Qed.

Lemma noise_footer attrs children :
  Tree.matches noiseSelector (Tree.Element (lit "footer") attrs children) = true.
Proof. reflexivity. Qed.

(** Navigation and footers are noise: nothing of them is left in the
    text of the body. *)
Lemma nav_footer_blank (children : list Tree.Node) :
  Forall nav_or_footer children ->
  blank (Tree.text_among (Tree.remove_among noiseSelector children)).
Proof.
  induction 1 as [|c l Hc _ IH]; [constructor|].
  destruct c as [data | data | tag attrs kids].
  - change (blank (data ++ Tree.text_among (Tree.remove_among noiseSelector l))).
    now apply blank_app.
  - exact IH.
  - destruct Hc as [-> | ->].
    + change (Tree.remove_among noiseSelector (Tree.Element (lit "nav") attrs kids :: l))
        with (if Tree.matches noiseSelector (Tree.Element (lit "nav") attrs kids)
              then Tree.remove_among noiseSelector l
              else Tree.remove_matching noiseSelector (Tree.Element (lit "nav") attrs kids)
                   :: Tree.remove_among noiseSelector l).
      now rewrite noise_nav.
    + change (Tree.remove_among noiseSelector (Tree.Element (lit "footer") attrs kids :: l))
        with (if Tree.matches noiseSelector (Tree.Element (lit "footer") attrs kids)
              then Tree.remove_among noiseSelector l
              else Tree.remove_matching noiseSelector (Tree.Element (lit "footer") attrs kids)
                   :: Tree.remove_among noiseSelector l).
      now rewrite noise_footer.
Qed.

Lemma scan_skip {E : Type} (document : DomApi E) (skipped rest : list Selector)
      (best : jsstring) :
  Forall (fun selector => found_text document selector = None) skipped ->
  scan document (skipped ++ rest) best = scan document rest best.
Proof.
  induction 1 as [|selector l Hs _ IH]; [reflexivity|].
  simpl app. rewrite scan_step, Hs. exact IH.
Qed.

End TreeFacts.

(** C6. The content extractor never raises an error: whatever the
    document's operations do, throwing included, it returns a string; and
    when no selector yields any text (each finds nothing, throws, or
    gives only white space) it returns the empty string. *)
Theorem extractPageContent_never_throws :
  (forall (E : Type) (document : DomApi E),
     exists content, extractPageContent document = Ok content)
  /\ (forall (E : Type) (document : DomApi E),
        (forall selector, In selector contentSources ->
           found_text document selector = None
           \/ found_text document selector = Some []) ->
        extractPageContent document = Ok []).
Proof.
  split.
  - intros E document. eexists. apply extractPageContent_eq.
  - intros E document H. rewrite extractPageContent_eq.
    now rewrite (scan_no_text document contentSources H).
Qed.


(** C9. A document with no main content: the extractor falls back to
    the body, and returns whatever text the body has once the noise is
    stripped, cleaned.  When the body holds only navigation and a footer
    that text is empty, so that the result is shorter than the
    500-character threshold. *)
Theorem extractPageContent_nav_footer_only
    (root : Tree.Node) (attrs : list (jsstring * jsstring)) (children : list Tree.Node) :
  no_main_content root ->
  Tree.find_first [SelTag (lit "body")] root
    = Some (Tree.Element (lit "body") attrs children) ->
  exists content,
    extractPageContent (Tree.api root) = Ok content
    /\ content = clean (stripped_text (Tree.Element (lit "body") attrs children))
    /\ (Forall nav_or_footer children -> content = [] /\ List.length content < 500).
Proof.
  intros Hmain Hbody.
  exists (clean (stripped_text (Tree.Element (lit "body") attrs children))).
  split; [|split; [reflexivity|]].
  - rewrite extractPageContent_eq.
    change contentSources with (mainSelectors ++ [[SelTag (lit "body")]]).
    rewrite scan_skip.
    + rewrite scan_step, found_text_tree, Hbody. simpl option_map. cbv beta iota.
      replace (longer [] (stripped_text (Tree.Element (lit "body") attrs children)))
        with (stripped_text (Tree.Element (lit "body") attrs children)).
      * match goal with |- context [if ?b then _ else _] => now destruct b end.
      * unfold longer.
        now destruct (stripped_text (Tree.Element (lit "body") attrs children)).
    + eapply Forall_impl; [|exact Hmain]. intros selector H.
      now rewrite found_text_tree, H.
  - intros Hkids.
    assert (Hstrip : stripped_text (Tree.Element (lit "body") attrs children) = []).
    { unfold stripped_text. rewrite remove_matching_element, text_of_element.
      now apply trim_blank, nav_footer_blank. }
    rewrite Hstrip. split; [reflexivity | simpl; lia].
Qed.

(** ** The dispatcher and the handler *)

Section BackgroundFacts.

Variable env : Env.

Lemma lookup_obj_set_same k v props : lookup k (obj_set k v props) = Some v.
Proof.
  induction props as [|[k' v'] rest IH]; simpl.
  - now rewrite eqb_refl.
  - destruct (JsString.eqb k k') eqn:Ek; simpl; rewrite ?eqb_refl, ?Ek; auto.
Qed.

Lemma lookup_obj_set_other k k' v props :
  k <> k' -> lookup k (obj_set k' v props) = lookup k props.
Proof.
  intros Hne. induction props as [|[k0 v0] rest IH]; simpl.
  - apply eqb_neq in Hne. now rewrite Hne.
  - destruct (JsString.eqb k' k0) eqn:Ek; simpl.
    + apply eqb_eq in Ek. subst k0. apply eqb_neq in Hne. now rewrite Hne.
    + now rewrite IH.
Qed.

(** The dispatcher issues one request and makes its result of the
    outcome. *)
Lemma generateSummaryViaFetch_eq content title settings p :
  currentProvider settings = Some p ->
  exists request,
    get_path (req_body request) (prompt_path p)
      = Ok (JStr (build_prompt title
                    (join (lit " ") (slice0 3000 (split_spaces content)))))
    /\ forall trace,
         generateSummaryViaFetch env content title settings trace
         = (dispatch_outcome env p
              (JInt (Z.of_nat (List.length (split_spaces content))))
              (fetch_outcome env request),
            trace ++ [Fetch request]).
Proof.
  intros Hp. unfold generateSummaryViaFetch. rewrite Hp.
  destruct p; cbv beta iota zeta;
    match goal with |- context [fetch env ?r] => exists r end;
    (split; [reflexivity|]); intros trace;
    cbv beta iota zeta delta
      [try_catchM bindM fetch emit lift throw ret dispatch_outcome bind negb response_path];
    match goal with |- context [fetch_outcome env ?r] =>
      destruct (fetch_outcome env r) as [resp|e] end;
    try reflexivity;
    destruct (ok resp); try reflexivity;
    destruct (json resp) as [data|e]; try reflexivity;
    match goal with |- context [get_path data ?path] =>
      destruct (get_path data path) end; reflexivity.
Qed.

Lemma extracted_page_text request content :
  extracted env request content <-> page_text env request = Some content /\ content <> [].
Proof.
  unfold extracted, page_text. split.
  - intros (root & -> & -> & Hne). destruct content; [contradiction | now split].
  - intros [H Hne]. destruct (tab_document env (msg_tabId request)) as [root|];
      [|discriminate].
    exists root. destruct (extractPageContent (Tree.api root)) as [[|c s]|];
      try discriminate. injection H as <-. repeat split. discriminate.
Qed.

(** No page content: the handler reports it and reads no settings. *)
Lemma run_not_extracted request :
  page_text env request = None ->
  run env request
  = [ExecuteScript (msg_tabId request);
     SendResponse (Failure (lit "Could not extract page content"))].
Proof.
  unfold page_text. intros H. run_handler.
  destruct (tab_document env (msg_tabId request)) as [root|]; [|reflexivity].
  destruct (extractPageContent (Tree.api root)) as [[|c s]|];
    try discriminate; reflexivity.
Qed.

Lemma run_no_settings request content :
  page_text env request = Some content ->
  stored_llmSettings env = None ->
  run env request
  = [ExecuteScript (msg_tabId request); StorageGet (lit "llmSettings");
     SendResponse (Failure (lit "LLM settings not configured"))].
Proof.
  unfold page_text. intros H Hs. run_handler.
  destruct (tab_document env (msg_tabId request)) as [root|]; [|discriminate].
  destruct (extractPageContent (Tree.api root)) as [[|c s]|];
    try discriminate. cbv beta iota. rewrite Hs. reflexivity.
Qed.

Lemma run_no_key request content settings :
  page_text env request = Some content ->
  stored_llmSettings env = Some settings ->
  match provider_entry settings with
  | None => True
  | Some entry => apiKey entry = []
  end ->
  run env request
  = [ExecuteScript (msg_tabId request); StorageGet (lit "llmSettings");
     SendResponse (Failure (lit "API key not configured"))].
Proof.
  unfold page_text. intros H Hs Hk. run_handler.
  destruct (tab_document env (msg_tabId request)) as [root|]; [|discriminate].
  destruct (extractPageContent (Tree.api root)) as [[|c s]|];
    try discriminate. cbv beta iota. rewrite Hs.
  destruct (provider_entry settings) as [entry|]; [rewrite Hk|]; reflexivity.
Qed.

Lemma get_object props k :
  get (JObj props) (lit k) = Ok (field (JObj props) k).
Proof. reflexivity. Qed.

Lemma parse_model_text_object text wordCount :
  exists props, parse_model_text env text wordCount = JObj props.
Proof.
  unfold parse_model_text. destruct (JSON_parse env (ToString text)); now eexists.
Qed.

(** The success path: one script injection, one read of the settings,
    one request, and the summary object made of the dispatcher's
    result. *)
Lemma run_success request content settings p text :
  extracted env request content ->
  configured env settings p ->
  provider_replies env p text ->
  let result :=
    parse_model_text env text (JInt (Z.of_nat (List.length (split_spaces content)))) in
  exists fetched,
    run env request
    = [ExecuteScript (msg_tabId request); StorageGet (lit "llmSettings");
       Fetch fetched;
       SendResponse (Success {|
         id := randomUUID env;
         url := msg_url request;
         title := msg_title request;
         summary := field result "summary";
         sentiment := or_else (field result "sentiment") (JStr (lit "neutral"));
         keyThemes := or_else (field result "keyThemes") (JArr []);
         commentCount := or_else (field result "wordCount") (JInt 0);
         createdAt := isoNow env;
         processingTime := (endTime env - startTime env)%Z |})].
Proof.
  intros (root & Hroot & Hextract & Hne) (Hs & Hp & entry & Hentry & Hkey) Hreply result.
  destruct (generateSummaryViaFetch_eq content (msg_title request) settings Hp)
    as (fetched & _ & Hgen).
  exists fetched. run_handler. rewrite Hroot, Hextract.
  destruct content as [|c content]; [contradiction|]. cbv beta iota.
  rewrite Hs, Hentry. destruct (apiKey entry) as [|k key]; [contradiction|].
  cbv beta iota. rewrite Hgen.
  destruct (Hreply fetched) as (response & data & -> & Hok & Hjson & Hpath).
  unfold dispatch_outcome, bind. rewrite Hok, Hjson, Hpath. fold result.
  destruct (parse_model_text_object text
              (JInt (Z.of_nat (List.length (split_spaces (c :: content))))))
    as [props Hprops].
  subst result. rewrite Hprops, !get_object. reflexivity.
Qed.

Lemma field_of_parsed text wordCount parsed k :
  JSON_parse env (ToString text) = Some parsed ->
  lit k <> lit "wordCount" ->
  field (parse_model_text env text wordCount) k = field parsed k.
Proof.
  intros Hparse Hk. unfold field, parse_model_text. rewrite Hparse.
  simpl spread at 1. now rewrite lookup_obj_set_other.
Qed.

Lemma field_wordCount text wordCount :
  field (parse_model_text env text wordCount) "wordCount" = wordCount.
Proof.
  unfold field, parse_model_text.
  destruct (JSON_parse env (ToString text)); [|reflexivity].
  simpl spread at 1. now rewrite lookup_obj_set_same.
Qed.

Lemma field_of_unparsed text wordCount :
  JSON_parse env (ToString text) = None ->
  parse_model_text env text wordCount
  = JObj [ (lit "summary", text); (lit "sentiment", JStr (lit "neutral"));
           (lit "keyThemes", JArr []); (lit "wordCount", wordCount) ].
Proof. intros H. unfold parse_model_text. now rewrite H. Qed.

Lemma split_count_truthy content :
  or_else (JInt (Z.of_nat (List.length (split_spaces content)))) (JInt 0)
  = JInt (Z.of_nat (List.length (split_spaces content))).
Proof.
  unfold split_spaces. destruct (split_from_cons false content) as (w & ws & ->).
  reflexivity.
Qed.

(** What the extractor returns has no white space at either end, so
    [split(/\s+/)] gives exactly its words. *)
Lemma extracted_content_trimmed {E : Type} (document : DomApi E) content :
  extractPageContent document = Ok content ->
  starts_with_space content = false /\ ends_with_space content = false.
Proof.
  rewrite extractPageContent_eq. intros H. injection H as <-.
  unfold clean. split; [apply trim_starts | apply trim_ends].
Qed.

Lemma extracted_split_words request content :
  extracted env request content -> split_spaces content = words content.
Proof.
  intros (root & _ & Hx & Hne).
  destruct (extracted_content_trimmed Hx). now apply split_trimmed.
Qed.

End BackgroundFacts.


Lemma three_fields_not_wordCount :
  lit "summary" <> lit "wordCount"
  /\ lit "sentiment" <> lit "wordCount"
  /\ lit "keyThemes" <> lit "wordCount".
Proof. repeat split; discriminate. Qed.

(** ** The response normaliser *)

(** C5. When the model's text does not parse as JSON, the normaliser
    wraps it: the summary is the raw text, the sentiment is "neutral" and
    the theme list is empty, in the normaliser's result and in the
    summary object sent back. *)
Theorem unparsed_text_is_wrapped
    (env : Env) (request : Message) (content : jsstring)
    (settings : LLMSettings) (p : LLMProvider) (s : jsstring) :
  extracted env request content ->
  configured env settings p ->
  provider_replies env p (JStr s) ->
  JSON_parse env s = None ->
  (forall wordCount,
     parse_model_text env (JStr s) wordCount
     = JObj [ (lit "summary", JStr s); (lit "sentiment", JStr (lit "neutral"));
              (lit "keyThemes", JArr []); (lit "wordCount", wordCount) ])
  /\ exists fetched so,
       run env request
       = [ExecuteScript (msg_tabId request); StorageGet (lit "llmSettings");
          Fetch fetched; SendResponse (Success so)]
       /\ summary so = JStr s
       /\ sentiment so = JStr (lit "neutral")
       /\ keyThemes so = JArr [].
Proof.
  intros Hx Hc Hr Hparse. split.
  - intros wordCount. now apply field_of_unparsed.
  - destruct (run_success Hx Hc Hr) as (fetched & Hrun).
    eexists fetched, _. split; [exact Hrun|].
    rewrite (field_of_unparsed env (JStr s) _ Hparse). repeat split.
Qed.

(** C8. When the model's text parses as JSON, the parsed value is merged
    in without validation, whatever it is and whichever fields it has:
    the reply is a summary object whose summary is the parsed [summary]
    ([undefined] when missing), whose sentiment is the parsed one when
    truthy and "neutral" when missing or falsy, and whose themes are the
    parsed ones when truthy and the empty list when missing or falsy. *)
Theorem parsed_fields_are_merged_unvalidated
    (env : Env) (request : Message) (content : jsstring)
    (settings : LLMSettings) (p : LLMProvider) (s : jsstring) (parsed : JsValue) :
  extracted env request content ->
  configured env settings p ->
  provider_replies env p (JStr s) ->
  JSON_parse env s = Some parsed ->
  exists fetched so,
    run env request
    = [ExecuteScript (msg_tabId request); StorageGet (lit "llmSettings");
       Fetch fetched; SendResponse (Success so)]
    /\ summary so = field parsed "summary"
    /\ sentiment so = (if truthy (field parsed "sentiment")
                       then field parsed "sentiment" else JStr (lit "neutral"))
    /\ keyThemes so = (if truthy (field parsed "keyThemes")
                       then field parsed "keyThemes" else JArr [])
    /\ (lookup (lit "sentiment") (spread parsed) = None ->
        sentiment so = JStr (lit "neutral"))
    /\ (lookup (lit "keyThemes") (spread parsed) = None -> keyThemes so = JArr []).
Proof.
  intros Hx Hc Hr Hparse.
  destruct (run_success Hx Hc Hr) as (fetched & Hrun).
  destruct three_fields_not_wordCount as (H1 & H2 & H3).
  eexists fetched, _. split; [exact Hrun|]. cbn [summary sentiment keyThemes].
  rewrite !(field_of_parsed env (JStr s) _ _ Hparse) by assumption.
  repeat split; unfold or_else, field; intros ->; reflexivity.
Qed.

(** C1, as amended.  When the model's text is JSON with the three
    fields, the normaliser's result holds the three values unmodified;
    the summary object holds the summary unmodified, and the sentiment
    and the themes unmodified when they are truthy: a falsy sentiment is
    replaced by "neutral" and falsy themes by the empty list. *)
Theorem parsed_fields_kept_when_truthy
    (env : Env) (request : Message) (content : jsstring)
    (settings : LLMSettings) (p : LLMProvider) (s : jsstring)
    (parsed vs vt vk : JsValue) :
  extracted env request content ->
  configured env settings p ->
  provider_replies env p (JStr s) ->
  JSON_parse env s = Some parsed ->
  lookup (lit "summary") (spread parsed) = Some vs ->
  lookup (lit "sentiment") (spread parsed) = Some vt ->
  lookup (lit "keyThemes") (spread parsed) = Some vk ->
  (forall wordCount,
     let result := parse_model_text env (JStr s) wordCount in
     field result "summary" = vs /\ field result "sentiment" = vt
     /\ field result "keyThemes" = vk)
  /\ exists fetched so,
       run env request
       = [ExecuteScript (msg_tabId request); StorageGet (lit "llmSettings");
          Fetch fetched; SendResponse (Success so)]
       /\ summary so = vs
       /\ sentiment so = (if truthy vt then vt else JStr (lit "neutral"))
       /\ keyThemes so = (if truthy vk then vk else JArr []).
Proof.
  intros Hx Hc Hr Hparse Hs Ht Hk.
  destruct three_fields_not_wordCount as (H1 & H2 & H3).
  assert (Hfields : field parsed "summary" = vs /\ field parsed "sentiment" = vt
                    /\ field parsed "keyThemes" = vk)
    by (unfold field; now rewrite Hs, Ht, Hk).
  destruct Hfields as (Fs & Ft & Fk). split.
  - intros wordCount result. subst result.
    now rewrite !(field_of_parsed env (JStr s) _ _ Hparse) by assumption.
  - destruct (run_success Hx Hc Hr) as (fetched & Hrun).
    eexists fetched, _. split; [exact Hrun|]. cbn [summary sentiment keyThemes].
    rewrite !(field_of_parsed env (JStr s) _ _ Hparse) by assumption.
    rewrite Fs, Ft, Fk. repeat split.
Qed.

(** C10. The word count in the summary object ([commentCount]) is the
    number of whitespace-separated words of the whole extracted content,
    whatever the model answers; it is not capped by the truncation of the
    prompt, and a page of 3001 words is reported with 3001. *)
Theorem commentCount_counts_all_words :
  (forall (env : Env) (request : Message) (content : jsstring)
          (settings : LLMSettings) (p : LLMProvider) (text : JsValue),
     extracted env request content ->
     configured env settings p ->
     provider_replies env p text ->
     exists fetched so,
       run env request
       = [ExecuteScript (msg_tabId request); StorageGet (lit "llmSettings");
          Fetch fetched; SendResponse (Success so)]
       /\ commentCount so = JInt (Z.of_nat (List.length (words content))))
  /\ (exists env request,
        option_map commentCount (summary_sent (run env request)) = Some (JInt 3001)).
Proof.
  split.
  - intros env request content settings p text Hx Hc Hr.
    destruct (run_success Hx Hc Hr) as (fetched & Hrun).
    eexists fetched, _. split; [exact Hrun|]. cbn [commentCount].
    rewrite field_wordCount, split_count_truthy.
    now rewrite (extracted_split_words Hx).
  - exists Examples.wordy_browser, Examples.request.
    vm_compute. reflexivity.
Qed.

(** ** The prompt builder *)

(** C2. The prompt sent to the provider is the fixed template around
    the title and the truncated content, and the truncated content is
    made of the first 3000 whitespace-separated words of the extracted
    content: the prompt never embeds more than 3000 words of it. *)
Theorem prompt_embeds_first_3000_words
    (env : Env) (E : Type) (document : DomApi E) (content title : jsstring)
    (settings : LLMSettings) (p : LLMProvider) :
  extractPageContent document = Ok content ->
  currentProvider settings = Some p ->
  exists request truncatedContent,
    snd (generateSummaryViaFetch env content title settings []) = [Fetch request]
    /\ get_path (req_body request) (prompt_path p)
       = Ok (JStr (prompt_before_title ++ title ++ prompt_before_content
                   ++ truncatedContent ++ prompt_after_content))
    /\ words truncatedContent = firstn 3000 (words content)
    /\ List.length (words truncatedContent) <= 3000.
Proof.
  intros Hx Hp.
  destruct (generateSummaryViaFetch_eq env content title settings Hp)
    as (request & Hprompt & Hgen).
  exists request, (join (lit " ") (slice0 3000 (split_spaces content))).
  assert (Hw : words (join (lit " ") (slice0 3000 (split_spaces content)))
               = firstn 3000 (words content)).
  { rewrite words_join
      by (apply firstn_Forall, (split_from_space_free false content)).
    rewrite words_of_slice.
    destruct (extracted_content_trimmed Hx) as [-> _]. reflexivity. }
  repeat split.
  - now rewrite Hgen.
  - exact Hprompt.
  - exact Hw.
  - rewrite Hw. apply firstn_le_length.
Qed.

(** For any content at all, extracted or not, the words of the truncated
    content are the first 3000 words, or the first 2999 when the content
    starts with white space. *)
Lemma truncated_words_any_content (content : jsstring) :
  let truncatedContent := join (lit " ") (slice0 3000 (split_spaces content)) in
  words truncatedContent
  = firstn (if starts_with_space content then 2999 else 3000) (words content)
  /\ List.length (words truncatedContent) <= 3000.
Proof.
  intros truncatedContent. subst truncatedContent.
  rewrite words_join by (apply firstn_Forall, (split_from_space_free false content)).
  rewrite words_of_slice. split; [reflexivity|].
  etransitivity; [apply firstn_le_length|].
  destruct (starts_with_space content); lia.
Qed.

(** ** Errors *)

Lemma status_4xx_5xx_not_ok (response : Response) :
  (400 <= status response <= 599)%N -> ok response = false.
Proof.
  intros [H _]. unfold ok. apply andb_false_intro2. apply N.leb_gt. lia.
Qed.

(** C4. When the provider answers with a non-success status (any
    outside 200..299, as 4xx and 5xx are), the dispatcher throws an error
    whose message holds the status code in decimal and the status text,
    after a single request: 'Anthropic API error: 404 Not Found'. *)
Theorem dispatcher_reports_http_status
    (env : Env) (content title : jsstring) (settings : LLMSettings) (p : LLMProvider) :
  currentProvider settings = Some p ->
  (forall request, exists response,
     fetch_outcome env request = Ok response /\ ok response = false) ->
  exists request response error,
    fetch_outcome env request = Ok response
    /\ generateSummaryViaFetch env content title settings []
       = (Throw (Error error), [Fetch request])
    /\ error = lit (error_label p) ++ lit " API error: "
               ++ decimal (status response) ++ lit " " ++ statusText response
    /\ includes error (decimal (status response)) = true
    /\ includes error (statusText response) = true.
Proof.
  intros Hp Hfail.
  destruct (generateSummaryViaFetch_eq env content title settings Hp)
    as (request & _ & Hgen).
  destruct (Hfail request) as (response & Hfetch & Hok).
  exists request, response. eexists. split; [exact Hfetch|].
  rewrite Hgen, Hfetch. unfold dispatch_outcome, bind, api_error. rewrite Hok.
  repeat split.
  - rewrite (app_assoc (lit (error_label p))). apply includes_middle.
  - rewrite (app_assoc (lit (error_label p))), (app_assoc _ (decimal _)), app_assoc.
    apply includes_end.
Qed.

(** The handler passes the dispatcher's error on as its reply. *)
Lemma handler_reports_http_status
    (env : Env) (request : Message) (content : jsstring)
    (settings : LLMSettings) (p : LLMProvider) :
  extracted env request content ->
  configured env settings p ->
  (forall fetched, exists response,
     fetch_outcome env fetched = Ok response /\ ok response = false) ->
  exists fetched response,
    fetch_outcome env fetched = Ok response
    /\ run env request
       = [ExecuteScript (msg_tabId request); StorageGet (lit "llmSettings");
          Fetch fetched;
          SendResponse (Failure (lit (error_label p) ++ lit " API error: "
                                 ++ decimal (status response) ++ lit " "
                                 ++ statusText response))].
Proof.
  intros (root & Hroot & Hextract & Hne) (Hs & Hp & entry & Hentry & Hkey) Hfail.
  destruct (generateSummaryViaFetch_eq env content (msg_title request) settings Hp)
    as (fetched & _ & Hgen).
  destruct (Hfail fetched) as (response & Hfetch & Hok).
  exists fetched, response. split; [assumption|].
  run_handler. rewrite Hroot, Hextract.
  destruct content as [|c content]; [contradiction|]. cbv beta iota.
  rewrite Hs, Hentry. destruct (apiKey entry) as [|k key]; [contradiction|].
  cbv beta iota. rewrite Hgen, Hfetch.
  unfold dispatch_outcome, bind, api_error. rewrite Hok. reflexivity.
Qed.

(** *** The handler on any stored value *)

Section AnyValueRuns.

Variable env : Env.
Variable llmSettings : JsValue.
Variable dispatcher : jsstring -> jsstring -> JsValue -> M JsValue.

Ltac run_any :=
  cbv beta iota zeta delta
    [AnyValue.run AnyValue.handleSummarizePage getPageContent try_catchM bindM emit lift
     throw ret sendResponse snd fst].

Lemma get_truthy (v : JsValue) (k : jsstring) :
  truthy v = true -> exists x, get v k = Ok x.
Proof. destruct v; try discriminate; intros _; eexists; reflexivity. Qed.


(** With content, the run goes on from the read of the settings. *)
Lemma any_run_extracted request content :
  page_text env request = Some content ->
  AnyValue.run env llmSettings dispatcher request
  = snd (try_catchM
           (if negb (truthy llmSettings)
            then sendResponse (Failure (lit "LLM settings not configured"))
            else
              providers_ <- lift (get llmSettings (lit "providers")) ;;
              name <- lift (get llmSettings (lit "currentProvider")) ;;
              entry <- lift (get providers_ (ToString name)) ;;
              key <- lift (AnyValue.optional_get entry (lit "apiKey")) ;;
              if negb (truthy key)
              then sendResponse (Failure (lit "API key not configured"))
              else
                summaryResult <- dispatcher content (msg_title request) llmSettings ;;
                summary_ <- lift (get summaryResult (lit "summary")) ;;
                sentiment_ <- lift (get summaryResult (lit "sentiment")) ;;
                keyThemes_ <- lift (get summaryResult (lit "keyThemes")) ;;
                wordCount_ <- lift (get summaryResult (lit "wordCount")) ;;
                sendResponse (Success {|
                  id := randomUUID env;
                  url := msg_url request;
                  title := msg_title request;
                  summary := summary_;
                  sentiment := or_else sentiment_ (JStr (lit "neutral"));
                  keyThemes := or_else keyThemes_ (JArr []);
                  commentCount := or_else wordCount_ (JInt 0);
                  createdAt := isoNow env;
                  processingTime := (endTime env - startTime env)%Z |}))
           (fun error => sendResponse (Failure (message error)))
           [ExecuteScript (msg_tabId request); StorageGet (lit "llmSettings")]).
Proof.
  unfold page_text. intros H. run_any.
  destruct (tab_document env (msg_tabId request)) as [root|]; [|discriminate].
  destruct (extractPageContent (Tree.api root)) as [[|c s]|]; try discriminate.
  injection H as <-. reflexivity.
Qed.




(** With a key the handler goes on to the dispatcher. *)
Lemma any_run_with_key request content :
  page_text env request = Some content ->
  AnyValue.with_key llmSettings ->
  AnyValue.run env llmSettings dispatcher request
  = snd (try_catchM
           (summaryResult <- dispatcher content (msg_title request) llmSettings ;;
            summary_ <- lift (get summaryResult (lit "summary")) ;;
            sentiment_ <- lift (get summaryResult (lit "sentiment")) ;;
            keyThemes_ <- lift (get summaryResult (lit "keyThemes")) ;;
            wordCount_ <- lift (get summaryResult (lit "wordCount")) ;;
            sendResponse (Success {|
              id := randomUUID env;
              url := msg_url request;
              title := msg_title request;
              summary := summary_;
              sentiment := or_else sentiment_ (JStr (lit "neutral"));
              keyThemes := or_else keyThemes_ (JArr []);
              commentCount := or_else wordCount_ (JInt 0);
              createdAt := isoNow env;
              processingTime := (endTime env - startTime env)%Z |}))
           (fun error => sendResponse (Failure (message error)))
           [ExecuteScript (msg_tabId request); StorageGet (lit "llmSettings")]).
Proof.
  intros Hpage (Hv & ps & name & entry & key & Hps & Hname & Hentry & Hkey & Htruthy).
  rewrite (any_run_extracted request Hpage), Hv.
  cbv beta iota zeta delta [try_catchM bindM lift negb snd].
  now rewrite Hps, Hname, Hentry, Hkey, Htruthy.
Qed.

End AnyValueRuns.

(** Every value is of one of the kinds: nothing stored, no providers,
    no key, or a key. *)
Lemma stored_value_cases (v : JsValue) : AnyValue.key_missing v \/ AnyValue.with_key v.
Proof.
  destruct (truthy v) eqn:Hv; [|now left; left].
  destruct (get_truthy v (lit "providers") Hv) as [ps Hps].
  destruct (get_truthy v (lit "currentProvider") Hv) as [name Hname].
  assert (Habsent : AnyValue.absent ps \/ ~ AnyValue.absent ps).
  { destruct ps; try (right; intros [H | H]; discriminate); left; [now left | now right]. }
  destruct Habsent as [Habsent | Hthere].
  { left. right. left. split; [assumption|]. now exists ps. }
  assert (Hentry : exists entry, get ps (ToString name) = Ok entry).
  { destruct ps; try (eexists; reflexivity); exfalso; apply Hthere;
      [now left | now right]. }
  destruct Hentry as [entry Hentry].
  assert (Hkey : exists key, AnyValue.optional_get entry (lit "apiKey") = Ok key)
    by (destruct entry; eexists; reflexivity).
  destruct Hkey as [key Hkey].
  destruct (truthy key) eqn:Hk.
  - right. split; [assumption|]. now exists ps, name, entry, key.
  - left. right. right. split; [assumption|]. now exists ps, name, entry, key.
Qed.

(** On settings of the [LLMSettings] shape the handler is the one of
    the background script. *)
Lemma typed_run_is_any_value_run (env : Env) (request : Message) :
  AnyValue.run env (AnyValue.stored_value env) (AnyValue.typed_dispatcher env) request
  = run env request.
Proof.
  unfold AnyValue.stored_value, AnyValue.typed_dispatcher.
  cbv beta iota zeta delta
    [AnyValue.run AnyValue.handleSummarizePage run handleSummarizePage getPageContent
     try_catchM bindM emit lift throw ret sendResponse snd fst].
  destruct (tab_document env (msg_tabId request)) as [root|]; [|reflexivity].
  destruct (extractPageContent (Tree.api root)) as [[|c s]|]; try reflexivity.
  cbv beta iota zeta delta [truthy negb].
  destruct (stored_llmSettings env) as [settings|]; [|reflexivity].
  unfold provider_entry, AnyValue.settings_value, AnyValue.entry_value.
  destruct (currentProvider settings) as [[| | |]|]; cbn;
    match goal with
    | |- context [apiKey ?e] => destruct (apiKey e); reflexivity
    | _ => reflexivity
    end.
Qed.

(** On settings of the [LLMSettings] shape, no key is found exactly
    when no provider is chosen or the key of the chosen one is empty. *)
Lemma typed_key_missing (env : Env) :
  AnyValue.key_missing (AnyValue.stored_value env) <-> api_key_missing env.
Proof.
  unfold AnyValue.stored_value, api_key_missing, provider_entry.
  destruct (stored_llmSettings env) as [settings|]; [|split; [easy | now left]].
  unfold AnyValue.settings_value, AnyValue.entry_value. split.
  - intros [Hnone | [(_ & ps & Hps & Habsent) | (_ & ps & name & entry & key & H)]].
    + discriminate.
    + cbn in Hps. injection Hps as <-. destruct Habsent; discriminate.
    + destruct H as (Hps & _ & Hname & Hentry & Hkey & Hfalsy).
      cbn in Hps, Hname. injection Hps as <-. injection Hname as <-.
      destruct (currentProvider settings) as [[| | |]|]; [| | | |exact I];
        cbn in Hentry; injection Hentry as <-; cbn in Hkey; injection Hkey as <-;
        cbn in Hfalsy;
        match goal with |- apiKey ?e = [] => now destruct (apiKey e) end.
  - intros Hkey. right. right. split; [reflexivity|].
    destruct (currentProvider settings) as [[| | |]|];
      eexists _, _, _, _; (split; [reflexivity|]); (split; [intros [H | H]; discriminate|]);
      (split; [reflexivity|]); (split; [reflexivity|]); (split; [reflexivity|]);
      cbn; rewrite ?Hkey; reflexivity.
Qed.


(** ** The claims that fail as they are stated *)

(** C1, as stated, fails: the model answers
    [{"summary": "A release note.", "sentiment": "", "keyThemes": ["release"]}],
    and the summary object has the sentiment "neutral", not the empty
    string of the answer. *)
Lemma summary_keeps_all_fields_fails : ~ summary_keeps_all_fields.
Proof.
  intros H.
  edestruct (H Examples.empty_sentiment_browser Examples.request Examples.article_text Examples.settings anthropic
               Examples.empty_sentiment_reply)
    as (so & Hsent & _ & Hsentiment & _).
  - exists Examples.article_page.
    split; [reflexivity | split; [vm_compute; reflexivity | discriminate]].
  - repeat split. eexists. split; [reflexivity | discriminate].
  - intros fetched. eexists _, _. repeat split.
  - vm_compute. reflexivity.
  - vm_compute. reflexivity.
  - vm_compute. reflexivity.
  - vm_compute. reflexivity.
  - vm_compute in Hsent. injection Hsent as <-. discriminate Hsentiment.
Qed.


(** ** The theorems at the sample pages *)

Lemma unparsed_text_is_wrapped_witness :
  JSON_parse Examples.plain_browser Examples.plain_reply = None
  /\ exists fetched so,
       run Examples.plain_browser Examples.request
       = [ExecuteScript 7; StorageGet (lit "llmSettings"); Fetch fetched;
          SendResponse (Success so)]
       /\ summary so = JStr (lit "The page announces a release.")
       /\ sentiment so = JStr (lit "neutral")
       /\ keyThemes so = JArr [].
Proof.
  split; [vm_compute; reflexivity|].
  apply (@unparsed_text_is_wrapped Examples.plain_browser Examples.request
           Examples.article_text Examples.settings anthropic Examples.plain_reply).
  - sample_extracted Examples.article_page.
  - sample_configured.
  - sample_replies.
  - vm_compute. reflexivity.
Defined.

Lemma parsed_fields_are_merged_unvalidated_witness :
  JSON_parse Examples.partial_browser Examples.partial_reply
  = Some (JObj [ (lit "summary", JStr (lit "A release note."));
                 (lit "keyThemes", JNull) ])
  /\ exists fetched so,
       run Examples.partial_browser Examples.request
       = [ExecuteScript 7; StorageGet (lit "llmSettings"); Fetch fetched;
          SendResponse (Success so)]
       /\ summary so = JStr (lit "A release note.")
       /\ sentiment so = JStr (lit "neutral")
       /\ keyThemes so = JArr [].
Proof.
  split; [vm_compute; reflexivity|].
  destruct (@parsed_fields_are_merged_unvalidated Examples.partial_browser
              Examples.request Examples.article_text Examples.settings anthropic
              Examples.partial_reply
              (JObj [ (lit "summary", JStr (lit "A release note."));
                      (lit "keyThemes", JNull) ]))
    as (fetched & so & Hrun & Hs & Ht & Hk & _).
  - sample_extracted Examples.article_page.
  - sample_configured.
  - sample_replies.
  - vm_compute. reflexivity.
  - exists fetched, so. repeat split; assumption.
Defined.

Lemma parsed_fields_kept_when_truthy_witness :
  exists fetched so,
    run Examples.full_browser Examples.request
    = [ExecuteScript 7; StorageGet (lit "llmSettings"); Fetch fetched;
       SendResponse (Success so)]
    /\ summary so = JStr (lit "A release note.")
    /\ sentiment so = JStr (lit "positive")
    /\ keyThemes so = JArr [JStr (lit "release"); JStr (lit "proofs")].
Proof.
  apply (@parsed_fields_kept_when_truthy Examples.full_browser Examples.request
           Examples.article_text Examples.settings anthropic Examples.full_reply
           (JObj [ (lit "summary", JStr (lit "A release note."));
                   (lit "sentiment", JStr (lit "positive"));
                   (lit "keyThemes", JArr [JStr (lit "release"); JStr (lit "proofs")]) ])
           (JStr (lit "A release note.")) (JStr (lit "positive"))
           (JArr [JStr (lit "release"); JStr (lit "proofs")])).
  - sample_extracted Examples.article_page.
  - sample_configured.
  - sample_replies.
  - vm_compute. reflexivity.
  - reflexivity.
  - reflexivity.
  - reflexivity.
Defined.

Lemma commentCount_counts_all_words_witness :
  exists fetched so,
    run Examples.full_browser Examples.request
    = [ExecuteScript 7; StorageGet (lit "llmSettings"); Fetch fetched;
       SendResponse (Success so)]
    /\ commentCount so = JInt 8.
Proof.
  apply (proj1 commentCount_counts_all_words Examples.full_browser Examples.request
           Examples.article_text Examples.settings anthropic
           (JStr Examples.full_reply)).
  - sample_extracted Examples.article_page.
  - sample_configured.
  - sample_replies.
Defined.

Lemma prompt_embeds_first_3000_words_witness :
  exists request truncatedContent,
    snd (generateSummaryViaFetch Examples.full_browser Examples.article_text
           (lit "News") Examples.settings [])
    = [Fetch request]
    /\ get_path (req_body request) (prompt_path anthropic)
       = Ok (JStr (prompt_before_title ++ lit "News" ++ prompt_before_content
                   ++ truncatedContent ++ prompt_after_content))
    /\ words truncatedContent = firstn 3000 (words Examples.article_text)
    /\ List.length (words truncatedContent) <= 3000.
Proof.
  apply (@prompt_embeds_first_3000_words Examples.full_browser Tree.Node
           (Tree.api Examples.article_page) Examples.article_text (lit "News")
           Examples.settings anthropic).
  - vm_compute. reflexivity.
  - reflexivity.
Defined.


(** The other stored values without a key: nothing, settings with no
    entry for the provider, and the typed settings with an empty key. *)
Example missing_key_examples :
  AnyValue.run Examples.full_browser JUndefined
    (AnyValue.typed_dispatcher Examples.full_browser) Examples.request
  = [ExecuteScript 7; StorageGet (lit "llmSettings");
     SendResponse (Failure (lit "LLM settings not configured"))]
  /\ AnyValue.run Examples.full_browser AnyValue.empty_providers
       (AnyValue.typed_dispatcher Examples.full_browser) Examples.request
     = [ExecuteScript 7; StorageGet (lit "llmSettings");
        SendResponse (Failure (lit "API key not configured"))]
  /\ AnyValue.run Examples.keyless_browser (AnyValue.stored_value Examples.keyless_browser)
       (AnyValue.typed_dispatcher Examples.keyless_browser) Examples.request
     = [ExecuteScript 7; StorageGet (lit "llmSettings");
        SendResponse (Failure (lit "API key not configured"))]
  /\ AnyValue.run Examples.full_browser (JObj [ (lit "providers", JNull) ])
       (AnyValue.typed_dispatcher Examples.full_browser) Examples.request
     = [ExecuteScript 7; StorageGet (lit "llmSettings");
        SendResponse
          (Failure (lit "Cannot read properties of null (reading 'undefined')"))].
Proof. repeat split; vm_compute; reflexivity. Qed.

Lemma dispatcher_reports_http_status_witness :
  exists request,
    generateSummaryViaFetch Examples.failing_browser Examples.article_text
      (lit "News") Examples.settings []
    = (Throw (Error (lit "Anthropic API error: 404 Not Found")), [Fetch request]).
Proof.
  destruct (@dispatcher_reports_http_status Examples.failing_browser
              Examples.article_text (lit "News") Examples.settings anthropic)
    as (request & response & error & Hfetch & Hgen & Herror & _).
  - reflexivity.
  - intros request. exists Examples.not_found. split; reflexivity.
  - exists request. rewrite Hgen, Herror.
    injection Hfetch as <-. reflexivity.
Defined.

Lemma extractPageContent_never_throws_witness :
  extractPageContent (Tree.api Examples.nav_footer_page) = Ok [].
Proof.
  apply (proj2 extractPageContent_never_throws).
  intros selector Hin.
  repeat (destruct Hin as [<- | Hin]; [vm_compute; auto|]).
  destruct Hin.
Defined.

Lemma extractPageContent_nav_footer_only_witness :
  extractPageContent (Tree.api Examples.loose_text_page)
  = Ok (lit "Opening hours: 9 to 5.")
  /\ extractPageContent (Tree.api Examples.nav_footer_page) = Ok [].
Proof.
  split.
  - destruct (@extractPageContent_nav_footer_only Examples.loose_text_page [] _
                ltac:(repeat constructor) eq_refl) as (content & -> & -> & _).
    vm_compute. reflexivity.
  - destruct (@extractPageContent_nav_footer_only Examples.nav_footer_page [] _
                ltac:(repeat constructor) eq_refl) as (content & -> & _ & Hshort).
    destruct Hshort as [-> _]; [|reflexivity].
    repeat constructor; (now left) || (now right).
Defined.

(** The article page: [main] is found first and its text, without the
    script and the comments, is what is returned; the body is not
    tried. *)
Example extract_article :
  extractPageContent (Tree.api Examples.article_page)
  = Ok (lit "Release notes The new release brings faster proofs.")
  /\ tree_candidates Examples.article_page
     = [ lit "Release notes" ++ [LF; SP; SP] ++ lit "The new   release brings"
           ++ [LF] ++ lit "faster proofs.";
         lit "Release notes" ++ [LF; SP; SP] ++ lit "The new   release brings"
           ++ [LF] ++ lit "faster proofs." ].
Proof. split; vm_compute; reflexivity. Qed.

(** An article of 150 words (749 characters) under a body that holds
    more: the article is over the threshold, so the loop stops there and
    the longer text of the body is never looked at. *)
Example extract_stops_at_threshold :
  extractPageContent (Tree.api Examples.long_article_page)
  = Ok (join (lit " ") (repeat (lit "word") 150))
  /\ map (@List.length char) (tree_candidates Examples.long_article_page) = [749; 774].
Proof. split; vm_compute; reflexivity. Qed.

(** * More of the background script *)

(** ** Every run of the handler *)

Section HandlerRuns.

Variable env : Env.

Lemma dispatch_outcome_object p wordCount outcome result :
  dispatch_outcome env p wordCount outcome = Ok result ->
  exists props, result = JObj props.
Proof.
  unfold dispatch_outcome, bind. destruct outcome as [response|]; [|discriminate].
  destruct (ok response); [|discriminate].
  destruct (json response) as [data|]; [|discriminate].
  destruct (get_path data (response_path p)) as [text|]; [|discriminate].
  intros H. injection H as <-. apply parse_model_text_object.
Qed.

(** With content and a key, the run is one script injection, one read of
    the settings, one request and one reply, made of the dispatcher's
    outcome. *)
Lemma run_with_key request content settings entry :
  page_text env request = Some content ->
  stored_llmSettings env = Some settings ->
  provider_entry settings = Some entry ->
  apiKey entry <> [] ->
  exists p fetched,
    currentProvider settings = Some p
    /\ run env request
       = [ExecuteScript (msg_tabId request); StorageGet (lit "llmSettings");
          Fetch fetched;
          SendResponse
            (reply_of env request
               (dispatch_outcome env p
                  (JInt (Z.of_nat (List.length (split_spaces content))))
                  (fetch_outcome env fetched)))].
Proof.
  intros Hpage Hs Hentry Hkey.
  assert (Hp : exists p, currentProvider settings = Some p).
  { unfold provider_entry in Hentry.
    destruct (currentProvider settings) as [p|]; [now exists p | discriminate]. }
  destruct Hp as [p Hp].
  destruct (generateSummaryViaFetch_eq env content (msg_title request) settings Hp)
    as (fetched & _ & Hgen).
  exists p, fetched. split; [assumption|].
  unfold page_text in Hpage. run_handler.
  destruct (tab_document env (msg_tabId request)) as [root|]; [|discriminate].
  destruct (extractPageContent (Tree.api root)) as [[|c s]|]; try discriminate.
  injection Hpage as <-. cbv beta iota.
  rewrite Hs, Hentry. destruct (apiKey entry) as [|k key]; [contradiction|].
  cbv beta iota. rewrite Hgen.
  destruct (dispatch_outcome env p
              (JInt (Z.of_nat (List.length (split_spaces (c :: s)))))
              (fetch_outcome env fetched)) as [result|e] eqn:Hout; [|reflexivity].
  destruct (dispatch_outcome_object _ _ _ Hout) as [props ->].
  rewrite !get_object. reflexivity.
Qed.

(** The four shapes of a run. *)
Lemma run_shapes request :
  (~ ready env request
   /\ exists error,
        run env request
        = [ExecuteScript (msg_tabId request); SendResponse (Failure error)]
        \/ run env request
           = [ExecuteScript (msg_tabId request); StorageGet (lit "llmSettings");
              SendResponse (Failure error)])
  \/ (ready env request
      /\ exists fetched reply,
           run env request
           = [ExecuteScript (msg_tabId request); StorageGet (lit "llmSettings");
              Fetch fetched; SendResponse reply]).
Proof.
  destruct (page_text env request) as [content|] eqn:Hpage.
  - destruct (stored_llmSettings env) as [settings|] eqn:Hs.
    + destruct (provider_entry settings) as [entry|] eqn:Hentry.
      * destruct (apiKey entry) as [|k key] eqn:Hkey.
        -- left. split.
           ++ intros (c & st & p & _ & Hst & _ & entry' & Hentry' & Hkey').
              rewrite Hs in Hst. injection Hst as <-.
              rewrite Hentry in Hentry'. injection Hentry' as <-. now rewrite Hkey in Hkey'.
           ++ eexists. right. apply (run_no_key env request Hpage Hs).
              now rewrite Hentry.
        -- right.
           assert (Hne : apiKey entry <> []) by (rewrite Hkey; discriminate).
           destruct (run_with_key request Hpage Hs Hentry Hne) as (p & fetched & Hp & Hrun).
           split.
           ++ exists content, settings, p. split.
              ** apply extracted_page_text. split; [assumption|].
                 unfold page_text in Hpage.
                 destruct (tab_document env (msg_tabId request)); [|discriminate].
                 destruct (extractPageContent _) as [[|? ?]|]; try discriminate.
                 injection Hpage as <-. discriminate.
              ** repeat split; try assumption. now exists entry.
           ++ eexists fetched, _. exact Hrun.
      * left. split.
        -- intros (c & st & p & _ & Hst & _ & entry' & Hentry' & _).
           rewrite Hs in Hst. injection Hst as <-. now rewrite Hentry in Hentry'.
        -- eexists. right. apply (run_no_key env request Hpage Hs). now rewrite Hentry.
    + left. split.
      * intros (c & st & p & _ & Hst & _). now rewrite Hs in Hst.
      * eexists. right. apply (run_no_settings env request Hpage Hs).
  - left. split.
    + intros (c & st & p & Hx & _). apply extracted_page_text in Hx as [Hx _].
      now rewrite Hpage in Hx.
    + eexists. left. apply (run_not_extracted env request Hpage).
Qed.

End HandlerRuns.

(** X1. Whatever the page, the settings and the provider do, the handler
    replies exactly once, and the reply is the last thing it does. *)
Theorem handler_replies_exactly_once (env : Env) (request : Message) :
  exists before reply,
    run env request = before ++ [SendResponse reply]
    /\ forallb (fun ev => negb (is_reply ev)) before = true.
Proof.
  destruct (run_shapes env request)
    as [(_ & error & [-> | ->]) | (_ & fetched & reply & ->)].
  - now exists [ExecuteScript (msg_tabId request)], (Failure error).
  - now exists [ExecuteScript (msg_tabId request); StorageGet (lit "llmSettings")],
      (Failure error).
  - now exists [ExecuteScript (msg_tabId request); StorageGet (lit "llmSettings");
                Fetch fetched], reply.
Qed.


Lemma run_ready (env : Env) (request : Message) (content : jsstring)
      (settings : LLMSettings) (p : LLMProvider) :
  extracted env request content ->
  configured env settings p ->
  exists fetched,
    run env request
    = [ExecuteScript (msg_tabId request); StorageGet (lit "llmSettings");
       Fetch fetched;
       SendResponse
         (reply_of env request
            (dispatch_outcome env p
               (JInt (Z.of_nat (List.length (split_spaces content))))
               (fetch_outcome env fetched)))].
Proof.
  intros Hx (Hs & Hp & entry & Hentry & Hkey).
  apply extracted_page_text in Hx as [Hpage _].
  destruct (run_with_key env request Hpage Hs Hentry Hkey) as (p' & fetched & Hp' & Hrun).
  rewrite Hp in Hp'. injection Hp' as <-. now exists fetched.
Qed.

(** ** Failures after the request *)

(** X3. When the request fails to reach the provider ([fetch] rejects),
    the handler replies with the rejection's message, after that single
    request. *)
Theorem network_failure_is_reported
    (env : Env) (request : Message) (content : jsstring)
    (settings : LLMSettings) (p : LLMProvider) (e : Exn) :
  extracted env request content ->
  configured env settings p ->
  (forall fetched, fetch_outcome env fetched = Throw e) ->
  exists fetched,
    run env request
    = [ExecuteScript (msg_tabId request); StorageGet (lit "llmSettings");
       Fetch fetched; SendResponse (Failure (message e))].
Proof.
  intros Hx Hc Hfail. destruct (run_ready Hx Hc) as (fetched & Hrun).
  exists fetched. now rewrite Hrun, Hfail.
Qed.

(** X4. When the provider answers with a success status but the body is
    not JSON, or does not have the place where the provider puts the
    model's text, the handler replies with the error that reading it
    throws, not with a summary. *)
Theorem malformed_body_is_reported
    (env : Env) (request : Message) (content : jsstring)
    (settings : LLMSettings) (p : LLMProvider) (e : Exn) :
  extracted env request content ->
  configured env settings p ->
  (forall fetched, exists response,
     fetch_outcome env fetched = Ok response
     /\ ok response = true
     /\ (json response = Throw e
         \/ exists data, json response = Ok data
              /\ get_path data (response_path p) = Throw e)) ->
  exists fetched,
    run env request
    = [ExecuteScript (msg_tabId request); StorageGet (lit "llmSettings");
       Fetch fetched; SendResponse (Failure (message e))].
Proof.
  intros Hx Hc Hbody. destruct (run_ready Hx Hc) as (fetched & Hrun).
  exists fetched. rewrite Hrun.
  destruct (Hbody fetched) as (response & -> & Hok & [Hjson | (data & Hjson & Hpath)]);
    unfold dispatch_outcome, bind; rewrite Hok, Hjson; [reflexivity|].
  now rewrite Hpath.
Qed.

(** X5. When the body has the place for the text but no text in it (the
    last property read gives [undefined]), nothing throws:
    [JSON.parse(undefined)] fails like any text that is not JSON, and the
    handler replies with a summary object whose summary is [undefined],
    with the default sentiment and themes. *)
Theorem missing_text_gives_undefined_summary
    (env : Env) (request : Message) (content : jsstring)
    (settings : LLMSettings) (p : LLMProvider) :
  extracted env request content ->
  configured env settings p ->
  provider_replies env p JUndefined ->
  JSON_parse env (lit "undefined") = None ->
  exists fetched so,
    run env request
    = [ExecuteScript (msg_tabId request); StorageGet (lit "llmSettings");
       Fetch fetched; SendResponse (Success so)]
    /\ summary so = JUndefined
    /\ sentiment so = JStr (lit "neutral")
    /\ keyThemes so = JArr [].
Proof.
  intros Hx Hc Hr Hparse.
  destruct (run_success Hx Hc Hr) as (fetched & Hrun).
  eexists fetched, _. split; [exact Hrun|].
  rewrite (field_of_unparsed env JUndefined _ Hparse). repeat split.
Qed.

Lemma network_failure_is_reported_witness :
  exists fetched,
    run offline_browser Examples.request
    = [ExecuteScript 7; StorageGet (lit "llmSettings"); Fetch fetched;
       SendResponse (Failure (lit "Failed to fetch"))].
Proof.
  apply (@network_failure_is_reported offline_browser Examples.request
           Examples.article_text Examples.settings anthropic
           (TypeError (lit "Failed to fetch"))).
  - sample_extracted Examples.article_page.
  - sample_configured.
  - reflexivity.
Defined.

Lemma malformed_body_is_reported_witness :
  exists fetched,
    run empty_body_browser Examples.request
    = [ExecuteScript 7; StorageGet (lit "llmSettings"); Fetch fetched;
       SendResponse
         (Failure (lit "Cannot read properties of undefined (reading '0')"))].
Proof.
  apply (@malformed_body_is_reported empty_body_browser Examples.request
           Examples.article_text Examples.settings anthropic
           (TypeError (lit "Cannot read properties of undefined (reading '0')"))).
  - sample_extracted Examples.article_page.
  - sample_configured.
  - intros fetched. eexists. split; [reflexivity|]. split; [reflexivity|].
    right. eexists. split; reflexivity.
Defined.

Lemma missing_text_gives_undefined_summary_witness :
  exists fetched so,
    run no_text_browser Examples.request
    = [ExecuteScript 7; StorageGet (lit "llmSettings"); Fetch fetched;
       SendResponse (Success so)]
    /\ summary so = JUndefined
    /\ sentiment so = JStr (lit "neutral")
    /\ keyThemes so = JArr [].
Proof.
  apply (@missing_text_gives_undefined_summary no_text_browser Examples.request
           Examples.article_text Examples.settings anthropic).
  - sample_extracted Examples.article_page.
  - sample_configured.
  - sample_replies.
  - vm_compute. reflexivity.
Defined.

(** ** The shape of the extracted text *)

Section Normalised.

Lemma single_spaced_weaken (s : jsstring) :
  single_spaced true s = true -> single_spaced false s = true.
Proof.
  destruct s as [|c s]; simpl; [reflexivity|].
  destruct (is_space c); [|auto]. rewrite andb_false_r. discriminate.
Qed.

Lemma replace_spaces_single_spaced (in_run : bool) (s : jsstring) :
  single_spaced in_run (replace_spaces_from in_run s) = true.
Proof.
  revert in_run; induction s as [|c s IH]; intros in_run; simpl; [reflexivity|].
  destruct (is_space c) eqn:Hc.
  - destruct in_run; [apply IH|]. simpl. apply IH.
  - simpl. rewrite Hc.
    destruct in_run; [apply IH|apply IH].
Qed.

Lemma single_spaced_same (s : jsstring) :
  Forall (fun c => N.eqb c LF = false) s ->
  forall b, single_spaced b (limit_newlines s) = single_spaced b s.
Proof.
  intros H b. unfold limit_newlines. now rewrite limit_newlines_same.
Qed.

Lemma single_spaced_suffix (z s : jsstring) (b : bool) :
  single_spaced b (z ++ s) = true -> single_spaced false s = true.
Proof.
  revert b; induction z as [|c z IH]; intros b; simpl.
  - destruct b; [apply single_spaced_weaken | auto].
  - destruct (is_space c); [|apply IH].
    intros H. apply andb_prop in H as [_ H]. now apply IH in H.
Qed.

Lemma single_spaced_prefix (s z : jsstring) (b : bool) :
  single_spaced b (s ++ z) = true -> single_spaced b s = true.
Proof.
  revert b; induction s as [|c s IH]; intros b; simpl; [reflexivity|].
  destruct (is_space c); [|apply IH].
  intros H. apply andb_prop in H as [H1 H]. rewrite H1. now apply IH in H.
Qed.

Lemma trim_single_spaced (s : jsstring) (b : bool) :
  single_spaced b s = true -> single_spaced false (trim s) = true.
Proof.
  intros H. unfold trim.
  destruct (trimStart_suffix s) as [z Hz]. rewrite Hz in H.
  apply single_spaced_suffix in H.
  destruct (trimEnd_prefix (trimStart s)) as [z' Hz']. rewrite Hz' in H.
  now apply single_spaced_prefix in H.
Qed.

Lemma clean_single_spaced (bestContent : jsstring) :
  single_spaced false (clean bestContent) = true.
Proof.
  rewrite clean_eq. apply (trim_single_spaced _ false).
  apply replace_spaces_single_spaced.
Qed.

(** Splitting a single-spaced string at its white space and joining the
    pieces with a space gives the string back. *)
Lemma join_split_single_spaced (b : bool) (s : jsstring) :
  single_spaced b s = true -> join (lit " ") (split_from b s) = s.
Proof.
  revert b; induction s as [|c s IH]; intros b H; [reflexivity|].
  simpl in H. simpl split_from. destruct (is_space c) eqn:Hc.
  - apply andb_prop in H as [H Hs]. apply andb_prop in H as [Hsp Hb].
    apply N.eqb_eq in Hsp. subst c. destruct b; [discriminate|].
    specialize (IH true Hs).
    destruct (split_from_cons true s) as (w & ws & E). rewrite E in *.
    change (join (lit " ") ([] :: w :: ws))
      with ([] ++ lit " " ++ join (lit " ") (w :: ws)).
    now rewrite IH.
  - specialize (IH false H).
    destruct (split_from_cons false s) as (w & ws & E). rewrite E in *.
    rewrite <- IH. destruct ws; reflexivity.
Qed.

End Normalised.

(** X6. What the extractor returns is normalised: it has no white space
    at either end, and every white space character in it is a single
    space between two words (no tab, no line feed, no run of spaces),
    whatever the document. *)
Theorem extractPageContent_is_normalised
    (E : Type) (document : DomApi E) (content : jsstring) :
  extractPageContent document = Ok content ->
  starts_with_space content = false
  /\ ends_with_space content = false
  /\ single_spaced false content = true.
Proof.
  intros H. destruct (extracted_content_trimmed H) as [Hs He].
  repeat split; try assumption.
  rewrite extractPageContent_eq in H. injection H as <-. apply clean_single_spaced.
Qed.

Lemma extractPageContent_is_normalised_witness :
  single_spaced false (lit "Release notes The new release brings faster proofs.") = true.
Proof.
  apply (@extractPageContent_is_normalised Tree.Node (Tree.api Examples.article_page)).
  vm_compute. reflexivity.
Defined.

(** X7. Content of at most 3000 words goes into the prompt as it is:
    splitting the extracted text at white space and joining the pieces
    with spaces gives the same text back, so the prompt in the request
    is the template around the title and the whole content. *)
Theorem short_content_is_embedded_verbatim
    (env : Env) (E : Type) (document : DomApi E) (content title : jsstring)
    (settings : LLMSettings) (p : LLMProvider) :
  extractPageContent document = Ok content ->
  List.length (words content) <= 3000 ->
  currentProvider settings = Some p ->
  join (lit " ") (slice0 3000 (split_spaces content)) = content
  /\ exists request,
       snd (generateSummaryViaFetch env content title settings []) = [Fetch request]
       /\ get_path (req_body request) (prompt_path p)
          = Ok (JStr (prompt_before_title ++ title ++ prompt_before_content
                      ++ content ++ prompt_after_content)).
Proof.
  intros Hx Hlen Hp.
  assert (Hsame : join (lit " ") (slice0 3000 (split_spaces content)) = content).
  { assert (Hn : single_spaced false content = true)
      by (rewrite extractPageContent_eq in Hx; injection Hx as <-;
          apply clean_single_spaced).
    rewrite <- (join_split_single_spaced false content Hn) at 2.
    unfold slice0. rewrite firstn_all2; [reflexivity|].
    destruct content as [|c content]; [simpl; lia|].
    destruct (extracted_content_trimmed Hx) as [Hs He].
    rewrite split_trimmed by (assumption || discriminate). exact Hlen. }
  split; [exact Hsame|].
  destruct (generateSummaryViaFetch_eq env content title settings Hp)
    as (request & Hprompt & Hgen).
  exists request. rewrite Hgen. split; [reflexivity|].
  rewrite Hprompt, Hsame. reflexivity.
Qed.

Lemma short_content_is_embedded_verbatim_witness :
  join (lit " ") (slice0 3000 (split_spaces Examples.article_text))
  = Examples.article_text.
Proof.
  apply (@short_content_is_embedded_verbatim Examples.full_browser Tree.Node
           (Tree.api Examples.article_page) Examples.article_text (lit "News")
           Examples.settings anthropic).
  - vm_compute. reflexivity.
  - vm_compute. lia.
  - reflexivity.
Defined.

(** X8. The request is made of the current provider's entry alone: two
    settings that name the same provider with the same key and model
    give the same run of the dispatcher, whatever they hold for the other
    providers, whose keys are never sent. *)
Theorem other_providers_do_not_matter
    (env : Env) (content title : jsstring) (s1 s2 : LLMSettings) (trace : list Event) :
  currentProvider s1 = currentProvider s2 ->
  provider_entry s1 = provider_entry s2 ->
  generateSummaryViaFetch env content title s1 trace
  = generateSummaryViaFetch env content title s2 trace.
Proof.
  intros Hp Hentry. unfold generateSummaryViaFetch, provider_entry in *.
  rewrite <- Hp in *.
  destruct (currentProvider s1) as [[| | |]|]; [| | | |reflexivity];
    injection Hentry as ->; reflexivity.
Qed.

Lemma other_providers_do_not_matter_witness :
  generateSummaryViaFetch Examples.full_browser Examples.article_text (lit "News")
    Examples.settings []
  = generateSummaryViaFetch Examples.full_browser Examples.article_text (lit "News")
      {| currentProvider := Some anthropic;
         providers := {|
           of_anthropic := {| apiKey := lit "sk-ant-test";
                              model := lit "claude-3-5-sonnet-20241022" |};
           of_openai := {| apiKey := lit "sk-openai-secret"; model := lit "gpt-4o" |};
           of_google := {| apiKey := lit "google-secret"; model := lit "gemini-2.5-flash" |};
           of_xai := {| apiKey := lit "xai-secret"; model := lit "grok-2-1212" |} |} |}
      [].
Proof.
  apply other_providers_do_not_matter; reflexivity.
Defined.

(** ** Noise removal *)

Section NoiseRemoval.

Variable sel : Selector.

Lemma Node_forall_ind (P : Tree.Node -> Prop) :
  (forall data, P (Tree.Text data)) ->
  (forall data, P (Tree.Comment data)) ->
  (forall tag attrs children, Forall P children -> P (Tree.Element tag attrs children)) ->
  forall n, P n.
Proof.
  intros Ht Hc He. fix IH 1. intros [data | data | tag attrs children].
  - apply Ht.
  - apply Hc.
  - apply He. induction children as [|c l IHl]; constructor; [apply IH | exact IHl].
Qed.

Lemma descendants_element tag attrs children :
  descendants (Tree.Element tag attrs children) = descendants_among children.
Proof.
  simpl. induction children as [|c l IH]; simpl; [reflexivity|]. now rewrite IH.
Qed.

Lemma matches_remove_matching (n : Tree.Node) :
  Tree.matches sel (Tree.remove_matching sel n) = Tree.matches sel n.
Proof. destruct n; reflexivity. Qed.

Lemma remove_among_cons (c : Tree.Node) (l : list Tree.Node) :
  Tree.remove_among sel (c :: l)
  = if Tree.matches sel c then Tree.remove_among sel l
    else Tree.remove_matching sel c :: Tree.remove_among sel l.
Proof. reflexivity. Qed.

End NoiseRemoval.

Section Prunings.

Variable sel : Selector.

Lemma pruning_matches (m n : Tree.Node) :
  pruning m n -> Tree.matches sel m = Tree.matches sel n.
Proof. now intros [data | data | tag attrs ms ns _]. Qed.

Lemma noise_free_child tag attrs (c : Tree.Node) (l : list Tree.Node) :
  noise_free sel (Tree.Element tag attrs (c :: l)) ->
  Tree.matches sel c = false
  /\ noise_free sel c
  /\ noise_free sel (Tree.Element tag attrs l).
Proof.
  unfold noise_free. rewrite !descendants_element. simpl. intros H. repeat split.
  - apply H. now left.
  - intros d Hd. apply H. right. apply in_or_app. now left.
  - intros d Hd. apply H. right. apply in_or_app. now right.
Qed.

Lemma pruning_refl (n : Tree.Node) : pruning n n.
Proof.
  induction n as [data | data | tag attrs children IH] using Node_forall_ind;
    constructor.
  induction IH as [|c l Hc _ IHl]; constructor; assumption.
Qed.

(** The cleaned node is a pruning of the node. *)
Lemma remove_matching_pruning (n : Tree.Node) : pruning (Tree.remove_matching sel n) n.
Proof.
  induction n as [data | data | tag attrs children IH] using Node_forall_ind;
    [constructor | constructor |].
  rewrite remove_matching_element. constructor.
  induction IH as [|c l Hc _ IHl]; [constructor|].
  rewrite remove_among_cons. destruct (Tree.matches sel c); now constructor.
Qed.

(** No element below the cleaned node matches. *)
Lemma remove_matching_noise_free (n : Tree.Node) :
  noise_free sel (Tree.remove_matching sel n).
Proof.
  unfold noise_free.
  induction n as [data | data | tag attrs children IH] using Node_forall_ind;
    try (intros d []).
  rewrite remove_matching_element, descendants_element.
  induction IH as [|c l Hc _ IHl]; [intros d []|].
  rewrite remove_among_cons. destruct (Tree.matches sel c) eqn:Hm; [exact IHl|].
  intros d [<- | Hin].
  - now rewrite matches_remove_matching.
  - apply in_app_or in Hin as [Hin | Hin]; [now apply Hc | now apply IHl].
Qed.

(** Every pruning of the node with no matching element below it is a
    pruning of the cleaned node: what was cleaned away had to go. *)
Lemma remove_matching_greatest (n : Tree.Node) :
  forall m, pruning m n -> noise_free sel m -> pruning m (Tree.remove_matching sel n).
Proof.
  induction n as [data | data | tag attrs children IH] using Node_forall_ind;
    intros m Hm Hfree; inversion Hm as [? | ? | ? ? ms ns Hl]; subst;
    [constructor | constructor |].
  rewrite remove_matching_element. constructor.
  clear Hm. induction Hl as [|m n ms ns Hmn Hl IHl | n ms ns Hl IHl].
  - constructor.
  - apply Forall_cons_iff in IH as [Hn IH].
    apply noise_free_child in Hfree as (Hmatch & Hm & Hms).
    rewrite remove_among_cons, <- (pruning_matches Hmn), Hmatch.
    constructor; [now apply Hn | now apply IHl].
  - apply Forall_cons_iff in IH as [_ IH].
    rewrite remove_among_cons. destruct (Tree.matches sel n).
    + now apply IHl.
    + constructor. now apply IHl.
Qed.

(** A pruning is not larger than what it prunes, and is the same when it
    is as large. *)
Lemma pruning_size (n : Tree.Node) :
  forall m, pruning m n ->
    List.length (descendants m) <= List.length (descendants n)
    /\ (List.length (descendants n) <= List.length (descendants m) -> m = n).
Proof.
  induction n as [data | data | tag attrs children IH] using Node_forall_ind;
    intros m Hm; inversion Hm as [? | ? | ? ? ms ns Hl]; subst;
    try (split; [reflexivity | reflexivity]).
  rewrite !descendants_element. clear Hm.
  assert (H : List.length (descendants_among ms) <= List.length (descendants_among children)
              /\ (List.length (descendants_among children)
                  <= List.length (descendants_among ms) -> ms = children)).
  { induction Hl as [|m n ms ns Hmn Hl IHl | n ms ns Hl IHl].
    - now split.
    - apply Forall_cons_iff in IH as [Hn IH].
      destruct (Hn m Hmn) as [Hle Heq]. destruct (IHl IH) as [Hle' Heq'].
      simpl. rewrite !length_app. split; [lia|].
      intros H. rewrite Heq, Heq' by lia. reflexivity.
    - apply Forall_cons_iff in IH as [_ IH]. destruct (IHl IH) as [Hle _].
      simpl. rewrite length_app. split; lia. }
  destruct H as [Hle Heq]. split; [exact Hle|]. intros H. now rewrite Heq.
Qed.

Lemma pruning_antisym (m n : Tree.Node) : pruning m n -> pruning n m -> m = n.
Proof.
  intros Hmn Hnm. destruct (pruning_size Hmn) as [_ Heq]. apply Heq.
  now destruct (pruning_size Hnm).
Qed.

End Prunings.

(** X9. The cleaned clone is the largest pruning of the clone in which
    nothing matches the noise selector.  It is the clone with some nodes
    detached; no element below it matches, at any depth; and every other
    pruning of the clone with no matching element can be had from it by
    detaching more, so that nothing but noise was detached.  That fixes
    the cleaned clone: it is the only tree of which the three hold. *)
Theorem noise_removal_is_exact (sel : Selector) (n : Tree.Node) :
  let cleaned := Tree.remove_matching sel n in
  pruning cleaned n
  /\ noise_free sel cleaned
  /\ (forall m, pruning m n -> noise_free sel m -> pruning m cleaned)
  /\ (forall other,
        pruning other n -> noise_free sel other ->
        (forall m, pruning m n -> noise_free sel m -> pruning m other) ->
        other = cleaned).
Proof.
  cbv zeta. repeat split.
  - apply remove_matching_pruning.
  - apply remove_matching_noise_free.
  - apply remove_matching_greatest.
  - intros other Hother Hfree Hgreatest. apply pruning_antisym.
    + now apply remove_matching_greatest.
    + apply Hgreatest; [apply remove_matching_pruning | apply remove_matching_noise_free].
Qed.

(** Beside navigation, a paragraph stays. *)
Lemma noise_removal_is_exact_witness :
  pruning
    (Examples.el "article" [ Examples.el "p" [ Examples.txt "Keep this." ] ])
    (Tree.remove_matching noiseSelector
       (Examples.el "article"
          [ Examples.el "p" [ Examples.txt "Keep this." ];
            Examples.el "nav" [ Examples.el "p" [ Examples.txt "Menu" ] ] ])).
Proof.
  destruct (noise_removal_is_exact noiseSelector
              (Examples.el "article"
                 [ Examples.el "p" [ Examples.txt "Keep this." ];
                   Examples.el "nav" [ Examples.el "p" [ Examples.txt "Menu" ] ] ]))
    as (_ & _ & Hgreatest & _).
  apply Hgreatest.
  - repeat constructor.
  - intros d Hd. simpl in Hd. destruct Hd as [<- | [<- | []]]; reflexivity.
Defined.

Example noise_removal_keeps_the_rest :
  Tree.remove_matching noiseSelector
    (Examples.el "article"
       [ Examples.el "p" [ Examples.txt "Keep this." ];
         Examples.el "nav" [ Examples.el "p" [ Examples.txt "Menu" ] ] ])
  = Examples.el "article" [ Examples.el "p" [ Examples.txt "Keep this." ] ].
Proof. reflexivity. Qed.

(** ** [formatTimeAgo] *)

Section TimeAgo.

Lemma floor_lt (a b c : Z) : (0 < b)%Z -> (a / b <? c)%Z = (a <? b * c)%Z.
Proof.
  intros Hb. destruct (Z.ltb_spec (a / b) c) as [H | H];
    destruct (Z.ltb_spec a (b * c)) as [H' | H']; try reflexivity; exfalso.
  - assert (b * c <= b * (a / b))%Z by (apply Z.div_le_lower_bound in H'; nia).
    nia.
  - apply Z.div_lt_upper_bound in H'; lia.
Qed.

Lemma floor_bounds (d b : Z) :
  (0 < b)%Z -> (b * (d / b) <= d < b * (d / b + 1))%Z.
Proof.
  intros Hb. pose proof (Z.mul_div_le d b Hb).
  pose proof (Z.mul_succ_div_gt d b Hb). lia.
Qed.

Lemma integer_positive (n : Z) : (0 <= n)%Z -> Utils.integer n = decimal (Z.to_N n).
Proof.
  intros H. unfold Utils.integer. now destruct (Z.ltb_spec n 0); [lia|].
Qed.

End TimeAgo.

(** X10. The label of a valid date, by its age [d] in milliseconds:
    "just now" below one minute (a date in the future included); then the
    whole minutes, hours or days that have passed, rounded down, so that
    the number shown is between 1 and 59 for minutes, 1 and 23 for hours
    and 1 and 6 for days; and the date in the browser's format from seven
    days on. *)
Theorem formatTimeAgo_label (toLocaleDateString : option Z -> jsstring) (now t : Z) :
  let d := (now - t)%Z in
  let label := Utils.formatTimeAgo toLocaleDateString now (Some t) in
  ((d < 60000)%Z /\ label = lit "just now")
  \/ (exists n, (1 <= n <= 59)%Z /\ (60000 * n <= d < 60000 * (n + 1))%Z
                /\ label = decimal (Z.to_N n) ++ lit "m ago")
  \/ (exists n, (1 <= n <= 23)%Z /\ (3600000 * n <= d < 3600000 * (n + 1))%Z
                /\ label = decimal (Z.to_N n) ++ lit "h ago")
  \/ (exists n, (1 <= n <= 6)%Z /\ (86400000 * n <= d < 86400000 * (n + 1))%Z
                /\ label = decimal (Z.to_N n) ++ lit "d ago")
  \/ ((604800000 <= d)%Z /\ label = toLocaleDateString (Some t)).
Proof.
  intros d label. subst label. unfold Utils.formatTimeAgo. cbv zeta. fold d.
  assert (Em : (d / 1000 / 60 = d / 60000)%Z) by (now rewrite Z.div_div by lia).
  assert (Eh : (d / 60000 / 60 = d / 3600000)%Z) by (now rewrite Z.div_div by lia).
  assert (Ed : (d / 3600000 / 24 = d / 86400000)%Z) by (now rewrite Z.div_div by lia).
  rewrite Em, Eh, Ed, !floor_lt by lia.
  change (1000 * 60)%Z with 60000%Z. change (60000 * 60)%Z with 3600000%Z.
  change (3600000 * 24)%Z with 86400000%Z. change (86400000 * 7)%Z with 604800000%Z.
  destruct (Z.ltb_spec d 60000); [now left|]. right.
  destruct (Z.ltb_spec d 3600000).
  { left. exists (d / 60000)%Z. pose proof (@floor_bounds d 60000%Z eq_refl).
    assert (1 <= d / 60000 <= 59)%Z by nia.
    repeat split; try lia. now rewrite integer_positive by lia. }
  right. destruct (Z.ltb_spec d 86400000).
  { left. exists (d / 3600000)%Z. pose proof (@floor_bounds d 3600000%Z eq_refl).
    assert (1 <= d / 3600000 <= 23)%Z by nia.
    repeat split; try lia. now rewrite integer_positive by lia. }
  right. destruct (Z.ltb_spec d 604800000).
  { left. exists (d / 86400000)%Z. pose proof (@floor_bounds d 86400000%Z eq_refl).
    assert (1 <= d / 86400000 <= 6)%Z by nia.
    repeat split; try lia. now rewrite integer_positive by lia. }
  right. now split.
Qed.

Example formatTimeAgo_examples :
  Utils.formatTimeAgo (fun _ => lit "1/5/2024") 1000000000%Z (Some 999940001%Z)
  = lit "just now"
  /\ Utils.formatTimeAgo (fun _ => lit "1/5/2024") 1000000000%Z (Some 999940000%Z)
     = lit "1m ago"
  /\ Utils.formatTimeAgo (fun _ => lit "1/5/2024") 1000000000%Z (Some 1000500000%Z)
     = lit "just now"
  /\ Utils.formatTimeAgo (fun _ => lit "1/5/2024") 1000000000%Z (Some 913600001%Z)
     = lit "23h ago"
  /\ Utils.formatTimeAgo (fun _ => lit "1/5/2024") 1000000000%Z (Some 395200000%Z)
     = lit "1/5/2024".
Proof. repeat split; vm_compute; reflexivity. Qed.

(** * The key-value storage *)

(** ** The database and the sort *)

Section StoreFacts.

Lemma get_set_same key value db : Storage.get key (Storage.set key value db) = Some value.
Proof.
  induction db as [|[k v] rest IH]; simpl.
  - now rewrite eqb_refl.
  - destruct (JsString.eqb key k) eqn:Ek; simpl; rewrite ?eqb_refl, ?Ek; auto.
Qed.

Lemma get_set_other key key' value db :
  key <> key' -> Storage.get key (Storage.set key' value db) = Storage.get key db.
Proof.
  intros Hne. induction db as [|[k v] rest IH]; simpl.
  - apply eqb_neq in Hne. now rewrite Hne.
  - destruct (JsString.eqb key' k) eqn:Ek; simpl.
    + apply eqb_eq in Ek. subst k. apply eqb_neq in Hne. now rewrite Hne.
    + now rewrite IH.
Qed.

Lemma get_del_same key db : Storage.get key (Storage.del key db) = None.
Proof.
  induction db as [|[k v] rest IH]; simpl; [reflexivity|].
  destruct (JsString.eqb key k) eqn:Ek; simpl; rewrite ?Ek; auto.
Qed.

Lemma get_del_other key key' db :
  key <> key' -> Storage.get key (Storage.del key' db) = Storage.get key db.
Proof.
  intros Hne. induction db as [|[k v] rest IH]; simpl; [reflexivity|].
  destruct (JsString.eqb key' k) eqn:Ek; simpl.
  - apply eqb_eq in Ek. subst k. apply eqb_neq in Hne. now rewrite Hne.
  - now rewrite IH.
Qed.

Lemma get_in_keys key db :
  In key (map fst db) <-> exists value, Storage.get key db = Some value.
Proof.
  induction db as [|[k v] rest IH]; simpl.
  - split; [contradiction | intros [? ?]; discriminate].
  - destruct (JsString.eqb key k) eqn:Ek.
    + apply eqb_eq in Ek. subst k. split; [now exists v | now left].
    + apply eqb_neq in Ek. rewrite <- IH. split; [intros [H | H] | now right];
        [congruence | assumption].
Qed.

Lemma starts_with_prefix (p k : jsstring) :
  starts_with p k = true <-> exists rest, k = p ++ rest.
Proof.
  revert k; induction p as [|c p IH]; intros k; simpl.
  - split; [now exists k | reflexivity].
  - destruct k as [|d k].
    + split; [discriminate | intros [? ?]; discriminate].
    + split.
      * intros H. apply andb_prop in H as [Hc H]. apply N.eqb_eq in Hc.
        apply IH in H as [rest ->]. exists rest. now subst d.
      * intros [rest H]. injection H as -> ->. rewrite N.eqb_refl. simpl.
        apply IH. now exists rest.
Qed.

Section SortFacts.

Context {A : Type} (leb : A -> A -> bool).

Lemma insert_perm (x : A) (l : list A) : Permutation (Storage.insert leb x l) (x :: l).
Proof.
  induction l as [|y l IH]; simpl; [reflexivity|].
  destruct (leb x y); [reflexivity|].
  rewrite IH. apply perm_swap.
Qed.

Lemma sort_by_perm (l : list A) : Permutation (Storage.sort_by leb l) l.
Proof.
  induction l as [|x l IH]; simpl; [reflexivity|].
  rewrite insert_perm. now constructor.
Qed.

Hypothesis leb_total : forall a b, leb a b = true \/ leb b a = true.
Hypothesis leb_trans : forall a b c, leb a b = true -> leb b c = true -> leb a c = true.

Lemma insert_sorted (x : A) (l : list A) :
  StronglySorted (fun a b => leb a b = true) l ->
  StronglySorted (fun a b => leb a b = true) (Storage.insert leb x l).
Proof.
  induction 1 as [|y l Hs IH Hy]; simpl; [repeat constructor|].
  destruct (leb x y) eqn:Hxy.
  - constructor; [now constructor|]. constructor; [assumption|].
    eapply Forall_impl; [|exact Hy]. intros z Hz. eapply leb_trans; eassumption.
  - constructor; [assumption|].
    eapply Permutation_Forall; [symmetry; apply insert_perm|].
    constructor; [|assumption]. destruct (leb_total x y); congruence.
Qed.

Lemma sort_by_sorted (l : list A) :
  StronglySorted (fun a b => leb a b = true) (Storage.sort_by leb l).
Proof.
  induction l as [|x l IH]; simpl; [constructor | now apply insert_sorted].
Qed.

End SortFacts.

End StoreFacts.

(** ** Summaries *)

Section SummaryFacts.

Variable getTime : jsstring -> Z.
Variable hostname : jsstring -> option jsstring.

#[local] Set Warnings "-notation-for-abbreviation".
Notation getAllSummaries := (Storage.getAllSummaries getTime).
Notation updateStats := (Storage.updateStats getTime hostname).
Notation createSummary := (Storage.createSummary getTime hostname).
Notation deleteSummary := (Storage.deleteSummary getTime hostname).

Lemma summary_key_not_stats i : Storage.SUMMARIES_PREFIX ++ i <> Storage.STATS_KEY.
Proof. discriminate. Qed.

Lemma stats_key_not_summary : starts_with Storage.SUMMARIES_PREFIX Storage.STATS_KEY = false.
Proof. reflexivity. Qed.

Lemma summary_keys_differ i j :
  i <> j -> Storage.SUMMARIES_PREFIX ++ i <> Storage.SUMMARIES_PREFIX ++ j.
Proof. intros Hne H. apply app_inv_head in H. contradiction. Qed.

Lemma getSummary_get i db s :
  Storage.getSummary i db = Some s
  <-> Storage.get (Storage.SUMMARIES_PREFIX ++ i) db = Some (Storage.VSummary s).
Proof.
  unfold Storage.getSummary.
  destruct (Storage.get (Storage.SUMMARIES_PREFIX ++ i) db) as [[x | x | x | x]|];
    split; intros H; try discriminate; congruence.
Qed.

Lemma filter_perm {A : Type} (f : A -> bool) (l l' : list A) :
  Permutation l l' -> Permutation (filter f l) (filter f l').
Proof.
  induction 1 as [| x l l' _ IH | x y l | l l' l'' _ IH1 _ IH2]; simpl.
  - constructor.
  - destruct (f x); [now constructor | assumption].
  - destruct (f x), (f y); try reflexivity. apply perm_swap.
  - now transitivity (filter f l').
Qed.

Lemma flat_map_perm {A B : Type} (f : A -> list B) (l l' : list A) :
  Permutation l l' -> Permutation (flat_map f l) (flat_map f l').
Proof.
  induction 1 as [| x l l' _ IH | x y l | l l' l'' _ IH1 _ IH2]; simpl.
  - constructor.
  - now apply Permutation_app_head.
  - rewrite !app_assoc. apply Permutation_app_tail, Permutation_app_comm.
  - now transitivity (flat_map f l').
Qed.

Lemma getAllSummaries_unsorted db : Permutation (getAllSummaries db) (Storage.unsorted db).
Proof.
  unfold Storage.getAllSummaries, Storage.unsorted. rewrite sort_by_perm.
  apply flat_map_perm, filter_perm. unfold Storage.keys. apply sort_by_perm.
Qed.

(** What [getAllSummaries] lists is what [getSummary] finds. *)
Lemma in_getAllSummaries db s : In s (getAllSummaries db) <-> Storage.stored db s.
Proof.
  rewrite (Permutation_in' eq_refl (getAllSummaries_unsorted db)).
  unfold Storage.unsorted, Storage.stored. rewrite in_flat_map. split.
  - intros (key & Hkey & Hs). apply filter_In in Hkey as [_ Hp].
    apply starts_with_prefix in Hp as [i ->]. exists i. apply getSummary_get.
    destruct (Storage.get (Storage.SUMMARIES_PREFIX ++ i) db) as [[x | x | x | x]|];
      try contradiction. destruct Hs as [-> | []]. reflexivity.
  - intros [i Hi]. apply getSummary_get in Hi.
    exists (Storage.SUMMARIES_PREFIX ++ i). split.
    + apply filter_In. split.
      * apply get_in_keys. eexists. exact Hi.
      * apply starts_with_prefix. now exists i.
    + rewrite Hi. now left.
Qed.

Lemma flat_map_same_on {A B : Type} (f g : A -> list B) (l : list A) :
  (forall x, In x l -> f x = g x) -> flat_map f l = flat_map g l.
Proof.
  induction l as [|x l IH]; intros H; simpl; [reflexivity|].
  rewrite (H x (or_introl eq_refl)), IH; [reflexivity|]. intros y Hy. apply H. now right.
Qed.

Lemma filter_keys_set (f : jsstring -> bool) key value db :
  f key = false ->
  filter f (map fst (Storage.set key value db)) = filter f (map fst db).
Proof.
  intros Hf. induction db as [|[k v] rest IH]; simpl.
  - now rewrite Hf.
  - destruct (JsString.eqb key k) eqn:Ek; simpl.
    + apply eqb_eq in Ek. now subst k.
    + now rewrite IH.
Qed.

(** Writing under a key that is not a summary's leaves the summaries as
    they are. *)
Lemma unsorted_set_other key value db :
  starts_with Storage.SUMMARIES_PREFIX key = false ->
  Storage.unsorted (Storage.set key value db) = Storage.unsorted db.
Proof.
  intros Hkey. unfold Storage.unsorted. rewrite filter_keys_set by assumption.
  apply flat_map_same_on. intros k Hk. apply filter_In in Hk as [_ Hp].
  rewrite get_set_other; [reflexivity|]. intros ->. congruence.
Qed.

Lemma getAllSummaries_set_other key value db :
  starts_with Storage.SUMMARIES_PREFIX key = false ->
  Permutation (getAllSummaries (Storage.set key value db)) (getAllSummaries db).
Proof.
  intros Hkey. rewrite !getAllSummaries_unsorted. now rewrite unsorted_set_other.
Qed.

Lemma getSummary_updateStats later i db :
  Storage.getSummary i (updateStats later db) = Storage.getSummary i db.
Proof.
  unfold Storage.updateStats, Storage.getSummary.
  destruct (Storage.hostnames hostname _); [|reflexivity].
  rewrite get_set_other; [reflexivity | apply summary_key_not_stats].
Qed.

Lemma getAllSummaries_updateStats later db :
  Permutation (getAllSummaries (updateStats later db)) (getAllSummaries db).
Proof.
  unfold Storage.updateStats. destruct (Storage.hostnames hostname _); [|reflexivity].
  apply getAllSummaries_set_other, stats_key_not_summary.
Qed.

End SummaryFacts.

(** X11. [createSummary] returns the summary made of the fresh id, the
    time of the call and every field of the data, each as it was given;
    [getSummary] with that id then finds this summary, and finds under
    every other id what it found before. *)
Theorem createSummary_then_getSummary
    (getTime : jsstring -> Z) (hostname : jsstring -> option jsstring)
    (uuid now later : jsstring) (data : Storage.SummaryData) (db : Storage.Store) :
  let result := Storage.createSummary getTime hostname uuid now later data db in
  fst result
  = {| Storage.id := uuid;
       Storage.url := Storage.data_url data;
       Storage.title := Storage.data_title data;
       Storage.summary := Storage.data_summary data;
       Storage.sentiment := Storage.data_sentiment data;
       Storage.keyThemes := Storage.data_keyThemes data;
       Storage.commentCount := Storage.data_commentCount data;
       Storage.createdAt := now;
       Storage.processingTime := Storage.data_processingTime data |}
  /\ Storage.getSummary uuid (snd result) = Some (fst result)
  /\ (forall i, i <> uuid ->
        Storage.getSummary i (snd result) = Storage.getSummary i db).
Proof.
  cbn zeta. unfold Storage.createSummary. cbn [fst snd]. repeat split.
  - rewrite getSummary_updateStats. apply getSummary_get, get_set_same.
  - intros i Hi. rewrite getSummary_updateStats. unfold Storage.getSummary.
    rewrite get_set_other; [reflexivity | now apply summary_keys_differ].
Qed.

(** X12. After [deleteSummary(id)], [getSummary(id)] finds nothing, and
    every other summary is found as before. *)
Theorem deleteSummary_then_getSummary
    (getTime : jsstring -> Z) (hostname : jsstring -> option jsstring)
    (i later : jsstring) (db : Storage.Store) :
  let result := Storage.deleteSummary getTime hostname i later db in
  fst result = true
  /\ Storage.getSummary i (snd result) = None
  /\ (forall j, j <> i ->
        Storage.getSummary j (snd result) = Storage.getSummary j db).
Proof.
  cbn zeta. unfold Storage.deleteSummary. cbn [fst snd]. repeat split.
  - rewrite getSummary_updateStats. unfold Storage.getSummary.
    now rewrite get_del_same.
  - intros j Hj. rewrite getSummary_updateStats. unfold Storage.getSummary.
    rewrite get_del_other; [reflexivity | now apply summary_keys_differ].
Qed.

Lemma newer_first_total (getTime : jsstring -> Z) (a b : Storage.SummaryResult) :
  Storage.newer_first getTime a b = true \/ Storage.newer_first getTime b a = true.
Proof.
  unfold Storage.newer_first.
  destruct (Z.leb_spec (getTime (Storage.createdAt b) - getTime (Storage.createdAt a)) 0);
    [now left | right; apply Z.leb_le; lia].
Qed.

Lemma newer_first_trans (getTime : jsstring -> Z) (a b c : Storage.SummaryResult) :
  Storage.newer_first getTime a b = true -> Storage.newer_first getTime b c = true ->
  Storage.newer_first getTime a c = true.
Proof. unfold Storage.newer_first. rewrite !Z.leb_le. lia. Qed.

Lemma StronglySorted_weaken {A : Type} (R R' : A -> A -> Prop) (l : list A) :
  (forall a b, R a b -> R' a b) -> StronglySorted R l -> StronglySorted R' l.
Proof.
  intros H. induction 1 as [|x l _ IH Hx]; constructor; [assumption|].
  eapply Forall_impl; [|exact Hx]. intros b Hb. now apply H.
Qed.

Lemma getAllSummaries_sorted (getTime : jsstring -> Z) (db : Storage.Store) :
  StronglySorted (Storage.not_older getTime) (Storage.getAllSummaries getTime db).
Proof.
  unfold Storage.getAllSummaries.
  eapply StronglySorted_weaken;
    [| apply (sort_by_sorted (Storage.newer_first getTime));
       [apply newer_first_total | apply newer_first_trans]].
  intros a b H. cbv beta in H. unfold Storage.newer_first in H. apply Z.leb_le in H.
  unfold Storage.not_older. lia.
Qed.


(** ** Statistics *)

Section StatsFacts.

Variable getTime : jsstring -> Z.
Variable hostname : jsstring -> option jsstring.

Lemma fold_left_comments (l : list Storage.SummaryResult) (a : Z) :
  fold_left (fun sum s => (sum + Storage.commentCount s)%Z) l a
  = (a + Storage.comments l)%Z.
Proof.
  revert a; induction l as [|x l IH]; intros a; simpl; [lia|]. rewrite IH. lia.
Qed.

Lemma comments_perm (l l' : list Storage.SummaryResult) :
  Permutation l l' -> Storage.comments l = Storage.comments l'.
Proof. induction 1; simpl; lia. Qed.

Lemma hostnames_some (urls : list jsstring) :
  (forall u, In u urls -> hostname u <> None) ->
  exists hosts,
    Storage.hostnames hostname urls = Some hosts
    /\ forall h, In h hosts <-> exists u, In u urls /\ hostname u = Some h.
Proof.
  induction urls as [|u urls IH]; intros H; simpl.
  - exists []. split; [reflexivity|]. split; [contradiction | intros (? & [] & _)].
  - destruct (hostname u) as [h|] eqn:Hu; [|now destruct (H u (or_introl eq_refl))].
    destruct IH as (hosts & -> & Hin); [intros; apply H; now right|].
    exists (h :: hosts). split; [reflexivity|]. intros h'. simpl. rewrite Hin. split.
    + intros [<- | (u' & Hu' & Hh)]; [exists u; auto | exists u'; auto].
    + intros (u' & [<- | Hu'] & Hh); [left; congruence | right; now exists u'].
Qed.

Lemma hostnames_none (urls : list jsstring) (u : jsstring) :
  In u urls -> hostname u = None -> Storage.hostnames hostname urls = None.
Proof.
  induction urls as [|v urls IH]; [intros []|]. intros [<- | Hin] Hu; simpl.
  - now rewrite Hu.
  - destruct (hostname v); [|reflexivity]. now rewrite IH.
Qed.

Lemma existsb_eqb (x : jsstring) (l : list jsstring) :
  existsb (JsString.eqb x) l = true <-> In x l.
Proof.
  rewrite existsb_exists. split.
  - intros (y & Hy & Hxy). apply eqb_eq in Hxy. now subst.
  - intros H. exists x. split; [assumption | apply eqb_refl].
Qed.

Lemma distinct_from_spec (seen l : list jsstring) :
  NoDup (Storage.distinct_from seen l)
  /\ forall h, In h (Storage.distinct_from seen l) <-> In h l /\ ~ In h seen.
Proof.
  revert seen; induction l as [|x l IH]; intros seen; simpl.
  - split; [constructor | intros h; tauto].
  - destruct (existsb (JsString.eqb x) seen) eqn:Hx.
    + apply existsb_eqb in Hx. destruct (IH seen) as [Hnd Hin].
      split; [assumption|]. intros h. rewrite Hin. split; [tauto|].
      intros [[<- | H] Hn]; [contradiction | tauto].
    + assert (Hn : ~ In x seen)
        by (intros H; apply existsb_eqb in H; congruence).
      destruct (IH (x :: seen)) as [Hnd Hin]. split.
      * constructor; [|assumption]. rewrite Hin. simpl. tauto.
      * intros h. simpl. rewrite Hin. simpl. split.
        -- intros [<- | [H1 H2]]; tauto.
        -- intros [[<- | H] Hs]; [now left|].
           destruct (list_eq_dec N.eq_dec x h) as [-> | Hne]; [now left|].
           right. split; [assumption|]. intros [-> | H']; contradiction.
Qed.

Lemma stored_updateStats later db x :
  Storage.stored (Storage.updateStats getTime hostname later db) x <-> Storage.stored db x.
Proof.
  unfold Storage.stored. split; intros [i Hi]; exists i;
    now rewrite getSummary_updateStats in *.
Qed.

Lemma comments_not_negative (l : list Storage.SummaryResult) :
  Forall (fun s => (0 <= Storage.commentCount s)%Z) l -> (0 <= Storage.comments l)%Z.
Proof. induction 1 as [|s l Hs _ IH]; simpl; lia. Qed.

(** When every stored URL parses, [updateStats] leaves statistics that
    count what is stored. *)
Lemma updateStats_counts later now db :
  (forall x, Storage.stored db x -> hostname (Storage.url x) <> None) ->
  let db' := Storage.updateStats getTime hostname later db in
  let stats := Storage.getStats now db' in
  Storage.totalSummaries stats
    = Z.of_nat (List.length (Storage.getAllSummaries getTime db'))
  /\ Storage.totalComments stats = Storage.comments (Storage.getAllSummaries getTime db')
  /\ Storage.lastUpdated stats = later
  /\ NoDup (Storage.domains stats)
  /\ forall h, In h (Storage.domains stats)
               <-> exists x, Storage.stored db' x /\ hostname (Storage.url x) = Some h.
Proof.
  intros Hurls db' stats.
  pose proof (getAllSummaries_updateStats getTime hostname later db) as Hperm.
  fold db' in Hperm.
  pose proof (Permutation_length Hperm) as Hlen.
  pose proof (comments_perm Hperm) as Hsum.
  assert (Hstored : forall x, Storage.stored db' x <-> Storage.stored db x)
    by (intros x; apply stored_updateStats).
  destruct (hostnames_some (map Storage.url (Storage.getAllSummaries getTime db)))
    as (hosts & Hhosts & Hin).
  { intros u Hu. apply in_map_iff in Hu as (x & <- & Hx).
    apply Hurls. now apply (in_getAllSummaries getTime). }
  subst stats db'. unfold Storage.updateStats, Storage.getStats in *.
  rewrite Hhosts in *. rewrite get_set_same. cbn [Storage.totalSummaries
    Storage.totalComments Storage.lastUpdated Storage.domains].
  destruct (distinct_from_spec [] hosts) as [Hnd Hd].
  repeat split.
  - f_equal. symmetry. exact Hlen.
  - etransitivity; [apply fold_left_comments|]. symmetry. exact Hsum.
  - exact Hnd.
  - intros H. apply Hd in H as [H _]. apply Hin in H as (u & Hu & Hh).
    apply in_map_iff in Hu as (x & <- & Hx). exists x. split; [|assumption].
    apply Hstored. now apply (in_getAllSummaries getTime).
  - intros (x & Hx & Hh). apply Hd. split; [|tauto]. apply Hin.
    exists (Storage.url x). split; [|assumption]. apply in_map.
    apply (in_getAllSummaries getTime). now apply Hstored.
Qed.

End StatsFacts.

(** X14. After [createSummary] and after [deleteSummary], when the URL
    of every stored summary parses and the counts of the stored
    summaries are not negative and add up to a safe integer, the
    statistics are those of what is stored: the number of summaries, the
    sum of their counts, the time of the update, and the host names of
    their URLs, each once. *)
Theorem stats_count_what_is_stored
    (getTime : jsstring -> Z) (hostname : jsstring -> option jsstring)
    (uuid now later today : jsstring) (data : Storage.SummaryData) (db : Storage.Store) :
  (forall x, Storage.stored db x -> hostname (Storage.url x) <> None) ->
  hostname (Storage.data_url data) <> None ->
  forall db',
    db' = snd (Storage.createSummary getTime hostname uuid now later data db)
    \/ db' = snd (Storage.deleteSummary getTime hostname uuid later db) ->
    Storage.safe_counts (Storage.getAllSummaries getTime db') ->
    let stats := Storage.getStats today db' in
    Storage.totalSummaries stats
      = Z.of_nat (List.length (Storage.getAllSummaries getTime db'))
    /\ Storage.totalComments stats
       = Storage.comments (Storage.getAllSummaries getTime db')
    /\ (0 <= Storage.totalComments stats <= Storage.MAX_SAFE_INTEGER)%Z
    /\ Storage.lastUpdated stats = later
    /\ NoDup (Storage.domains stats)
    /\ forall h, In h (Storage.domains stats)
                 <-> exists x, Storage.stored db' x /\ hostname (Storage.url x) = Some h.
Proof.
  intros Hdb Hdata db' Hdb' [Hpos Hsafe].
  assert (Hcounts :
    let stats := Storage.getStats today db' in
    Storage.totalSummaries stats
      = Z.of_nat (List.length (Storage.getAllSummaries getTime db'))
    /\ Storage.totalComments stats
       = Storage.comments (Storage.getAllSummaries getTime db')
    /\ Storage.lastUpdated stats = later
    /\ NoDup (Storage.domains stats)
    /\ forall h, In h (Storage.domains stats)
                 <-> exists x, Storage.stored db' x /\ hostname (Storage.url x) = Some h).
  { destruct Hdb' as [-> | ->]; unfold Storage.createSummary, Storage.deleteSummary;
      cbn [snd]; apply updateStats_counts; intros x [i Hi]; apply getSummary_get in Hi.
    - destruct (list_eq_dec N.eq_dec i uuid) as [-> | Hne].
      + rewrite get_set_same in Hi. injection Hi as <-. exact Hdata.
      + rewrite get_set_other in Hi by (now apply summary_keys_differ).
        apply Hdb. exists i. now apply getSummary_get.
    - destruct (list_eq_dec N.eq_dec i uuid) as [-> | Hne].
      + now rewrite get_del_same in Hi.
      + rewrite get_del_other in Hi by (now apply summary_keys_differ).
        apply Hdb. exists i. now apply getSummary_get. }
  cbv zeta in Hcounts |- *.
  destruct Hcounts as (Hn & Hsum & Hlater & Hnd & Hdom).
  repeat split; try assumption.
  - rewrite Hsum. now apply comments_not_negative.
  - now rewrite Hsum.
  - now apply Hdom.
  - now apply Hdom.
Qed.

(** X15. When the URL of the new summary does not parse, [createSummary]
    still stores and returns the summary, but the statistics stay as
    they were: the failure of [new URL] is caught and only logged. *)
Theorem unparsable_url_leaves_stats_stale
    (getTime : jsstring -> Z) (hostname : jsstring -> option jsstring)
    (uuid now later today : jsstring) (data : Storage.SummaryData) (db : Storage.Store) :
  hostname (Storage.data_url data) = None ->
  let result := Storage.createSummary getTime hostname uuid now later data db in
  Storage.getSummary uuid (snd result) = Some (fst result)
  /\ Storage.getStats today (snd result) = Storage.getStats today db.
Proof.
  intros Hurl result. subst result. unfold Storage.createSummary. cbn [fst snd]. split.
  - rewrite getSummary_updateStats. apply getSummary_get, get_set_same.
  - unfold Storage.updateStats.
    rewrite (@hostnames_none hostname _ (Storage.data_url data)); [| |exact Hurl].
    + unfold Storage.getStats. rewrite get_set_other; [reflexivity|].
      intros H. symmetry in H. revert H. apply summary_key_not_stats.
    + apply in_map_iff.
      match goal with |- context [Storage.VSummary ?s] => exists s end.
      split; [reflexivity|]. apply (in_getAllSummaries getTime).
      exists uuid. apply getSummary_get, get_set_same.
Qed.

(** ** Looking a summary up by URL *)

Lemma find_in_sorted {A : Type} (R : A -> A -> Prop) (f : A -> bool) (l : list A) (x : A) :
  (forall a, R a a) -> StronglySorted R l -> find f l = Some x ->
  forall y, In y l -> f y = true -> R x y.
Proof.
  intros Hrefl Hs. induction Hs as [|a l _ IH Ha]; simpl; [discriminate|].
  destruct (f a) eqn:Hfa.
  - intros H. injection H as <-. intros y [<- | Hy] _; [apply Hrefl|].
    rewrite Forall_forall in Ha. now apply Ha.
  - intros H y [<- | Hy] Hfy; [congruence | now apply IH].
Qed.

(** X16. [getSummaryByUrl(url)] returns a stored summary of that URL,
    the newest when there are several, and nothing exactly when no
    stored summary has the URL. *)
Theorem getSummaryByUrl_newest
    (getTime : jsstring -> Z) (u : jsstring) (db : Storage.Store) :
  (forall s, Storage.getSummaryByUrl getTime u db = Some s ->
     Storage.stored db s /\ Storage.url s = u
     /\ forall s', Storage.stored db s' -> Storage.url s' = u ->
                   Storage.not_older getTime s s')
  /\ (Storage.getSummaryByUrl getTime u db = None
      <-> forall s, Storage.stored db s -> Storage.url s <> u).
Proof.
  unfold Storage.getSummaryByUrl. split.
  - intros s Hfind. pose proof (find_some _ _ Hfind) as [Hin Hu].
    apply eqb_eq in Hu. repeat split; [now apply (in_getAllSummaries getTime) | assumption|].
    intros s' Hs' Hu'.
    eapply (@find_in_sorted _ (Storage.not_older getTime));
      [intros a; unfold Storage.not_older; lia | apply getAllSummaries_sorted
       | exact Hfind | now apply (in_getAllSummaries getTime) | now apply eqb_eq].
  - split.
    + intros Hnone s Hs Hu.
      apply (in_getAllSummaries getTime) in Hs.
      pose proof (find_none _ _ Hnone s Hs) as H. cbv beta in H.
      apply eqb_neq in H. contradiction.
    + intros Hall.
      destruct (find _ (Storage.getAllSummaries getTime db)) as [s|] eqn:Hfind;
        [|reflexivity].
      pose proof (find_some _ _ Hfind) as [Hin Hu]. apply eqb_eq in Hu.
      apply (in_getAllSummaries getTime) in Hin. now destruct (Hall s Hin).
Qed.

(** ** Settings *)

Lemma getSettings_set_settings x db :
  Storage.getSettings (Storage.set Storage.SETTINGS_KEY (Storage.VSettings x) db) = x.
Proof. unfold Storage.getSettings. now rewrite get_set_same. Qed.

Lemma getSettings_set_llm value db :
  Storage.getSettings (Storage.set Storage.LLM_SETTINGS_KEY value db)
  = Storage.getSettings db.
Proof. unfold Storage.getSettings. rewrite get_set_other; [reflexivity | discriminate]. Qed.

Lemma getLLMSettings_set_llm x db :
  Storage.getLLMSettings (Storage.set Storage.LLM_SETTINGS_KEY (Storage.VLLM x) db) = x.
Proof. unfold Storage.getLLMSettings. now rewrite get_set_same. Qed.

Lemma getLLMSettings_set_settings value db :
  Storage.getLLMSettings (Storage.set Storage.SETTINGS_KEY value db)
  = Storage.getLLMSettings db.
Proof.
  unfold Storage.getLLMSettings. rewrite get_set_other; [reflexivity | discriminate].
Qed.

(** X17. [updateLLMSettings] keeps the two copies of the LLM settings in
    step: it merges the updates into the stored LLM settings, and
    afterwards [getLLMSettings] and the [llm] of [getSettings] both give
    the merged settings, while the other application settings are as
    before. *)
Theorem updateLLMSettings_keeps_copies_in_step
    (updates : Storage.LLMUpdates) (db : Storage.Store) :
  let result := Storage.updateLLMSettings updates db in
  fst result = Storage.merge_llm (Storage.getLLMSettings db) updates
  /\ Storage.getLLMSettings (snd result) = fst result
  /\ Storage.llm (Storage.getSettings (snd result)) = fst result
  /\ Storage.autoSummarize (Storage.getSettings (snd result))
     = Storage.autoSummarize (Storage.getSettings db)
  /\ Storage.summaryLength (Storage.getSettings (snd result))
     = Storage.summaryLength (Storage.getSettings db)
  /\ Storage.minComments (Storage.getSettings (snd result))
     = Storage.minComments (Storage.getSettings db)
  /\ Storage.enabledSites (Storage.getSettings (snd result))
     = Storage.enabledSites (Storage.getSettings db)
  /\ Storage.customSelectors (Storage.getSettings (snd result))
     = Storage.customSelectors (Storage.getSettings db).
Proof.
  cbn zeta. unfold Storage.updateLLMSettings, Storage.updateSettings. cbn [fst snd].
  rewrite getLLMSettings_set_settings, getLLMSettings_set_llm.
  rewrite !getSettings_set_settings, !getSettings_set_llm.
  repeat split.
Qed.

(** ** What the database holds *)

Section Kept.

Lemma well_kept_set key value db :
  Storage.well_kept db ->
  match value with
  | Storage.VSummary s => key = Storage.SUMMARIES_PREFIX ++ Storage.id s
  | Storage.VStats _ => key = Storage.STATS_KEY
  | Storage.VSettings _ => key = Storage.SETTINGS_KEY
  | Storage.VLLM _ => key = Storage.LLM_SETTINGS_KEY
  end ->
  Storage.well_kept (Storage.set key value db).
Proof.
  intros Hdb Hkind k v Hget.
  destruct (list_eq_dec N.eq_dec k key) as [-> | Hne].
  - rewrite get_set_same in Hget. now injection Hget as <-.
  - rewrite get_set_other in Hget by assumption. now apply Hdb.
Qed.

Lemma well_kept_del key db :
  Storage.well_kept db -> Storage.well_kept (Storage.del key db).
Proof.
  intros Hdb k v Hget.
  destruct (list_eq_dec N.eq_dec k key) as [-> | Hne].
  - now rewrite get_del_same in Hget.
  - rewrite get_del_other in Hget by assumption. now apply Hdb.
Qed.

Lemma well_kept_updateStats getTime hostname later db :
  Storage.well_kept db -> Storage.well_kept (Storage.updateStats getTime hostname later db).
Proof.
  intros Hdb. unfold Storage.updateStats.
  destruct (Storage.hostnames hostname _); [|assumption].
  now apply well_kept_set.
Qed.

End Kept.

(** X18. Every operation keeps the database in order: each key holds the
    kind of value that is written under it, and each summary is under the
    key made of its own id; so the values the code reads back are of the
    type it takes them for. *)
Theorem operations_keep_the_database
    (getTime : jsstring -> Z) (hostname : jsstring -> option jsstring)
    (db : Storage.Store) :
  Storage.well_kept db ->
  (forall uuid now later data,
     Storage.well_kept
       (snd (Storage.createSummary getTime hostname uuid now later data db)))
  /\ (forall i later,
        Storage.well_kept (snd (Storage.deleteSummary getTime hostname i later db)))
  /\ (forall updates, Storage.well_kept (snd (Storage.updateSettings updates db)))
  /\ (forall updates, Storage.well_kept (snd (Storage.updateLLMSettings updates db))).
Proof.
  intros Hdb. repeat split.
  - intros. apply well_kept_updateStats. now apply well_kept_set.
  - intros. apply well_kept_updateStats. now apply well_kept_del.
  - intros. now apply well_kept_set.
  - intros. unfold Storage.updateLLMSettings, Storage.updateSettings. cbn [snd].
    apply well_kept_set; [|reflexivity]. now apply well_kept_set.
Qed.

Lemma well_kept_empty : Storage.well_kept [].
Proof. intros key value H. discriminate. Qed.

Lemma operations_keep_the_database_witness :
  Storage.well_kept StorageExamples.two_summaries.
Proof.
  assert (H1 : Storage.well_kept StorageExamples.one_summary).
  { destruct (@operations_keep_the_database StorageExamples.digits_time
                StorageExamples.host_of [] well_kept_empty) as [Hc _].
    exact (Hc (lit "id-1") (lit "2024-05-01T12:00:00.000Z")
              (lit "2024-05-01T12:00:00.100Z") StorageExamples.news). }
  destruct (@operations_keep_the_database StorageExamples.digits_time
              StorageExamples.host_of StorageExamples.one_summary H1) as [Hc _].
  exact (Hc (lit "id-2") (lit "2024-05-02T09:30:00.000Z")
            (lit "2024-05-02T09:30:00.100Z") StorageExamples.blog).
Defined.

Lemma stats_count_what_is_stored_witness :
  Storage.getStats [] StorageExamples.two_summaries
  = {| Storage.totalSummaries := 2;
       Storage.totalComments := 128;
       Storage.lastUpdated := lit "2024-05-02T09:30:00.100Z";
       Storage.domains := [lit "blog.example.org"; lit "example.org"] |}
  /\ Storage.totalSummaries (Storage.getStats [] StorageExamples.two_summaries)
     = Z.of_nat (List.length (Storage.getAllSummaries StorageExamples.digits_time
                                StorageExamples.two_summaries)).
Proof.
  split; [vm_compute; reflexivity|].
  assert (H1 : forall x, Storage.stored StorageExamples.one_summary x ->
                         StorageExamples.host_of (Storage.url x) <> None).
  { intros x Hx. apply (in_getAllSummaries StorageExamples.digits_time) in Hx.
    vm_compute in Hx. destruct Hx as [<- | []]. discriminate. }
  assert (H2 : StorageExamples.host_of (Storage.data_url StorageExamples.blog) <> None)
    by discriminate.
  assert (H3 : Storage.safe_counts
                 (Storage.getAllSummaries StorageExamples.digits_time
                    StorageExamples.two_summaries)).
  { split; [|vm_compute; discriminate].
    apply Forall_forall. intros x Hx. vm_compute in Hx.
    destruct Hx as [<- | [<- | []]]; vm_compute; discriminate. }
  destruct (@stats_count_what_is_stored StorageExamples.digits_time StorageExamples.host_of
              (lit "id-2") (lit "2024-05-02T09:30:00.000Z")
              (lit "2024-05-02T09:30:00.100Z") [] StorageExamples.blog
              StorageExamples.one_summary H1 H2 StorageExamples.two_summaries
              (or_introl eq_refl) H3) as [Hcount _].
  exact Hcount.
Defined.

Lemma unparsable_url_leaves_stats_stale_witness :
  Storage.getStats []
    (snd (Storage.createSummary StorageExamples.digits_time StorageExamples.host_of
            (lit "id-3") (lit "2024-05-03T08:00:00.000Z") (lit "2024-05-03T08:00:00.100Z")
            StorageExamples.local_file StorageExamples.two_summaries))
  = Storage.getStats [] StorageExamples.two_summaries.
Proof.
  apply (@unparsable_url_leaves_stats_stale StorageExamples.digits_time
           StorageExamples.host_of).
  reflexivity.
Defined.

Example storage_examples :
  map Storage.id (Storage.getAllSummaries StorageExamples.digits_time
                    StorageExamples.two_summaries)
  = [lit "id-2"; lit "id-1"]
  /\ option_map Storage.id
       (Storage.getSummaryByUrl StorageExamples.digits_time
          (lit "https://example.org/news") StorageExamples.two_summaries)
     = Some (lit "id-1")
  /\ Storage.getSummaryByUrl StorageExamples.digits_time
       (lit "https://example.org/none") StorageExamples.two_summaries = None
  /\ Storage.keys StorageExamples.two_summaries
     = [lit "stats"; lit "summary:id-1"; lit "summary:id-2"].
Proof. repeat split; vm_compute; reflexivity. Qed.

(** * The application store *)

(** ** Sorting and filtering *)

Section SortFilter.

Context {A : Type} (leb : A -> A -> bool).

Lemma insert_first (x : A) (l : list A) :
  Forall (fun y => leb x y = true) l -> Storage.insert leb x l = x :: l.
Proof. intros [|y l' Hy _]; simpl; [reflexivity | now rewrite Hy]. Qed.

(** An element that comes strictly before all the others is the first of
    the sorted list, wherever it was. *)
Lemma sort_by_first (s : A) (l1 l2 : list A) :
  (forall y, In y (l1 ++ l2) -> leb s y = true /\ leb y s = false) ->
  Storage.sort_by leb (l1 ++ s :: l2) = s :: Storage.sort_by leb (l1 ++ l2).
Proof.
  induction l1 as [|a l1 IH]; intros H; simpl.
  - apply insert_first. apply Forall_forall. intros y Hy. apply H.
    simpl. eapply Permutation_in; [apply sort_by_perm | exact Hy].
  - rewrite IH by (intros y Hy; apply H; now right).
    simpl. now rewrite (proj2 (H a (or_introl eq_refl))).
Qed.

Hypothesis leb_total : forall a b, leb a b = true \/ leb b a = true.
Hypothesis leb_trans : forall a b c, leb a b = true -> leb b c = true -> leb a c = true.

Lemma filter_insert (f : A -> bool) (x : A) (l : list A) :
  StronglySorted (fun a b => leb a b = true) l ->
  filter f (Storage.insert leb x l)
  = if f x then Storage.insert leb x (filter f l) else filter f l.
Proof.
  induction 1 as [|y l Hs IH Hy]; simpl; [now destruct (f x)|].
  destruct (leb x y) eqn:Hxy.
  - simpl. destruct (f x); [|reflexivity].
    symmetry.
    change (if f y then y :: filter f l else filter f l) with (filter f (y :: l)).
    apply insert_first. apply Forall_forall. intros z Hz.
    apply filter_In in Hz as [[<- | Hz] _]; [assumption|].
    rewrite Forall_forall in Hy. eapply leb_trans; [exact Hxy | now apply Hy].
  - simpl. rewrite IH. destruct (f x), (f y); simpl; rewrite ?Hxy; reflexivity.
Qed.

(** The sort is stable, so that sorting and filtering commute. *)
Lemma filter_sort_by (f : A -> bool) (l : list A) :
  filter f (Storage.sort_by leb l) = Storage.sort_by leb (filter f l).
Proof.
  induction l as [|x l IH]; simpl; [reflexivity|].
  rewrite filter_insert by (now apply sort_by_sorted).
  rewrite IH. now destruct (f x).
Qed.

(** Sorting with one more element, which the list does not have, puts
    it somewhere in the sorted list and leaves the others as they were. *)
Lemma sort_by_added (k : A) (l : list A) :
  (forall a b : A, {a = b} + {a <> b}) ->
  ~ In k l ->
  exists l1 l2,
    Storage.sort_by leb (l ++ [k]) = l1 ++ k :: l2
    /\ Storage.sort_by leb l = l1 ++ l2
    /\ ~ In k (l1 ++ l2).
Proof.
  intros eq_dec Hk.
  pose (nk := fun a => if eq_dec a k then false else true).
  assert (Hnk : nk k = false) by (unfold nk; now destruct (eq_dec k k)).
  assert (Hkeep : forall m, ~ In k m -> filter nk m = m).
  { intros m Hm. apply filter_all, Forall_forall. intros a Ha. unfold nk.
    destruct (eq_dec a k) as [-> | _]; [contradiction | reflexivity]. }
  pose proof (sort_by_perm leb (l ++ [k])) as Hperm.
  assert (Hin : In k (Storage.sort_by leb (l ++ [k]))).
  { eapply Permutation_in; [symmetry; exact Hperm|]. apply in_or_app. right. now left. }
  apply in_split in Hin as (l1 & l2 & Hl).
  assert (Hnot : ~ In k (l1 ++ l2)).
  { intros Hin. apply Hk. eapply Permutation_in; [|exact Hin].
    apply (Permutation_cons_inv (a := k)). rewrite Hl in Hperm.
    rewrite <- Permutation_middle in Hperm. rewrite Hperm.
    symmetry. apply Permutation_cons_append. }
  exists l1, l2. repeat split; [assumption | | assumption].
  rewrite <- (Hkeep l Hk) at 1.
  replace (filter nk l) with (filter nk (l ++ [k]))
    by (rewrite filter_app; simpl; rewrite Hnk; apply app_nil_r).
  rewrite <- filter_sort_by, Hl, filter_app. simpl. rewrite Hnk.
  rewrite <- filter_app. now apply Hkeep.
Qed.

End SortFilter.

Section KeyOrder.

Lemma key_leb_total (a b : jsstring) :
  Storage.key_leb a b = true \/ Storage.key_leb b a = true.
Proof.
  revert b; induction a as [|x a IH]; intros [|y b]; simpl; auto.
  destruct (N.ltb_spec x y); [now left|].
  destruct (N.ltb_spec y x); [now right|].
  assert (x = y) by lia. subst y. rewrite N.eqb_refl. simpl. apply IH.
Qed.

Lemma key_leb_trans (a b c : jsstring) :
  Storage.key_leb a b = true -> Storage.key_leb b c = true -> Storage.key_leb a c = true.
Proof.
  revert b c; induction a as [|x a IH]; intros [|y b] [|z c]; simpl; try easy.
  rewrite !orb_true_iff, !andb_true_iff, !N.ltb_lt, !N.eqb_eq.
  intros [Hxy | [-> Hab]] [Hyz | [-> Hbc]].
  - left. lia.
  - now left.
  - now left.
  - right. split; [reflexivity|]. now apply (IH b).
Qed.

Lemma filter_keys (f : jsstring -> bool) (db : Storage.Store) :
  filter f (Storage.keys db) = Storage.sort_by Storage.key_leb (filter f (map fst db)).
Proof. apply filter_sort_by; [apply key_leb_total | apply key_leb_trans]. Qed.

Lemma filter_comm {A : Type} (f g : A -> bool) (l : list A) :
  filter f (filter g l) = filter g (filter f l).
Proof.
  induction l as [|x l IH]; simpl; [reflexivity|].
  destruct (f x) eqn:Hf, (g x) eqn:Hg; simpl; rewrite ?Hf, ?Hg, IH; reflexivity.
Qed.

Lemma filter_keeps {A : Type} (f : A -> bool) (l : list A) :
  (forall x, In x l -> f x = true) -> filter f l = l.
Proof.
  induction l as [|x l IH]; intros H; simpl; [reflexivity|].
  rewrite (H x (or_introl eq_refl)), IH; [reflexivity|]. intros y Hy. apply H. now right.
Qed.

Lemma set_fresh key value db :
  Storage.get key db = None -> Storage.set key value db = db ++ [(key, value)].
Proof.
  induction db as [|[k v] rest IH]; simpl; [reflexivity|].
  destruct (JsString.eqb key k); [discriminate|]. intros H. now rewrite IH.
Qed.

Lemma keys_set_fresh (key : jsstring) value db :
  Storage.get key db = None -> map fst (Storage.set key value db) = map fst db ++ [key].
Proof. intros H. now rewrite set_fresh, map_app. Qed.

Lemma keys_del key db :
  map fst (Storage.del key db)
  = filter (fun k => negb (JsString.eqb key k)) (map fst db).
Proof.
  induction db as [|[k v] rest IH]; simpl; [reflexivity|].
  destruct (JsString.eqb key k); simpl; now rewrite IH.
Qed.

End KeyOrder.

(** ** The list of summaries after a write *)

Section ListAfter.

Variable getTime : jsstring -> Z.
Variable hostname : jsstring -> option jsstring.

Lemma getAllSummaries_at db :
  Storage.getAllSummaries getTime db
  = Storage.sort_by (Storage.newer_first getTime)
      (Storage.summaries_at db
         (Storage.sort_by Storage.key_leb
            (filter (starts_with Storage.SUMMARIES_PREFIX) (map fst db)))).
Proof. unfold Storage.getAllSummaries. cbv zeta. now rewrite filter_keys. Qed.

Lemma summaries_at_cons db key l :
  Storage.summaries_at db (key :: l)
  = match Storage.get key db with
    | Some (Storage.VSummary summary) => [summary]
    | _ => []
    end ++ Storage.summaries_at db l.
Proof. reflexivity. Qed.

Lemma summaries_at_app db l1 l2 :
  Storage.summaries_at db (l1 ++ l2)
  = Storage.summaries_at db l1 ++ Storage.summaries_at db l2.
Proof. apply flat_map_app. Qed.

(** Writing under a key that is not a summary's leaves the list as it
    is. *)
Lemma getAllSummaries_set_other_eq key value db :
  starts_with Storage.SUMMARIES_PREFIX key = false ->
  Storage.getAllSummaries getTime (Storage.set key value db)
  = Storage.getAllSummaries getTime db.
Proof.
  intros Hkey. rewrite !getAllSummaries_at, filter_keys_set by assumption.
  f_equal. apply flat_map_same_on. intros k Hk.
  rewrite get_set_other; [reflexivity|]. intros ->.
  eapply Permutation_in in Hk; [|apply sort_by_perm].
  apply filter_In in Hk as [_ Hp]. congruence.
Qed.

Lemma getAllSummaries_updateStats_eq later db :
  Storage.getAllSummaries getTime (Storage.updateStats getTime hostname later db)
  = Storage.getAllSummaries getTime db.
Proof.
  unfold Storage.updateStats. destruct (Storage.hostnames hostname _); [|reflexivity].
  apply getAllSummaries_set_other_eq. reflexivity.
Qed.

(** A summary written under a key that is not in use, with a time past
    those of all the others, is the first of the new list, and the rest
    of the list is the old one. *)
Lemma getAllSummaries_set_fresh i s db :
  Storage.get (Storage.SUMMARIES_PREFIX ++ i) db = None ->
  (forall x, Storage.stored db x ->
     (getTime (Storage.createdAt x) < getTime (Storage.createdAt s))%Z) ->
  Storage.getAllSummaries getTime
    (Storage.set (Storage.SUMMARIES_PREFIX ++ i) (Storage.VSummary s) db)
  = s :: Storage.getAllSummaries getTime db.
Proof.
  intros Hfresh Hnew.
  assert (HPk : starts_with Storage.SUMMARIES_PREFIX (Storage.SUMMARIES_PREFIX ++ i) = true)
    by (apply starts_with_prefix; now exists i).
  remember (Storage.SUMMARIES_PREFIX ++ i) as k eqn:Ek.
  rewrite !getAllSummaries_at. rewrite keys_set_fresh by assumption.
  rewrite filter_app. cbn [filter]. rewrite HPk.
  set (L := filter (starts_with Storage.SUMMARIES_PREFIX) (map fst db)).
  assert (HkL : ~ In k L).
  { intros Hin. apply filter_In in Hin as [Hin _].
    apply get_in_keys in Hin as [v Hv]. congruence. }
  destruct (@sort_by_added jsstring Storage.key_leb key_leb_total key_leb_trans k L
              (list_eq_dec N.eq_dec) HkL) as (K1 & K2 & HK & Hold & HnK).
  rewrite HK, Hold.
  assert (Hsame : forall K, ~ In k K ->
            Storage.summaries_at (Storage.set k (Storage.VSummary s) db) K
            = Storage.summaries_at db K).
  { intros K HK'. apply flat_map_same_on. intros key Hkey.
    rewrite get_set_other; [reflexivity|]. intros ->. contradiction. }
  rewrite !summaries_at_app. rewrite (summaries_at_cons _ k K2).
  rewrite get_set_same.
  rewrite !Hsame
    by (intros Hin; apply HnK; apply in_or_app; auto).
  change ([s] ++ Storage.summaries_at db K2) with (s :: Storage.summaries_at db K2).
  apply sort_by_first. intros y Hy.
  assert (Hst : Storage.stored db y).
  { apply (in_getAllSummaries getTime). rewrite getAllSummaries_at.
    eapply Permutation_in; [symmetry; apply sort_by_perm|].
    fold L. rewrite Hold, summaries_at_app. exact Hy. }
  specialize (Hnew y Hst). unfold Storage.newer_first.
  split; [apply Z.leb_le | apply Z.leb_gt]; lia.
Qed.

(** In a database that is kept, taking the key of an id out of the keys
    takes the summaries of that id out of the values. *)
Lemma summaries_at_without i db (K : list jsstring) :
  Storage.well_kept db ->
  Storage.summaries_at db
    (filter (fun key => negb (JsString.eqb (Storage.SUMMARIES_PREFIX ++ i) key)) K)
  = filter (fun summary => negb (JsString.eqb (Storage.id summary) i))
      (Storage.summaries_at db K).
Proof.
  intros Hkept. induction K as [|key K IH]; [reflexivity|].
  rewrite summaries_at_cons, filter_app, <- IH. cbn [filter].
  destruct (Storage.get key db) as [[s | x | x | x]|] eqn:Hget;
    try (destruct (negb _); [rewrite summaries_at_cons, Hget|]; reflexivity).
  pose proof (Hkept key _ Hget) as Hkey. cbv beta iota in Hkey. subst key.
  cbn [filter].
  destruct (JsString.eqb (Storage.SUMMARIES_PREFIX ++ i)
              (Storage.SUMMARIES_PREFIX ++ Storage.id s)) eqn:E; cbn [negb].
  - apply eqb_eq, app_inv_head in E. rewrite <- E, eqb_refl. reflexivity.
  - rewrite summaries_at_cons, Hget.
    assert (Hne : JsString.eqb (Storage.id s) i = false).
    { apply eqb_neq. intros Heq. rewrite Heq, eqb_refl in E. discriminate. }
    now rewrite Hne.
Qed.

Lemma getAllSummaries_del i db :
  Storage.well_kept db ->
  Storage.getAllSummaries getTime (Storage.del (Storage.SUMMARIES_PREFIX ++ i) db)
  = filter (fun summary => negb (JsString.eqb (Storage.id summary) i))
      (Storage.getAllSummaries getTime db).
Proof.
  intros Hkept. rewrite !getAllSummaries_at.
  rewrite (filter_sort_by _ (@newer_first_total getTime) (@newer_first_trans getTime)).
  f_equal. rewrite keys_del, filter_comm.
  rewrite <- (filter_sort_by Storage.key_leb key_leb_total key_leb_trans).
  rewrite <- summaries_at_without by assumption.
  apply flat_map_same_on. intros key Hkey. apply filter_In in Hkey as [_ Hne].
  rewrite get_del_other; [reflexivity|].
  apply negb_true_iff, eqb_neq in Hne. congruence.
Qed.

Lemma getSettings_updateStats later db :
  Storage.getSettings (Storage.updateStats getTime hostname later db)
  = Storage.getSettings db.
Proof.
  unfold Storage.updateStats. destruct (Storage.hostnames hostname _); [|reflexivity].
  unfold Storage.getSettings. now rewrite get_set_other by discriminate.
Qed.

Lemma createSummary_list uuid now later data db :
  AppStore.fresh getTime uuid now db ->
  Storage.getAllSummaries getTime
    (snd (Storage.createSummary getTime hostname uuid now later data db))
  = fst (Storage.createSummary getTime hostname uuid now later data db)
    :: Storage.getAllSummaries getTime db.
Proof.
  intros [Hfresh Hclock]. unfold Storage.createSummary. cbn [fst snd].
  rewrite getAllSummaries_updateStats_eq. now apply getAllSummaries_set_fresh.
Qed.

Lemma createSummary_settings uuid now later data db :
  Storage.getSettings (snd (Storage.createSummary getTime hostname uuid now later data db))
  = Storage.getSettings db.
Proof.
  unfold Storage.createSummary. cbn [snd]. rewrite getSettings_updateStats.
  unfold Storage.getSettings. now rewrite get_set_other by discriminate.
Qed.

Lemma deleteSummary_list i later db :
  Storage.well_kept db ->
  Storage.getAllSummaries getTime
    (snd (Storage.deleteSummary getTime hostname i later db))
  = filter (fun summary => negb (JsString.eqb (Storage.id summary) i))
      (Storage.getAllSummaries getTime db).
Proof.
  intros Hkept. unfold Storage.deleteSummary. cbn [snd].
  rewrite getAllSummaries_updateStats_eq. now apply getAllSummaries_del.
Qed.

Lemma deleteSummary_settings i later db :
  Storage.getSettings (snd (Storage.deleteSummary getTime hostname i later db))
  = Storage.getSettings db.
Proof.
  unfold Storage.deleteSummary. cbn [snd]. rewrite getSettings_updateStats.
  unfold Storage.getSettings. now rewrite get_del_other by discriminate.
Qed.

End ListAfter.

(** X19. When the state shows what the database has, the id is new and
    the clock is past the time of every stored summary, [addSummary]
    leaves the state showing what the database has: the list, with the
    new summary at its head, is the list that a reload gives, and the
    statistics are the stored ones. *)
Theorem addSummary_keeps_the_state_current
    (getTime : jsstring -> Z) (hostname : jsstring -> option jsstring)
    (uuid now later today : jsstring) (data : Storage.SummaryData)
    (st : AppStore.AppState) (db : Storage.Store) :
  AppStore.current getTime st db ->
  AppStore.fresh getTime uuid now db ->
  let '(returned, st', db') :=
    AppStore.addSummary getTime hostname uuid now later today data st db in
  AppStore.current getTime st' db'
  /\ returned = hd_error (AppStore.summaries st')
  /\ AppStore.summaries (AppStore.loadSummaries getTime st' db') = AppStore.summaries st'
  /\ AppStore.stats st' = Storage.getStats today db'.
Proof.
  intros [Hlist Hsettings] Hfresh. unfold AppStore.addSummary.
  pose proof (@createSummary_list getTime hostname uuid now later data db Hfresh) as Hl.
  pose proof (createSummary_settings getTime hostname uuid now later data db) as Hs.
  destruct (Storage.createSummary getTime hostname uuid now later data db)
    as [newSummary db'].
  cbn [fst snd] in Hl, Hs.
  unfold AppStore.current, AppStore.loadSummaries, AppStore.loadStats. simpl.
  rewrite Hl, Hs, Hlist, Hsettings. repeat split.
Qed.

(** X20. When the database is kept and the state shows what it has,
    [deleteSummary] leaves the state showing what the database has: the
    list without the summaries of the id is the list that a reload
    gives, it has no summary of that id, and the statistics are the
    stored ones. *)
Theorem deleteSummary_keeps_the_state_current
    (getTime : jsstring -> Z) (hostname : jsstring -> option jsstring)
    (i later today : jsstring) (st : AppStore.AppState) (db : Storage.Store) :
  Storage.well_kept db ->
  AppStore.current getTime st db ->
  let '(st', db') := AppStore.deleteSummary getTime hostname i later today st db in
  AppStore.current getTime st' db'
  /\ (forall s, In s (AppStore.summaries st') -> Storage.id s <> i)
  /\ AppStore.summaries (AppStore.loadSummaries getTime st' db') = AppStore.summaries st'
  /\ AppStore.stats st' = Storage.getStats today db'.
Proof.
  intros Hkept [Hlist Hsettings]. unfold AppStore.deleteSummary.
  pose proof (@deleteSummary_list getTime hostname i later db Hkept) as Hl.
  pose proof (deleteSummary_settings getTime hostname i later db) as Hs.
  destruct (Storage.deleteSummary getTime hostname i later db) as [deleted db'].
  cbn [snd] in Hl, Hs.
  unfold AppStore.current, AppStore.loadSummaries, AppStore.loadStats. simpl.
  rewrite Hl, Hs, Hlist, Hsettings. repeat split.
  intros s Hs'. apply filter_In in Hs' as [_ Hs'].
  now apply negb_true_iff, eqb_neq in Hs'.
Qed.

(** X21. When the settings of the state are the stored ones, they still
    are after [updateSettings] and after [updateLLMSettings]; after the
    latter the [llm] of the state is, besides, what [getLLMSettings]
    gives. *)
Theorem settings_stay_current
    (st : AppStore.AppState) (db : Storage.Store) :
  AppStore.settings st = Storage.getSettings db ->
  (forall updates,
     let '(st', db') := AppStore.updateSettings updates st db in
     AppStore.settings st' = Storage.getSettings db'
     /\ AppStore.summaries st' = AppStore.summaries st)
  /\ (forall updates,
        let '(st', db') := AppStore.updateLLMSettings updates st db in
        AppStore.settings st' = Storage.getSettings db'
        /\ Storage.llm (AppStore.settings st') = Storage.getLLMSettings db'
        /\ AppStore.summaries st' = AppStore.summaries st).
Proof.
  intros Hsettings. split; intros updates.
  - unfold AppStore.updateSettings, Storage.updateSettings. cbn.
    now rewrite getSettings_set_settings.
  - unfold AppStore.updateLLMSettings, Storage.updateLLMSettings, Storage.updateSettings.
    cbn. rewrite getSettings_set_settings, getSettings_set_llm.
    rewrite getLLMSettings_set_settings, getLLMSettings_set_llm, Hsettings.
    repeat split.
Qed.

(** ** The store at the sample database *)

Lemma createSummary_kept getTime hostname uuid now later data db :
  Storage.well_kept db ->
  Storage.well_kept (snd (Storage.createSummary getTime hostname uuid now later data db)).
Proof. intros H. apply well_kept_updateStats. now apply well_kept_set. Qed.

Lemma two_summaries_kept : Storage.well_kept StorageExamples.two_summaries.
Proof. repeat apply createSummary_kept. apply well_kept_empty. Qed.

Lemma addSummary_keeps_the_state_current_witness :
  let st :=
    AppStore.loadSettings
      (AppStore.loadSummaries StorageExamples.digits_time
         (AppStore.initial (lit "2024-05-01T11:00:00.000Z")) StorageExamples.one_summary)
      StorageExamples.one_summary in
  let '(returned, st', db') :=
    AppStore.addSummary StorageExamples.digits_time StorageExamples.host_of
      (lit "id-2") (lit "2024-05-02T09:30:00.000Z") (lit "2024-05-02T09:30:00.100Z")
      (lit "2024-05-02T09:30:00.200Z") StorageExamples.blog st
      StorageExamples.one_summary in
  AppStore.current StorageExamples.digits_time st' db'
  /\ returned = hd_error (AppStore.summaries st')
  /\ AppStore.summaries (AppStore.loadSummaries StorageExamples.digits_time st' db')
     = AppStore.summaries st'
  /\ AppStore.stats st' = Storage.getStats (lit "2024-05-02T09:30:00.200Z") db'.
Proof.
  intros st.
  apply (@addSummary_keeps_the_state_current StorageExamples.digits_time
           StorageExamples.host_of (lit "id-2") (lit "2024-05-02T09:30:00.000Z")
           (lit "2024-05-02T09:30:00.100Z") (lit "2024-05-02T09:30:00.200Z")
           StorageExamples.blog st StorageExamples.one_summary).
  - split; reflexivity.
  - split; [vm_compute; reflexivity|].
    intros x Hx. apply (in_getAllSummaries StorageExamples.digits_time) in Hx.
    vm_compute in Hx. destruct Hx as [<- | []]. vm_compute. reflexivity.
Defined.

Lemma deleteSummary_keeps_the_state_current_witness :
  let st :=
    AppStore.loadSettings
      (AppStore.loadSummaries StorageExamples.digits_time
         (AppStore.initial (lit "2024-05-01T11:00:00.000Z")) StorageExamples.two_summaries)
      StorageExamples.two_summaries in
  let '(st', db') :=
    AppStore.deleteSummary StorageExamples.digits_time StorageExamples.host_of
      (lit "id-1") (lit "2024-05-03T10:00:00.000Z") (lit "2024-05-03T10:00:00.100Z")
      st StorageExamples.two_summaries in
  AppStore.current StorageExamples.digits_time st' db'
  /\ (forall s, In s (AppStore.summaries st') -> Storage.id s <> lit "id-1")
  /\ AppStore.summaries (AppStore.loadSummaries StorageExamples.digits_time st' db')
     = AppStore.summaries st'
  /\ AppStore.stats st' = Storage.getStats (lit "2024-05-03T10:00:00.100Z") db'.
Proof.
  intros st.
  apply (@deleteSummary_keeps_the_state_current StorageExamples.digits_time
           StorageExamples.host_of (lit "id-1") (lit "2024-05-03T10:00:00.000Z")
           (lit "2024-05-03T10:00:00.100Z") st StorageExamples.two_summaries).
  - exact two_summaries_kept.
  - split; reflexivity.
Defined.

Lemma settings_stay_current_witness :
  let st := AppStore.loadSettings (AppStore.initial (lit "2024-05-01T11:00:00.000Z")) [] in
  let '(st', db') :=
    AppStore.updateLLMSettings
      {| Storage.new_currentProvider := Some (Some openai);
         Storage.new_providers := None;
         Storage.new_temperature := None;
         Storage.new_maxTokens := Some 2000%Z |} st [] in
  AppStore.settings st' = Storage.getSettings db'
  /\ Storage.llm (AppStore.settings st') = Storage.getLLMSettings db'
  /\ AppStore.summaries st' = AppStore.summaries st.
Proof.
  intros st.
  destruct (@settings_stay_current st [] eq_refl) as [_ Hllm].
  exact (Hllm {| Storage.new_currentProvider := Some (Some openai);
                 Storage.new_providers := None;
                 Storage.new_temperature := None;
                 Storage.new_maxTokens := Some 2000%Z |}).
Defined.

(** When the clock is not past the stored times the list of the state
    and the list of a reload part: here the summary that is added is a
    day older than the stored one. *)
Example addSummary_with_the_clock_behind :
  let st :=
    AppStore.loadSummaries StorageExamples.digits_time
      (AppStore.initial (lit "2024-05-01T11:00:00.000Z")) StorageExamples.one_summary in
  let '(_, st', db') :=
    AppStore.addSummary StorageExamples.digits_time StorageExamples.host_of
      (lit "id-0") (lit "2024-04-30T12:00:00.000Z") (lit "2024-04-30T12:00:00.100Z")
      (lit "2024-04-30T12:00:00.200Z") StorageExamples.blog st
      StorageExamples.one_summary in
  map Storage.id (AppStore.summaries st') = [lit "id-0"; lit "id-1"]
  /\ map Storage.id (Storage.getAllSummaries StorageExamples.digits_time db')
     = [lit "id-1"; lit "id-0"].
Proof. vm_compute. split; reflexivity. Qed.
